(** * WWV log analysis (tools/wwv_analyze.py)

    A shallow embedding of the log-analysis tool of Phoenix SDR: the log
    locator, the header reader, the five category analyzers, the correlation
    matcher and the report assembler, followed by the properties established
    about them.

    Conventions of the model.
    - In the analyzers and the report a Python [float] is an exact rational
      ([Q]); [<], [<=], [-], [abs], [sum] and [/] are the exact operations,
      and rounding, infinities and NaN are left out.  Where a property
      depends on them, in the correlation check and in the minimum and
      maximum of the channel analyzer, the code is embedded a second time on
      binary64 values (module [Double]).
    - [float(s)] is a parameter [float : string -> option Q] of the
      analyzers ([None] stands for the [ValueError]); the examples use the
      decimal reader [decimal].
    - A text file is the list of its lines, without the line terminators;
      the directory is [os.listdir], in some order, with [os.path.getmtime]
      and the contents of its files; paths are joined as on POSIX.
    - A [dict] is an association list in insertion order; a dict literal
      whose keys differ between return statements is a record whose
      optional keys have an [option] type, and reading an absent key raises
      [KeyError].
    - [print] appends a [line] to the output; a [line] keeps the values that
      the source formats, not the formatted text. *)

From Stdlib Require Import List String Ascii ZArith QArith Qabs Lia Lqa Bool.
From Stdlib Require Import Permutation Sorted ListSet PeanoNat.
From Stdlib Require Floats.
Import ListNotations.

Local Open Scope list_scope.
Local Open Scope string_scope.

(** ** Exceptions and the two effects of the program *)

Inductive exn : Type :=
| KeyError (key : string)
| ValueError (arg : string).

Inductive result (A : Type) : Type :=
| Ok (a : A)
| Raise (e : exn).

Arguments Ok {A} a.
Arguments Raise {A} e.

Class Monad (m : Type -> Type) : Type := {
  ret : forall {A : Type}, A -> m A;
  bind : forall {A B : Type}, m A -> (A -> m B) -> m B
}.

Notation "x <- c ;; k" := (bind c (fun x => k))
  (at level 61, c at next level, right associativity).
Notation "' pat <- c ;; k" := (bind c (fun x => match x with pat => k end))
  (at level 61, pat pattern, c at next level, right associativity).
Notation "c ;;; k" := (bind c (fun _ => k))
  (at level 61, right associativity).

#[export] Instance result_monad : Monad result := {
  ret := fun A a => Ok a;
  bind := fun A B c k => match c with Ok a => k a | Raise e => Raise e end
}.

(** ** Python built-ins used by the tool *)

Module Py.

Definition startswith (s p : string) : bool := String.prefix p s.

Definition endswith (s suffix : string) : bool :=
  let n := String.length s in
  let k := String.length suffix in
  (k <=? n)%nat && (String.substring (n - k) k s =? suffix).

(** [sub in s] *)
Fixpoint contains (sub s : string) : bool :=
  String.prefix sub s ||
  match s with
  | EmptyString => false
  | String _ s' => contains sub s'
  end.

(** [s.split(sep)] for a non-empty [sep]: [skip] counts the characters of
    a separator still to be passed over, [cur] is the piece being read. *)
Fixpoint split_from (sep : string) (skip : nat) (cur s : string) : list string :=
  match s with
  | EmptyString => [cur]
  | String c s' =>
      match skip with
      | S n => split_from sep n cur s'
      | O =>
          if String.prefix sep s
          then cur :: split_from sep (String.length sep - 1) EmptyString s'
          else split_from sep 0 (cur ++ String c EmptyString) s'
      end
  end.

Definition split (s sep : string) : list string :=
  split_from sep 0 EmptyString s.

(** [s.replace(old, '')] for a non-empty [old]. *)
Fixpoint remove_from (old : string) (skip : nat) (s : string) : string :=
  match s with
  | EmptyString => EmptyString
  | String c s' =>
      match skip with
      | S n => remove_from old n s'
      | O =>
          if String.prefix old s
          then remove_from old (String.length old - 1) s'
          else String c (remove_from old 0 s')
      end
  end.

Definition remove (s old : string) : string := remove_from old 0 s.

Definition isspace (c : ascii) : bool :=
  let n := nat_of_ascii c in
  ((9 <=? n) && (n <=? 13) || (28 <=? n) && (n <=? 32))%nat.

Fixpoint lstrip (s : string) : string :=
  match s with
  | EmptyString => EmptyString
  | String c s' => if isspace c then lstrip s' else s
  end.

Fixpoint rstrip (s : string) : string :=
  match s with
  | EmptyString => EmptyString
  | String c s' =>
      match rstrip s' with
      | EmptyString => if isspace c then EmptyString else String c EmptyString
      | r => String c r
      end
  end.

Definition strip (s : string) : string := rstrip (lstrip s).

(** Comparison of floats. *)
Definition lt (x y : Q) : bool := negb (Qle_bool y x).
Definition le (x y : Q) : bool := Qle_bool x y.

(** [sum(l)], [min(l)], [max(l)] and [len(l)] as a float. *)
Definition sum (l : list Q) : Q := fold_left Qplus l 0%Q.

Definition min (first : Q) (rest : list Q) : Q :=
  fold_left (fun m x => if lt x m then x else m) rest first.

Definition max (first : Q) (rest : list Q) : Q :=
  fold_left (fun m x => if lt m x then x else m) rest first.

Definition len {A : Type} (l : list A) : Q := inject_Z (Z.of_nat (List.length l)).

(** Dicts keyed by strings, in insertion order. *)
Definition dict (V : Type) : Type := list (string * V).

Fixpoint get {V : Type} (d : dict V) (k : string) : option V :=
  match d with
  | [] => None
  | (k', v) :: d' => if k' =? k then Some v else get d' k
  end.

Fixpoint set {V : Type} (k : string) (v : V) (d : dict V) : dict V :=
  match d with
  | [] => [(k, v)]
  | (k', v') :: d' =>
      if k' =? k then (k', v) :: d' else (k', v') :: set k v d'
  end.

(** [d[k]] *)
Definition getitem {V : Type} (d : dict V) (k : string) : result V :=
  match get d k with
  | Some v => Ok v
  | None => Raise (KeyError k)
  end.

(** [d[k] += 1] on a [defaultdict(int)] *)
Definition incr (k : string) (d : dict nat) : dict nat :=
  match get d k with
  | Some n => set k (S n) d
  | None => set k 1%nat d
  end.

(** [enumerate(l)] counting from [i] *)
Fixpoint enumerate {A : Type} (i : nat) (l : list A) : list (nat * A) :=
  match l with
  | [] => []
  | a :: l' => (i, a) :: enumerate (S i) l'
  end.

(** The stable sorts: [insert_by lt x l] puts [x] in front of the first
    element it is not after, so that equal elements keep their order when
    the list is sorted from its last element to its first. *)
Fixpoint insert_by {A : Type} (before : A -> A -> bool) (x : A) (l : list A) : list A :=
  match l with
  | [] => [x]
  | y :: l' => if before y x then y :: insert_by before x l' else x :: l
  end.

Definition sort_by {A : Type} (before : A -> A -> bool) (l : list A) : list A :=
  fold_right (insert_by before) [] l.

(** [sorted(l, key=key)]: ascending in the key, stable. *)
Definition sorted {A : Type} (key : A -> Q) (l : list A) : list A :=
  sort_by (fun y x => lt (key y) (key x)) l.

(** [(m1, p1) < (m2, p2)] on tuples of a float and a string. *)
Definition tuple_lt (a b : Q * string) : bool :=
  if negb (Qeq_bool (fst a) (fst b)) then lt (fst a) (fst b)
  else (snd a <? snd b).

(** [l.sort(reverse=True)] on such tuples: descending, stable. *)
Definition sort_reverse (l : list (Q * string)) : list (Q * string) :=
  sort_by (fun y x => tuple_lt x y) l.

End Py.

(** A decimal reader for the examples: an optional sign, digits, and an
    optional fraction.  It agrees with [float] on these literals. *)

Definition digit (c : ascii) : option Z :=
  let n := nat_of_ascii c in
  if ((48 <=? n) && (n <=? 57))%nat then Some (Z.of_nat (n - 48)) else None.

Fixpoint digits (acc : Z) (scale : positive) (s : string) : option (Z * positive * string) :=
  match s with
  | EmptyString => Some (acc, scale, EmptyString)
  | String c s' =>
      match digit c with
      | Some d => digits (10 * acc + d) (10 * scale) s'
      | None => Some (acc, scale, s)
      end
  end.

Definition unsigned_decimal (s : string) : option Q :=
  match s with
  | EmptyString => None
  | String c _ =>
      match digit c with
      | None => None
      | Some _ =>
          match digits 0 1 s with
          | Some (n, _, EmptyString) => Some (inject_Z n)
          | Some (n, _, String "." frac) =>
              match digits n 1 frac with
              | Some (m, scale, EmptyString) => Some (Qmake m scale)
              | _ => None
              end
          | _ => None
          end
      end
  end.

Definition decimal (s : string) : option Q :=
  match s with
  | String "-" s' => option_map Qopp (unsigned_decimal s')
  | String "+" s' => unsigned_decimal s'
  | _ => unsigned_decimal s
  end.

(** ** Log files *)

(** A data row as [csv.DictReader] yields it: column name to field. *)
Definition row : Type := Py.dict string.

(** The fields of one line; an empty line has none.  Quoting is not
    modelled: the logs hold plain numbers and labels. *)
Definition csv_fields (line : string) : list string :=
  match line with
  | EmptyString => []
  | _ => Py.split line ","
  end.

(** [dict(zip(fieldnames, fields))].  (A line shorter than the header is
    padded with [None] by the reader; here the padded columns are left out,
    so that reading one still raises.) *)
Definition zip_row (fieldnames fields : list string) : row :=
  fold_left (fun d kv => Py.set (fst kv) (snd kv) d) (combine fieldnames fields) [].

Definition not_comment (x : string) : bool := negb (Py.startswith x "#").

(** [csv.DictReader(filter(lambda x: not x.startswith('#'), f))]: the first
    remaining line names the columns, empty lines are skipped. *)
Definition DictReader (f : list string) : list row :=
  match filter not_comment f with
  | [] => []
  | header :: data =>
      let fieldnames := csv_fields header in
      map (zip_row fieldnames)
          (filter (fun fields => negb (Nat.eqb (List.length fields) 0))
                  (map csv_fields data))
  end.

Record header_info : Type := {
  version : string;
  started : string
}.

Fixpoint parse_header_lines (info : header_info) (f : list string) : header_info :=
  match f with
  | [] => info
  | line :: rest =>
      if Py.startswith line "# Phoenix SDR" then
        match Py.split line " v" with
        | _ :: part :: _ =>
            parse_header_lines
              {| version := "v" ++ Py.strip part; started := started info |} rest
        | _ => parse_header_lines info rest
        end
      else if Py.startswith line "# Started:" then
        parse_header_lines
          {| version := version info;
             started := Py.strip (Py.remove line "# Started:") |} rest
      else if negb (Py.startswith line "#") then info
      else parse_header_lines info rest
  end.

Definition parse_header (f : list string) : header_info :=
  parse_header_lines {| version := "unknown"; started := "unknown" |} f.

(** ** The results of the analyzers *)

(** A marker tuple [(name, timestamp, duration)]. *)
Definition marker : Type := string * Q * Q.

Definition m_name (m : marker) : string := fst (fst m).
Definition m_time (m : marker) : Q := snd (fst m).
Definition m_dur (m : marker) : Q := snd m.

(** The dict of [analyze_sync]; the early return leaves three keys out. *)
Record sync_dict : Type := {
  sync_info : header_info;
  sync_count : nat;
  sync_states : Py.dict nat;
  sync_intervals : list Q;
  sync_first_locked : option (option nat);
  sync_avg_delta_ms : option Q;
  sync_missed : option nat
}.

(** The dict of [analyze_ticks]; the early return leaves two keys out. *)
Record ticks_dict : Type := {
  ticks_info : header_info;
  tick_count : nat;
  marker_count : nat;
  good_interval_pct : option Q;
  mean_interval_ms : option Q;
  ticks_markers : list marker
}.

Record markers_dict : Type := {
  markers_info : header_info;
  markers_count : nat;
  markers_markers : list marker
}.

(** One bucket [{'total': t, 'match': m}] of the subcarrier log. *)
Record bucket : Type := {
  b_total : nat;
  b_match : nat
}.

Record subcarrier_dict : Type := {
  sub_info : header_info;
  sub_total : nat;
  sub_matches : nat;
  sub_match_pct : Q;
  sub_by_expected : Py.dict bucket
}.

Record channel_dict : Type := {
  channel_info : header_info;
  channel_quality : Py.dict nat;
  snr_min : Q;
  snr_max : Q;
  snr_avg : Q
}.

(** [d[name]] on a key that a return statement may have left out. *)
Definition key {A : Type} (name : string) (slot : option A) : result A :=
  match slot with
  | Some a => Ok a
  | None => Raise (KeyError name)
  end.

(** ** The analyzers *)

Section Analyzers.

(** [float(s)] *)
Variable float : string -> option Q.

(** The files of the directory: [None] when [os.path.exists] is false. *)
Variable read : string -> option (list string).

Definition py_float (s : string) : result Q :=
  match float s with
  | Some q => Ok q
  | None => Raise (ValueError s)
  end.

(** [float(r[column])] *)
Definition float_of (r : row) (column : string) : result Q :=
  s <- Py.getitem r column ;; py_float s.

(** *** analyze_sync *)

Fixpoint sync_rows (markers : list row) (states : Py.dict nat) (reader : list row)
  : result (list row * Py.dict nat) :=
  match reader with
  | [] => Ok (markers, states)
  | r :: rest =>
      state <- Py.getitem r "state" ;;
      sync_rows (markers ++ [r]) (Py.incr state states) rest
  end.

Fixpoint sync_intervals_of (intervals : list Q) (markers : list row) : result (list Q) :=
  match markers with
  | [] => Ok intervals
  | m :: rest =>
      interval <- float_of m "interval_sec" ;;
      sync_intervals_of
        (if Py.lt 0 interval then intervals ++ [interval] else intervals) rest
  end.

(** [next((i+1 for i, m in enumerate(markers) if m['state'] == 'LOCKED'), None)] *)
Fixpoint first_locked (i : nat) (markers : list row) : result (option nat) :=
  match markers with
  | [] => Ok None
  | m :: rest =>
      state <- Py.getitem m "state" ;;
      if state =? "LOCKED" then Ok (Some (i + 1)%nat) else first_locked (S i) rest
  end.

(** [sum(float(m['delta_ms']) for m in markers)] *)
Fixpoint sum_delta_ms (acc : Q) (markers : list row) : result Q :=
  match markers with
  | [] => Ok acc
  | m :: rest =>
      d <- float_of m "delta_ms" ;; sum_delta_ms (acc + d)%Q rest
  end.

Definition missed (intervals : list Q) : nat :=
  List.length (filter (fun i => Py.lt 90 i) intervals).

Definition analyze_sync_rows (info : header_info) (reader : list row)
  : result sync_dict :=
  '(markers, states) <- sync_rows [] [] reader ;;
  match markers with
  | [] =>
      Ok {| sync_info := info; sync_count := 0; sync_states := [];
            sync_intervals := []; sync_first_locked := None;
            sync_avg_delta_ms := None; sync_missed := None |}
  | _ =>
      intervals <- sync_intervals_of [] markers ;;
      locked <- first_locked 0 markers ;;
      total <- sum_delta_ms 0 markers ;;
      Ok {| sync_info := info; sync_count := List.length markers;
            sync_states := states; sync_intervals := intervals;
            sync_first_locked := Some locked;
            sync_avg_delta_ms := Some (total / Py.len markers)%Q;
            sync_missed := Some (missed intervals) |}
  end.

Definition analyze_sync (filepath : string) : result (option sync_dict) :=
  match read filepath with
  | None => Ok None
  | Some f =>
      d <- analyze_sync_rows (parse_header f) (DictReader f) ;; Ok (Some d)
  end.

(** *** analyze_ticks *)

Definition is_sentinel (tick_num : string) : bool :=
  (tick_num =? "META") || (tick_num =? "GAIN").

(** The classification loop: [(ticks, markers)]. *)
Fixpoint tick_rows (ticks markers : list row) (reader : list row)
  : result (list row * list row) :=
  match reader with
  | [] => Ok (ticks, markers)
  | r :: rest =>
      tick_num <- Py.getitem r "tick_num" ;;
      if Py.startswith tick_num "M" then tick_rows ticks (markers ++ [r]) rest
      else if negb (is_sentinel tick_num) then tick_rows (ticks ++ [r]) markers rest
      else tick_rows ticks markers rest
  end.

(** [500 < interval < 10000] *)
Definition valid_interval (interval : Q) : bool :=
  Py.lt 500 interval && Py.lt interval 10000.

(** [900 <= i <= 1100] *)
Definition good_interval (i : Q) : bool :=
  Py.le 900 i && Py.le i 1100.

(** The interval loop; the bare [except] swallows every exception. *)
Fixpoint tick_intervals (intervals : list Q) (ticks : list row) : list Q :=
  match ticks with
  | [] => intervals
  | t :: rest =>
      match float_of t "interval_ms" with
      | Ok interval =>
          tick_intervals
            (if valid_interval interval then intervals ++ [interval] else intervals)
            rest
      | Raise _ => tick_intervals intervals rest
      end
  end.

(** [[(m[id], float(m['timestamp_ms']), float(m['duration_ms'])) for m in markers]] *)
Fixpoint marker_tuples (id : string) (markers : list row) : result (list marker) :=
  match markers with
  | [] => Ok []
  | m :: rest =>
      name <- Py.getitem m id ;;
      timestamp <- float_of m "timestamp_ms" ;;
      duration <- float_of m "duration_ms" ;;
      tuples <- marker_tuples id rest ;;
      Ok ((name, timestamp, duration) :: tuples)
  end.

Definition analyze_ticks_rows (info : header_info) (reader : list row)
  : result ticks_dict :=
  '(ticks, markers) <- tick_rows [] [] reader ;;
  match ticks with
  | [] =>
      Ok {| ticks_info := info; tick_count := 0;
            marker_count := List.length markers;
            good_interval_pct := None; mean_interval_ms := None;
            ticks_markers := [] |}
  | _ =>
      let intervals := tick_intervals [] ticks in
      let good_intervals := filter good_interval intervals in
      let pct :=
        match intervals with
        | [] => 0%Q
        | _ => (100 * Py.len good_intervals / Py.len intervals)%Q
        end in
      let mean :=
        match intervals with
        | [] => 0%Q
        | _ => (Py.sum intervals / Py.len intervals)%Q
        end in
      tuples <- marker_tuples "tick_num" markers ;;
      Ok {| ticks_info := info; tick_count := List.length ticks;
            marker_count := List.length markers;
            good_interval_pct := Some pct; mean_interval_ms := Some mean;
            ticks_markers := tuples |}
  end.

Definition analyze_ticks (filepath : string) : result (option ticks_dict) :=
  match read filepath with
  | None => Ok None
  | Some f =>
      d <- analyze_ticks_rows (parse_header f) (DictReader f) ;; Ok (Some d)
  end.

(** *** analyze_markers *)

Fixpoint marker_rows (markers : list row) (reader : list row) : result (list row) :=
  match reader with
  | [] => Ok markers
  | r :: rest =>
      marker_num <- Py.getitem r "marker_num" ;;
      if Py.startswith marker_num "M" then marker_rows (markers ++ [r]) rest
      else marker_rows markers rest
  end.

Definition analyze_markers_rows (info : header_info) (reader : list row)
  : result markers_dict :=
  markers <- marker_rows [] reader ;;
  tuples <- marker_tuples "marker_num" markers ;;
  Ok {| markers_info := info; markers_count := List.length markers;
        markers_markers := tuples |}.

Definition analyze_markers (filepath : string) : result (option markers_dict) :=
  match read filepath with
  | None => Ok None
  | Some f =>
      d <- analyze_markers_rows (parse_header f) (DictReader f) ;; Ok (Some d)
  end.

(** *** analyze_subcarrier *)

Definition empty_bucket : bucket := {| b_total := 0; b_match := 0 |}.

(** [by_expected[expected]] on the [defaultdict] *)
Definition bucket_of (by_expected : Py.dict bucket) (expected : string) : bucket :=
  match Py.get by_expected expected with
  | Some b => b
  | None => empty_bucket
  end.

Fixpoint subcarrier_rows (total matches : nat) (by_expected : Py.dict bucket)
         (reader : list row) : result (nat * nat * Py.dict bucket) :=
  match reader with
  | [] => Ok (total, matches, by_expected)
  | r :: rest =>
      let total := S total in
      expected <- Py.getitem r "expected" ;;
      matched <- Py.getitem r "match" ;;
      let b := bucket_of by_expected expected in
      let by_expected :=
        Py.set expected {| b_total := S (b_total b); b_match := b_match b |}
               by_expected in
      if matched =? "YES" then
        let b := bucket_of by_expected expected in
        subcarrier_rows total (S matches)
          (Py.set expected {| b_total := b_total b; b_match := S (b_match b) |}
                  by_expected) rest
      else subcarrier_rows total matches by_expected rest
  end.

Definition analyze_subcarrier_rows (info : header_info) (reader : list row)
  : result subcarrier_dict :=
  '(total, matches, by_expected) <- subcarrier_rows 0 0 [] reader ;;
  Ok {| sub_info := info; sub_total := total; sub_matches := matches;
        sub_match_pct :=
          match total with
          | O => 0%Q
          | _ => (100 * inject_Z (Z.of_nat matches) / inject_Z (Z.of_nat total))%Q
          end;
        sub_by_expected := by_expected |}.

Definition analyze_subcarrier (filepath : string) : result (option subcarrier_dict) :=
  match read filepath with
  | None => Ok None
  | Some f =>
      d <- analyze_subcarrier_rows (parse_header f) (DictReader f) ;; Ok (Some d)
  end.

(** *** analyze_channel *)

(** The loop; the [try] covers both statements of its body, so the count
    of the label is kept when the float that follows fails. *)
Fixpoint channel_rows (quality_counts : Py.dict nat) (snr_values : list Q)
         (reader : list row) : Py.dict nat * list Q :=
  match reader with
  | [] => (quality_counts, snr_values)
  | r :: rest =>
      match Py.getitem r "quality" with
      | Raise _ => channel_rows quality_counts snr_values rest
      | Ok quality =>
          let quality_counts := Py.incr quality quality_counts in
          match float_of r "snr_db" with
          | Raise _ => channel_rows quality_counts snr_values rest
          | Ok snr => channel_rows quality_counts (snr_values ++ [snr]) rest
          end
      end
  end.

Definition analyze_channel_rows (info : header_info) (reader : list row)
  : channel_dict :=
  let '(quality_counts, snr_values) := channel_rows [] [] reader in
  {| channel_info := info; channel_quality := quality_counts;
     snr_min := match snr_values with [] => 0%Q | x :: l => Py.min x l end;
     snr_max := match snr_values with [] => 0%Q | x :: l => Py.max x l end;
     snr_avg :=
       match snr_values with
       | [] => 0%Q
       | _ => (Py.sum snr_values / Py.len snr_values)%Q
       end |}.

Definition analyze_channel (filepath : string) : result (option channel_dict) :=
  match read filepath with
  | None => Ok None
  | Some f => Ok (Some (analyze_channel_rows (parse_header f) (DictReader f)))
  end.

End Analyzers.

(** ** The log locator (first part of print_report) *)

Inductive category : Type := Sync | Ticks | Markers | Subcarrier | Channel.

Definition category_eqb (a b : category) : bool :=
  match a, b with
  | Sync, Sync | Ticks, Ticks | Markers, Markers
  | Subcarrier, Subcarrier | Channel, Channel => true
  | _, _ => false
  end.

(** The [if]/[elif] chain on the file name. *)
Definition classify (f : string) : option category :=
  if Py.contains "sync" f then Some Sync
  else if Py.contains "ticks" f then Some Ticks
  else if Py.contains "markers" f then Some Markers
  else if Py.contains "subcarrier" f then Some Subcarrier
  else if Py.contains "channel" f then Some Channel
  else None.

(** [os.path.join(base_path, f)] *)
Definition path_join (base_path f : string) : string :=
  if Py.startswith f "/" then f
  else if (base_path =? "") || Py.endswith base_path "/" then base_path ++ f
  else base_path ++ "/" ++ f.

Section Locator.

(** [os.listdir(base_path)] and [os.path.getmtime]. *)
Variable listdir : list string.
Variable getmtime : string -> Q.
Variable base_path : string.

(** [candidates[key]] after the loop over the directory. *)
Fixpoint candidates_of (key : category) (names : list string) : list (Q * string) :=
  match names with
  | [] => []
  | f :: rest =>
      if negb (Py.endswith f ".csv") then candidates_of key rest
      else
        let full_path := path_join base_path f in
        let mtime := getmtime full_path in
        match classify f with
        | Some c =>
            if category_eqb c key then (mtime, full_path) :: candidates_of key rest
            else candidates_of key rest
        | None => candidates_of key rest
        end
  end.

Definition candidates (key : category) : list (Q * string) :=
  candidates_of key listdir.

(** [files[key]] after "Pick most recent of each type". *)
Definition files (key : category) : option string :=
  match candidates key with
  | [] => None
  | c =>
      match Py.sort_reverse c with
      | (_, full_path) :: _ => Some full_path
      | [] => None
      end
  end.

End Locator.

(** ** The report *)

Inductive line : Type :=
| Rule
| Title
| SyncHeading (version : string)
| SyncStarted (started : string)
| SyncConfirmed (count : nat)
| SyncStates (states : Py.dict nat)
| SyncFirstLocked (n : nat)
| SyncAvgDelta (avg_delta_ms : Q)
| SyncMissed (missed : nat)
| SyncRange (lo hi : Q)
| TickHeading
| TickCount (n : nat)
| TickMarkers (n : nat)
| TickGood (pct : Q)
| TickMean (mean : Q)
| MarkerHeading
| MarkerCount (n : nat)
| CorrHeading
| CorrPair (t_name m_name : string) (best_delta : Q)
| CorrTickOnly (t_name : string) (t_time : Q)
| CorrMore (n : Z)
| CorrSummary (correlated tick_only : nat) (marker_only : Z)
| CorrSync (count : nat)
| ChannelHeading
| ChannelQuality (quality : Py.dict nat)
| ChannelRange (lo hi : Q)
| ChannelAvg (avg : Q)
| SubHeading
| SubTotal (n : nat)
| SubRate (pct : Q)
| SubBucket (exp : string) (matched total : nat) (pct : Q)
| EndRule.

(** ** The correlation matcher (the loop of print_report) *)

Definition display_limit : nat := 20.

(** The variables of the loop, and the lines it has printed. *)
Record matcher : Type := {
  correlated : nat;
  tick_only : nat;
  used_markers : set nat;
  displayed : nat;
  printed : list line
}.

Definition matcher_start : matcher :=
  {| correlated := 0; tick_only := 0; used_markers := empty_set nat;
     displayed := 0; printed := [] |}.

(** [abs(t_time - m_time)] *)
Definition delta (t_time : Q) (m : marker) : Q := Qabs (t_time - m_time m).

(** The inner loop over [enumerate(marker_list)]. *)
Fixpoint scan (used : set nat) (t_time : Q)
         (best_match : option (nat * marker)) (best_delta : Q)
         (ms : list (nat * marker)) : option (nat * marker) * Q :=
  match ms with
  | [] => (best_match, best_delta)
  | (i, m) :: rest =>
      if set_mem Nat.eq_dec i used then scan used t_time best_match best_delta rest
      else if Py.lt (delta t_time m) best_delta
           then scan used t_time (Some (i, m)) (delta t_time m) rest
           else scan used t_time best_match best_delta rest
  end.

Definition closest (used : set nat) (marker_list : list marker) (t_time : Q)
  : option (nat * marker) * Q :=
  scan used t_time None 1500 (Py.enumerate 0 marker_list).

(** One turn of the outer loop. *)
Definition match_tick (marker_list : list marker) (st : matcher) (t : marker) : matcher :=
  let show := (displayed st <? display_limit)%nat in
  match closest (used_markers st) marker_list (m_time t) with
  | (Some (i, m), best_delta) =>
      {| correlated := S (correlated st);
         tick_only := tick_only st;
         used_markers := set_add Nat.eq_dec i (used_markers st);
         displayed := if show then S (displayed st) else displayed st;
         printed :=
           if show then printed st ++ [CorrPair (m_name t) (m_name m) best_delta]
           else printed st |}
  | (None, _) =>
      {| correlated := correlated st;
         tick_only := S (tick_only st);
         used_markers := used_markers st;
         displayed := if show then S (displayed st) else displayed st;
         printed :=
           if show then printed st ++ [CorrTickOnly (m_name t) (m_time t)]
           else printed st |}
  end.

Definition match_ticks (marker_list tick_list : list marker) (st : matcher) : matcher :=
  fold_left (match_tick marker_list) tick_list st.

(** [len(marker_list) - len(used_markers)] *)
Definition marker_only (marker_list : list marker) (st : matcher) : Z :=
  Z.of_nat (List.length marker_list) - Z.of_nat (List.length (used_markers st)).

(** The whole correlation check on the two marker lists of the analyzers. *)
Definition correlate (ticks_m markers_m : list marker) : matcher :=
  let tick_list := Py.sorted m_time ticks_m in
  let marker_list := Py.sorted m_time markers_m in
  match_ticks marker_list tick_list matcher_start.

(** ** print_report *)

(** A computation that prints and may raise: the output so far is threaded
    through, and kept when an exception ends the run. *)
Definition io (A : Type) : Type := list line -> list line * result A.

#[export] Instance io_monad : Monad io := {
  ret := fun A a out => (out, Ok a);
  bind := fun A B c k out =>
    match c out with
    | (out', Ok a) => k a out'
    | (out', Raise e) => (out', Raise e)
    end
}.

Definition print (l : line) : io unit := fun out => ((out ++ [l])%list, Ok tt).

Definition print_all (ls : list line) : io unit := fun out => ((out ++ ls)%list, Ok tt).

Definition lift {A : Type} (r : result A) : io A := fun out => (out, r).

Definition when (b : bool) (c : io unit) : io unit := if b then c else ret tt.

(** [analyze(files[key]) if files[key] else None] *)
Definition analyze_if {A : Type} (analyze : string -> result (option A))
           (file : option string) : io (option A) :=
  match file with
  | Some filepath => lift (analyze filepath)
  | None => ret None
  end.

Definition print_sync (sync : option sync_dict) : io unit :=
  match sync with
  | None => ret tt
  | Some d =>
      print (SyncHeading (version (sync_info d))) ;;;
      print (SyncStarted (started (sync_info d))) ;;;
      print (SyncConfirmed (sync_count d)) ;;;
      print (SyncStates (sync_states d)) ;;;
      locked <- lift (key "first_locked" (sync_first_locked d)) ;;
      match locked with
      | Some (S n) => print (SyncFirstLocked (S n))
      | _ => ret tt
      end ;;;
      when (0 <? sync_count d)%nat
           (avg <- lift (key "avg_delta_ms" (sync_avg_delta_ms d)) ;;
            print (SyncAvgDelta avg)) ;;;
      n <- lift (key "missed" (sync_missed d)) ;;
      print (SyncMissed n) ;;;
      match sync_intervals d with
      | [] => ret tt
      | x :: l => print (SyncRange (Py.min x l) (Py.max x l))
      end
  end.

Definition print_ticks (ticks : option ticks_dict) : io unit :=
  match ticks with
  | None => ret tt
  | Some d =>
      print TickHeading ;;;
      print (TickCount (tick_count d)) ;;;
      print (TickMarkers (marker_count d)) ;;;
      pct <- lift (key "good_interval_pct" (good_interval_pct d)) ;;
      print (TickGood pct) ;;;
      mean <- lift (key "mean_interval_ms" (mean_interval_ms d)) ;;
      print (TickMean mean)
  end.

Definition print_markers (markers : option markers_dict) : io unit :=
  match markers with
  | None => ret tt
  | Some d =>
      print MarkerHeading ;;;
      print (MarkerCount (markers_count d))
  end.

(** [ticks and markers and ticks['markers'] and markers['markers']] *)
Definition correlation_wanted (ticks : option ticks_dict) (markers : option markers_dict)
  : bool :=
  match ticks, markers with
  | Some t, Some m =>
      negb (Nat.eqb (List.length (ticks_markers t)) 0)
      && negb (Nat.eqb (List.length (markers_markers m)) 0)
  | _, _ => false
  end.

Definition print_correlation (sync : option sync_dict) (ticks : option ticks_dict)
           (markers : option markers_dict) : io unit :=
  match ticks, markers with
  | Some t, Some m =>
      when (correlation_wanted ticks markers)
           (print CorrHeading ;;;
            let tick_list := Py.sorted m_time (ticks_markers t) in
            let marker_list := Py.sorted m_time (markers_markers m) in
            let st := match_ticks marker_list tick_list matcher_start in
            print_all (printed st) ;;;
            when (display_limit <=? displayed st)%nat
                 (print (CorrMore (Z.of_nat (List.length tick_list)
                                   - Z.of_nat display_limit))) ;;;
            print (CorrSummary (correlated st) (tick_only st)
                               (marker_only marker_list st)) ;;;
            match sync with
            | Some s => print (CorrSync (sync_count s))
            | None => ret tt
            end)
  | _, _ => ret tt
  end.

Definition print_channel (channel : option channel_dict) : io unit :=
  match channel with
  | None => ret tt
  | Some d =>
      print ChannelHeading ;;;
      print (ChannelQuality (channel_quality d)) ;;;
      print (ChannelRange (snr_min d) (snr_max d)) ;;;
      print (ChannelAvg (snr_avg d))
  end.

Definition bucket_line (item : string * bucket) : line :=
  let '(exp, counts) := item in
  let pct :=
    match b_total counts with
    | O => 0%Q
    | _ => (100 * inject_Z (Z.of_nat (b_match counts))
            / inject_Z (Z.of_nat (b_total counts)))%Q
    end in
  SubBucket exp (b_match counts) (b_total counts) pct.

Definition print_subcarrier (sub : option subcarrier_dict) : io unit :=
  match sub with
  | None => ret tt
  | Some d =>
      print SubHeading ;;;
      print (SubTotal (sub_total d)) ;;;
      print (SubRate (sub_match_pct d)) ;;;
      print_all (map bucket_line (sub_by_expected d))
  end.

Section Report.

Variable float : string -> option Q.
Variable read : string -> option (list string).
Variable listdir : list string.
Variable getmtime : string -> Q.

(** The body of [print_report], from the files picked by the locator. *)
Definition report_of (files : category -> option string) : io unit :=
  print Rule ;;; print Title ;;; print Rule ;;;
  sync <- analyze_if (analyze_sync float read) (files Sync) ;;
  print_sync sync ;;;
  ticks <- analyze_if (analyze_ticks float read) (files Ticks) ;;
  print_ticks ticks ;;;
  markers <- analyze_if (analyze_markers float read) (files Markers) ;;
  print_markers markers ;;;
  print_correlation sync ticks markers ;;;
  channel <- analyze_if (analyze_channel float read) (files Channel) ;;
  print_channel channel ;;;
  sub <- analyze_if (analyze_subcarrier read) (files Subcarrier) ;;
  print_subcarrier sub ;;;
  print EndRule.

Definition print_report (base_path : string) : list line * result unit :=
  report_of (files listdir getmtime base_path) [].

End Report.

(** The status of the process: an uncaught exception ends it with 1. *)
Definition exit_status (run : list line * result unit) : Z :=
  match snd run with
  | Ok _ => 0
  | Raise _ => 1
  end.

(** ** Notions used in the statements *)

(** The pairs chosen by the outer loop, one for each turn that found a
    [best_match]: the position of the tick-marker in [tick_list] (counted
    from [k]) and the index of the marker in [marker_list]. *)
Fixpoint pairs (marker_list : list marker) (st : matcher) (k : nat)
         (tick_list : list marker) : list (nat * nat) :=
  match tick_list with
  | [] => []
  | t :: rest =>
      let next := pairs marker_list (match_tick marker_list st t) (S k) rest in
      match fst (closest (used_markers st) marker_list (m_time t)) with
      | Some (i, _) => (k, i) :: next
      | None => next
      end
  end.

(** What the inner loop has established once the markers of index below [n]
    are behind it: [best_delta] is within the window and below the delta of
    every unused marker seen, and [best_match] is the first unused marker
    that attains it. *)
Definition scanned (used : set nat) (t_time : Q) (marker_list : list marker)
           (n : nat) (best_match : option (nat * marker)) (best_delta : Q) : Prop :=
  (best_delta <= 1500)%Q /\
  (forall j m', (j < n)%nat -> nth_error marker_list j = Some m' ->
                ~ In j used -> (best_delta <= delta t_time m')%Q) /\
  match best_match with
  | None => best_delta = 1500%Q
  | Some (i, m) =>
      (i < n)%nat /\ nth_error marker_list i = Some m /\ ~ In i used /\
      best_delta = delta t_time m /\ (best_delta < 1500)%Q /\
      forall j m', (j < i)%nat -> nth_error marker_list j = Some m' ->
                   ~ In j used -> (best_delta < delta t_time m')%Q
  end.

(** The labels of a list in the order of their first occurrence. *)
Fixpoint first_seen (labels : list string) : list string :=
  match labels with
  | [] => []
  | x :: rest => x :: filter (fun y => negb (y =? x)) (first_seen rest)
  end.

(** The keys of a counting dict once the label [k] has been counted. *)
Definition add_label (keys : list string) (k : string) : list string :=
  if existsb (String.eqb k) keys then keys else keys ++ [k].

(** The fields of a column, over the rows that have it. *)
Definition column (name : string) (reader : list row) : list string :=
  flat_map (fun r => match Py.get r name with Some v => [v] | None => [] end) reader.

(** The count of a label in a histogram, 0 when the label is absent. *)
Definition count_of (d : Py.dict nat) (k : string) : nat :=
  match Py.get d k with
  | Some n => n
  | None => 0
  end.

(** ** Example directories *)

Module Examples.

Definition mtime_1 (_ : string) : Q := 1.

(** A tick log whose first row carries the sentinel META. *)
Definition meta_ticks : list string :=
  [ "# Phoenix SDR v1.0";
    "tick_num,timestamp_ms,interval_ms,duration_ms";
    "META,0,0,0";
    "GAIN,0,0,0";
    "1,1000,1000,5" ].

Definition meta_dir (p : string) : option (list string) :=
  if p =? "./ticks.csv" then Some meta_ticks else None.

(** A sync log with its header row and no data row. *)
Definition empty_sync_dir (p : string) : option (list string) :=
  if p =? "./sync_log.csv"
  then Some ["# Phoenix SDR v1.0"; "state,interval_sec,delta_ms"]
  else None.

(** A sync log whose interval is not a number. *)
Definition bad_sync_dir (p : string) : option (list string) :=
  if p =? "./sync_log.csv"
  then Some ["state,interval_sec,delta_ms"; "LOCKED,n/a,3"]
  else None.

(** A tick log with a marker row and no tick row, next to a marker log. *)
Definition markers_only_dir (p : string) : option (list string) :=
  if p =? "./ticks.csv"
  then Some ["tick_num,timestamp_ms,interval_ms,duration_ms"; "M1,1000,0,800"]
  else if p =? "./markers.csv"
  then Some ["marker_num,timestamp_ms,duration_ms"; "M1,1050,800"]
  else None.

(** The same with one tick row. *)
Definition markers_and_tick_dir (p : string) : option (list string) :=
  if p =? "./ticks.csv"
  then Some ["tick_num,timestamp_ms,interval_ms,duration_ms";
             "M1,1000,0,800"; "1,2000,1000,5"]
  else if p =? "./markers.csv"
  then Some ["marker_num,timestamp_ms,duration_ms"; "M1,1050,800"]
  else None.

Definition tick_row (tick_num interval_ms : string) : row :=
  [("tick_num", tick_num); ("timestamp_ms", "0");
   ("interval_ms", interval_ms); ("duration_ms", "5")].

Definition channel_row (quality snr_db : string) : row :=
  [("quality", quality); ("snr_db", snr_db)].

Definition no_info : header_info := {| version := "unknown"; started := "unknown" |}.

(** The result of the tick analyzer on a good tick row followed by one
    whose interval is not a number, and on the good row alone. *)
Definition with_bad_tick : ticks_dict :=
  {| ticks_info := no_info; tick_count := 2; marker_count := 0;
     good_interval_pct := Some 100%Q; mean_interval_ms := Some 1000%Q;
     ticks_markers := [] |}.

Definition without_bad_tick : ticks_dict :=
  {| ticks_info := no_info; tick_count := 1; marker_count := 0;
     good_interval_pct := Some 100%Q; mean_interval_ms := Some 1000%Q;
     ticks_markers := [] |}.

(** The marker lists of the scenario of the correlation check. *)
Definition scenario_ticks : list marker := [("M1", 1000%Q, 800%Q); ("M2", 62000%Q, 800%Q)].
Definition scenario_markers : list marker := [("M1", 1050%Q, 800%Q); ("M2", 70000%Q, 800%Q)].

End Examples.

(** ** Further notions used in the statements *)

(** The sum of a measure over the values of a dict. *)
Definition dict_sum {V : Type} (f : V -> nat) (d : Py.dict V) : nat :=
  list_sum (map (fun kv => f (snd kv)) d).

(** A bucket that has been touched holds a row, and no more matches than
    rows. *)
Definition bucket_ok (b : bucket) : Prop :=
  (1 <= b_total b)%nat /\ (b_match b <= b_total b)%nat.

(** The rows of a tick log by their identifier: minute-markers, skipped
    rows and ticks, as the classification loop tells them apart. *)
Definition is_marker_id (tick_num : string) : bool := Py.startswith tick_num "M".

Definition is_skipped_id (tick_num : string) : bool :=
  negb (Py.startswith tick_num "M") && is_sentinel tick_num.

Definition is_tick_id (tick_num : string) : bool :=
  negb (Py.startswith tick_num "M") && negb (is_sentinel tick_num).

(** The rows that the classification loop of the tick analyzer files as
    ticks, and the intervals that [float] reads in them, in the order of
    the log. *)
Definition is_tick_row (r : row) : bool :=
  match Py.get r "tick_num" with
  | Some tick_num => is_tick_id tick_num
  | None => false
  end.

Definition interval_ms_of (float : string -> option Q) (r : row) : list Q :=
  match float_of float r "interval_ms" with
  | Ok interval => [interval]
  | Raise _ => []
  end.

Definition parsed_tick_intervals (float : string -> option Q) (reader : list row)
  : list Q :=
  flat_map (interval_ms_of float) (filter is_tick_row reader).

(** * The arithmetic on doubles

    The analyzers above read a Python float as an exact number.  The
    correlation check of [print_report] subtracts two timestamps, which
    rounds, and orders them by comparisons that are all false on a NaN, as
    do [min] and [max] in the channel analyzer; both are embedded here a
    second time on binary64 values.  The two lists of the correlation check
    are the [markers] entries of the tick and the marker analyzer. *)

Module Double.

Import PrimFloat.

(** [(name, timestamp, duration)] *)
Definition marker : Type := string * float * float.

Definition m_name (m : marker) : string := fst (fst m).
Definition m_time (m : marker) : float := snd (fst m).
Definition m_dur (m : marker) : float := snd m.

(** [sorted(l, key=lambda x: x[1])]: a stable sort that compares the keys
    with [<] only.  Without a NaN among the keys its result is the one
    stable ascending order; with one, what [sorted] leaves depends on the
    runs it merges and is not what this insertion gives. *)
Definition sorted (l : list marker) : list marker :=
  Py.sort_by (fun y x => (m_time y <? m_time x)%float) l.

Inductive line : Type :=
| CorrHeading
| CorrPair (t_name m_name : string) (best_delta : float)
| CorrTickOnly (t_name : string) (t_time : float)
| CorrMore (n : Z)
| CorrSummary (correlated tick_only : nat) (marker_only : Z)
| CorrSync (count : nat).

(** The variables of the loop, and the lines it has printed. *)
Record matcher : Type := {
  correlated : nat;
  tick_only : nat;
  used_markers : set nat;
  displayed : nat;
  printed : list line
}.

Definition matcher_start : matcher :=
  {| correlated := 0; tick_only := 0; used_markers := empty_set nat;
     displayed := 0; printed := [] |}.

(** [best_delta = 1500] *)
Definition window : float := 1500%float.

(** [abs(t_time - m_time)] *)
Definition delta (t_time : float) (m : marker) : float :=
  abs (t_time - m_time m)%float.

(** The inner loop over [enumerate(marker_list)]. *)
Fixpoint scan (used : set nat) (t_time : float)
         (best_match : option (nat * marker)) (best_delta : float)
         (ms : list (nat * marker)) : option (nat * marker) * float :=
  match ms with
  | [] => (best_match, best_delta)
  | (i, m) :: rest =>
      if set_mem Nat.eq_dec i used then scan used t_time best_match best_delta rest
      else if (delta t_time m <? best_delta)%float
           then scan used t_time (Some (i, m)) (delta t_time m) rest
           else scan used t_time best_match best_delta rest
  end.

Definition closest (used : set nat) (marker_list : list marker) (t_time : float)
  : option (nat * marker) * float :=
  scan used t_time None window (Py.enumerate 0 marker_list).

(** One turn of the outer loop. *)
Definition match_tick (marker_list : list marker) (st : matcher) (t : marker) : matcher :=
  let show := (displayed st <? display_limit)%nat in
  match closest (used_markers st) marker_list (m_time t) with
  | (Some (i, m), best_delta) =>
      {| correlated := S (correlated st);
         tick_only := tick_only st;
         used_markers := set_add Nat.eq_dec i (used_markers st);
         displayed := if show then S (displayed st) else displayed st;
         printed :=
           if show
           then (printed st ++ [CorrPair (m_name t) (m_name m) best_delta])%list
           else printed st |}
  | (None, _) =>
      {| correlated := correlated st;
         tick_only := S (tick_only st);
         used_markers := used_markers st;
         displayed := if show then S (displayed st) else displayed st;
         printed :=
           if show
           then (printed st ++ [CorrTickOnly (m_name t) (m_time t)])%list
           else printed st |}
  end.

Definition match_ticks (marker_list tick_list : list marker) (st : matcher) : matcher :=
  fold_left (match_tick marker_list) tick_list st.

(** [len(marker_list) - len(used_markers)] *)
Definition marker_only (marker_list : list marker) (st : matcher) : Z :=
  Z.of_nat (List.length marker_list) - Z.of_nat (List.length (used_markers st)).

(** The correlation check of [print_report], once both analyzers have
    returned a dict: [ticks_m] and [markers_m] are [ticks['markers']] and
    [markers['markers']], and nothing is printed when one of them is
    empty. *)
Definition correlation_check (sync : option sync_dict)
           (ticks_m markers_m : list marker) : list line :=
  match ticks_m, markers_m with
  | _ :: _, _ :: _ =>
      let tick_list := sorted ticks_m in
      let marker_list := sorted markers_m in
      let st := match_ticks marker_list tick_list matcher_start in
      (CorrHeading
       :: printed st
       ++ (if (display_limit <=? displayed st)%nat
           then [CorrMore (Z.of_nat (List.length tick_list)
                           - Z.of_nat display_limit)]
           else [])
       ++ [CorrSummary (correlated st) (tick_only st)
                       (marker_only marker_list st)]
       ++ match sync with
          | Some s => [CorrSync (sync_count s)]
          | None => []
          end)%list
  | _, _ => []
  end.

(** *** analyze_channel *)

(** [min(l)] and [max(l)] on a list that is not empty: the first element
    stays until one compares below it, respectively above it. *)
Definition min (first : float) (rest : list float) : float :=
  fold_left (fun m x => if (x <? m)%float then x else m) rest first.

Definition max (first : float) (rest : list float) : float :=
  fold_left (fun m x => if (m <? x)%float then x else m) rest first.

(** [len(l)] as the divisor of a float *)
Definition len {A : Type} (l : list A) : float :=
  of_uint63 (Uint63.of_Z (Z.of_nat (List.length l))).

Record channel_dict : Type := {
  channel_info : header_info;
  channel_quality : Py.dict nat;
  snr_min : float;
  snr_max : float;
  snr_avg : float
}.

Section Channel.

(** [float(s)], which also returns the infinities and NaN; [None] is
    [ValueError]. *)
Variable float_ : string -> option float.

(** [sum(l)] on floats, whose rounding depends on the interpreter (plain
    additions from the left, compensated from Python 3.12 on). *)
Variable sum : list float -> float.

Definition py_float (s : string) : result float :=
  match float_ s with
  | Some x => Ok x
  | None => Raise (ValueError s)
  end.

(** [float(r[column])] *)
Definition float_of (r : row) (column : string) : result float :=
  s <- Py.getitem r column ;; py_float s.

(** The loop; the [try] covers both statements of its body. *)
Fixpoint channel_rows (quality_counts : Py.dict nat) (snr_values : list float)
         (reader : list row) : Py.dict nat * list float :=
  match reader with
  | [] => (quality_counts, snr_values)
  | r :: rest =>
      match Py.getitem r "quality" with
      | Raise _ => channel_rows quality_counts snr_values rest
      | Ok quality =>
          let quality_counts := Py.incr quality quality_counts in
          match float_of r "snr_db" with
          | Raise _ => channel_rows quality_counts snr_values rest
          | Ok snr => channel_rows quality_counts (snr_values ++ [snr])%list rest
          end
      end
  end.

Definition analyze_channel_rows (info : header_info) (reader : list row)
  : channel_dict :=
  let '(quality_counts, snr_values) := channel_rows [] [] reader in
  {| channel_info := info; channel_quality := quality_counts;
     snr_min := match snr_values with [] => 0%float | x :: l => min x l end;
     snr_max := match snr_values with [] => 0%float | x :: l => max x l end;
     snr_avg :=
       match snr_values with
       | [] => 0%float
       | _ => (sum snr_values / len snr_values)%float
       end |}.

End Channel.

(** *** Notions used in the statements *)

(** Ascending in the timestamp, and free of NaN. *)
Definition time_le (a b : marker) : Prop := (m_time a <=? m_time b)%float = true.

Definition no_nan (l : list marker) : Prop :=
  Forall (fun m => is_nan (m_time m) = false) l.

(** The number that a finite double stands for (0 for the others). *)
Definition exact (x : float) : Q :=
  match FloatOps.Prim2SF x with
  | SpecFloat.S754_finite s m e =>
      (inject_Z (if s then Z.neg m else Z.pos m) * Qpower 2 e)%Q
  | _ => 0%Q
  end.

(** What the inner loop has established once the markers of index below [n]
    are behind it: no unused marker seen has a delta below [best_delta],
    which is the window or the delta of [best_match], and none in front of
    [best_match] has a delta as small. *)
Definition scanned (used : set nat) (t_time : float) (marker_list : list marker)
           (n : nat) (best_match : option (nat * marker)) (best_delta : float)
  : Prop :=
  (forall j m', (j < n)%nat -> nth_error marker_list j = Some m' ->
                ~ In j used -> (delta t_time m' <? best_delta)%float = false) /\
  match best_match with
  | None => best_delta = window
  | Some (i, m) =>
      (i < n)%nat /\ nth_error marker_list i = Some m /\ ~ In i used /\
      best_delta = delta t_time m /\ (best_delta <? window)%float = true /\
      forall j m', (j < i)%nat -> nth_error marker_list j = Some m' ->
                   ~ In j used -> (delta t_time m' <=? best_delta)%float = false
  end.

(** *** Example lists *)

(** 0.1 and 1500.0999999999999: less than 1500 apart, their difference
    rounds to 1500. *)
Definition tick_0_1 : marker :=
  ("T1", 0x1.999999999999ap-4, 0x1.9p+9)%float.
Definition marker_1500_1 : marker :=
  ("M1", 0x1.7706666666666p+10, 0x1.9p+9)%float.

Definition scenario_ticks : list marker :=
  [("M2", 62000, 800); ("M1", 1000, 800)]%float.
Definition scenario_markers : list marker :=
  [("M1", 1050, 800); ("M2", 70000, 800)]%float.

(** M1 is paired with the marker 50 ms after it; the closest marker to M2
    is 8 s away. *)
Definition scenario_lines : list line :=
  [CorrHeading; CorrPair "M1" "M1" 50; CorrTickOnly "M2" 62000;
   CorrSummary 1 1 1]%float.

(** [float] on the fields of the example log, and [sum] by additions from
    the left. *)
Definition float_example (s : string) : option float :=
  if (s =? "12.5")%string then Some 12.5%float
  else if (s =? "-3.25")%string then Some (-3.25)%float
  else if (s =? "inf")%string then Some infinity
  else if (s =? "nan")%string then Some nan
  else None.

Definition sum_left (l : list float) : float :=
  fold_left PrimFloat.add l 0%float.

Definition channel_log : list row :=
  [Examples.channel_row "GOOD" "12.5"; Examples.channel_row "POOR" "-3.25";
   Examples.channel_row "GOOD" "n/a"; Examples.channel_row "GOOD" "inf"].

Definition example_min : float := (-3.25)%float.
Definition example_snr : float := 12.5%float.

End Double.

(** * The I/Q streaming test client (tools/test_iq_client.py)

    The two sockets are connected TCP sockets as their reader sees them: the
    deliveries still to come, in order, the peer closing after the last.
    Failures of the connection and of the allocation of a receive buffer
    are outside the model. *)

Module IqClient.

Local Open Scope list_scope.

Definition IQ_PORT : Z := 4536.
Definition CONTROL_PORT : Z := 4535.

Definition MAGIC_DATA : Z := 0x49514451.
Definition MAGIC_META : Z := 0x4D455441.

Definition bytes : Type := list Byte.byte.

Definition socket : Type := list bytes.

(** [s.recv(bufsize)] on a blocking socket: the next delivery, cut at
    [bufsize] bytes, the rest of it staying in the buffer; empty only when
    the peer has closed. *)
Fixpoint recv (bufsize : nat) (s : socket) : bytes * socket :=
  match s with
  | [] => ([], [])
  | [] :: rest => recv bufsize rest
  | chunk :: rest =>
      if (List.length chunk <=? bufsize)%nat then (chunk, rest)
      else (firstn bufsize chunk, skipn bufsize chunk :: rest)
  end.

(** An unsigned integer in little-endian byte order. *)
Fixpoint le_uint (b : bytes) : Z :=
  match b with
  | [] => 0
  | x :: rest => Z.of_N (Byte.to_N x) + 256 * le_uint rest
  end.

(** [struct.unpack("<II", b)]; [None] is [struct.error]. *)
Definition unpack_II (b : bytes) : option (Z * Z) :=
  if (List.length b =? 8)%nat
  then Some (le_uint (firstn 4 b), le_uint (firstn 4 (skipn 4 b)))
  else None.

(** [struct.unpack("<IIII", b)]; [None] is [struct.error]. *)
Definition unpack_IIII (b : bytes) : option (Z * Z * Z * Z) :=
  if (List.length b =? 16)%nat
  then Some (le_uint (firstn 4 b), le_uint (firstn 4 (skipn 4 b)),
             le_uint (firstn 4 (skipn 8 b)), le_uint (firstn 4 (skipn 12 b)))
  else None.

(** [freq_lo | (freq_hi << 32)] *)
Definition center_freq_of (freq_lo freq_hi : Z) : Z :=
  Z.lor freq_lo (Z.shiftl freq_hi 32).


Inductive line : Type :=
| ConnectingControl
| ConnectingIq
| ReadingHeader
| ShortHeader (n : nat)
| Magic (magic : Z) (known : bool)
| Version (version : Z)
| SampleRate (sample_rate : Z)
| SampleFormat (sample_format : Z)
| CenterFreq (center_freq : Z)
| Starting
| ControlResponse (resp : string)
| ReadingFrames
| FrameShort (i n : nat)
| FrameBadMagic (i : nat) (magic : Z)
| Frame (i : nat) (seq num_samples flags : Z) (data_len : nat)
| Stopping
| TestComplete.

(** The loop that reads the samples of one frame; [fuel] bounds its turns. *)
Fixpoint read_data (fuel data_size : nat) (data : bytes) (iq : socket)
  : bytes * socket :=
  match fuel with
  | O => (data, iq)
  | S fuel' =>
      if (List.length data <? data_size)%nat then
        match recv (data_size - List.length data) iq with
        | ([], iq') => (data, iq')
        | (chunk, iq') => read_data fuel' data_size (data ++ chunk) iq'
        end
      else (data, iq)
  end.

(** The loop over the frames, [range] being [range(5)]; [None] is
    [struct.error]. *)
Fixpoint read_frames (range : list nat) (iq : socket) (out : list line)
  : option (socket * list line) :=
  match range with
  | [] => Some (iq, out)
  | i :: rest =>
      let '(frame_hdr, iq) := recv 16 iq in
      if (List.length frame_hdr <? 16)%nat
      then Some (iq, out ++ [FrameShort i (List.length frame_hdr)])
      else
        match unpack_IIII frame_hdr with
        | None => None
        | Some (magic, seq, num_samples, flags) =>
            if negb (magic =? MAGIC_DATA)%Z
            then Some (iq, out ++ [FrameBadMagic i magic])
            else
              let data_size := Z.to_nat (num_samples * 4) in
              let '(data, iq) := read_data data_size data_size [] iq in
              read_frames rest iq
                (out ++ [Frame i seq num_samples flags (List.length data)])
        end
  end.



Section Client.

(** [resp.decode()]: the text of a reply that is valid UTF-8; [None] is
    [UnicodeDecodeError]. *)
Variable decode : bytes -> option string.



End Client.


End IqClient.

(** * Properties *)

(** ** Comparisons *)

Lemma lt_iff (x y : Q) : Py.lt x y = true <-> (x < y)%Q.
Proof.
  unfold Py.lt. rewrite negb_true_iff. split; intro H.
  - destruct (Qlt_le_dec x y) as [Hlt | Hle]; [exact Hlt |].
    apply Qle_bool_iff in Hle. congruence.
  - apply not_true_is_false. intro H'. apply Qle_bool_iff in H'.
    exact (Qlt_not_le _ _ H H').
Qed.

Lemma lt_false_iff (x y : Q) : Py.lt x y = false <-> (y <= x)%Q.
Proof.
  unfold Py.lt. rewrite negb_false_iff. apply Qle_bool_iff.
Qed.

Lemma le_iff (x y : Q) : Py.le x y = true <-> (x <= y)%Q.
Proof. apply Qle_bool_iff. Qed.

(** ** The scenarios of the design *)

Example sync_scenario :
  analyze_sync_rows decimal Examples.no_info
    [[("state", "LOCKED"); ("interval_sec", "0"); ("delta_ms", "1")];
     [("state", "LOCKED"); ("interval_sec", "95"); ("delta_ms", "1")];
     [("state", "SEARCHING"); ("interval_sec", "30"); ("delta_ms", "1")]]
  = Ok {| sync_info := Examples.no_info; sync_count := 3;
          sync_states := [("LOCKED", 2%nat); ("SEARCHING", 1%nat)];
          sync_intervals := [95%Q; 30%Q];
          sync_first_locked := Some (Some 1%nat);
          sync_avg_delta_ms := Some (3 # 3)%Q;
          sync_missed := Some 1%nat |}.
Proof. vm_compute. reflexivity. Qed.

Example subcarrier_scenario :
  analyze_subcarrier_rows Examples.no_info
    (repeat [("expected", "ON"); ("match", "YES")] 8
     ++ repeat [("expected", "ON"); ("match", "NO")] 2
     ++ repeat [("expected", "OFF"); ("match", "YES")] 5)
  = Ok {| sub_info := Examples.no_info; sub_total := 15; sub_matches := 13;
          sub_match_pct := (1300 # 15)%Q;
          sub_by_expected :=
            [("ON", {| b_total := 10; b_match := 8 |});
             ("OFF", {| b_total := 5; b_match := 5 |})] |}.
Proof. vm_compute. reflexivity. Qed.

Example locator_scenario :
  files ["sync_log.csv"; "sync_log_v2.csv"]
        (fun p => if p =? "./sync_log.csv" then 1%Q else 2%Q) "." Sync
  = Some "./sync_log_v2.csv".
Proof. vm_compute. reflexivity. Qed.

(** ** Sums and lengths *)

Lemma len_cons {A : Type} (x : A) (l : list A) :
  (Py.len (x :: l) == Py.len l + 1)%Q.
Proof.
  unfold Py.len. simpl List.length.
  rewrite Nat2Z.inj_succ, <- Z.add_1_r, inject_Z_plus. reflexivity.
Qed.

Lemma len_positive {A : Type} (x : A) (l : list A) : (0 < Py.len (x :: l))%Q.
Proof.
  unfold Py.len, Qlt, inject_Z. simpl. lia.
Qed.

Lemma sum_from_bounds (a b : Q) (l : list Q) :
  (forall x, In x l -> (a <= x /\ x <= b)%Q) ->
  forall acc : Q,
    (acc + Py.len l * a <= fold_left Qplus l acc /\
     fold_left Qplus l acc <= acc + Py.len l * b)%Q.
Proof.
  induction l as [| x l IH]; intros H acc; simpl fold_left.
  - change (Py.len (@nil Q)) with 0%Q. lra.
  - destruct (IH (fun y Hy => H y (or_intror Hy)) (acc + x)%Q) as [Hlo Hhi].
    destruct (H x (or_introl eq_refl)) as [Hax Hxb].
    pose proof (len_cons x l) as Hlen.
    split.
    + eapply Qle_trans; [| exact Hlo]. rewrite Hlen. lra.
    + eapply Qle_trans; [exact Hhi |]. rewrite Hlen. lra.
Qed.

Lemma mean_strictly_between (a b : Q) (x : Q) (l : list Q) :
  (forall y, In y (x :: l) -> (a < y /\ y < b)%Q) ->
  (a < Py.sum (x :: l) / Py.len (x :: l) /\
   Py.sum (x :: l) / Py.len (x :: l) < b)%Q.
Proof.
  intro H. unfold Py.sum. simpl fold_left.
  assert (Hl : forall y, In y l -> (a <= y /\ y <= b)%Q).
  { intros y Hy. destruct (H y (or_intror Hy)). split; apply Qlt_le_weak; assumption. }
  destruct (sum_from_bounds a b l Hl (0 + x)%Q) as [Hlo Hhi].
  destruct (H x (or_introl eq_refl)) as [Hax Hxb].
  pose proof (len_positive x l) as Hpos.
  pose proof (len_cons x l) as Hlen.
  split.
  - apply Qlt_shift_div_l; [exact Hpos |].
    eapply Qlt_le_trans; [| exact Hlo]. rewrite Hlen. lra.
  - apply Qlt_shift_div_r; [exact Hpos |].
    eapply Qle_lt_trans; [exact Hhi |]. rewrite Hlen. lra.
Qed.

Lemma filter_none {A : Type} (f : A -> bool) (l : list A) :
  filter f l = [] <-> forall x, In x l -> f x = false.
Proof.
  induction l as [| a l IH]; simpl.
  - split; [intros _ x [] | reflexivity].
  - destruct (f a) eqn:Ha.
    + split; [discriminate |]. intro H.
      rewrite (H a (or_introl eq_refl)) in Ha. discriminate.
    + rewrite IH. split.
      * intros H x [<- | Hx]; auto.
      * intros H x Hx. apply H. right. exact Hx.
Qed.

Lemma filter_length_all {A : Type} (f : A -> bool) (l : list A) :
  List.length (filter f l) = List.length l <-> forall x, In x l -> f x = true.
Proof.
  induction l as [| a l IH]; simpl.
  - split; [intros _ x [] | reflexivity].
  - pose proof (filter_length_le f l) as Hle.
    destruct (f a) eqn:Ha; simpl.
    + split.
      * intros H x [<- | Hx]; [exact Ha |]. apply IH; [lia | exact Hx].
      * intro H. f_equal. apply IH. intros x Hx. apply H. right. exact Hx.
    + split; [lia |]. intro H.
      rewrite (H a (or_introl eq_refl)) in Ha. discriminate.
Qed.

(** The percentage [100 * m / t] is 0 only for [m = 0] and 100 only for
    [m = t]. *)
Lemma pct_ends (m t : nat) :
  (0 < t)%nat ->
  ((100 * inject_Z (Z.of_nat m) / inject_Z (Z.of_nat t) == 0)%Q <-> m = 0%nat) /\
  ((100 * inject_Z (Z.of_nat m) / inject_Z (Z.of_nat t) == 100)%Q <-> m = t).
Proof.
  intro Ht.
  assert (Hinj : forall a b : nat,
             (inject_Z (Z.of_nat a) == inject_Z (Z.of_nat b))%Q -> a = b).
  { intros a b H. apply (proj1 (inject_Z_injective _ _)) in H. lia. }
  assert (Hnz : ~ (inject_Z (Z.of_nat t) == 0)%Q).
  { intro H. apply (Hinj t 0%nat) in H. lia. }
  assert (Hdiv : forall x y : Q,
             ~ (y == 0)%Q -> (100 * x == (100 * x / y) * y)%Q).
  { intros x y Hy. field. exact Hy. }
  specialize (Hdiv (inject_Z (Z.of_nat m)) _ Hnz).
  split; split.
  - intro H. rewrite H in Hdiv. apply (Hinj m 0%nat).
    change (inject_Z (Z.of_nat 0)) with 0%Q.
    revert Hdiv. generalize (inject_Z (Z.of_nat m)), (inject_Z (Z.of_nat t)).
    intros x y Hxy. lra.
  - intros ->. simpl. field. exact Hnz.
  - intro H. rewrite H in Hdiv. apply Hinj.
    revert Hdiv. generalize (inject_Z (Z.of_nat m)), (inject_Z (Z.of_nat t)).
    intros x y Hxy. lra.
  - intros ->. field. exact Hnz.
Qed.

(** ** The tick analyzer: intervals *)

Lemma valid_interval_iff (i : Q) :
  valid_interval i = true <-> (500 < i /\ i < 10000)%Q.
Proof.
  unfold valid_interval. rewrite andb_true_iff, !lt_iff. tauto.
Qed.

Lemma good_interval_iff (i : Q) :
  good_interval i = true <-> (900 <= i /\ i <= 1100)%Q.
Proof.
  unfold good_interval. rewrite andb_true_iff, !le_iff. tauto.
Qed.

Lemma tick_intervals_In (float : string -> option Q) (ticks : list row) :
  forall (intervals : list Q) (i : Q),
    In i (tick_intervals float intervals ticks) <->
    In i intervals \/
    exists t, In t ticks /\ float_of float t "interval_ms" = Ok i
              /\ valid_interval i = true.
Proof.
  induction ticks as [| t rest IH]; intros intervals i; simpl.
  - split; [auto | intros [H | (t & [] & _)]; exact H].
  - destruct (float_of float t "interval_ms") as [x | e] eqn:Hx.
    + rewrite IH. destruct (valid_interval x) eqn:Hv.
      * rewrite in_app_iff. simpl. split.
        -- intros [[H | [H | []]] | (t' & Hin & Ht')]; auto.
           ++ subst x. right. exists t. auto.
           ++ right. exists t'. tauto.
        -- intros [H | (t' & [Ht | Hin] & Hf & Hv')]; auto.
           ++ subst t'. rewrite Hx in Hf. injection Hf as ->. auto.
           ++ right. exists t'. auto.
      * split.
        -- intros [H | (t' & Hin & Ht')]; auto. right. exists t'. tauto.
        -- intros [H | (t' & [Ht | Hin] & Hf & Hv')]; auto.
           ++ subst t'. rewrite Hx in Hf. injection Hf as ->. congruence.
           ++ right. exists t'. auto.
    + rewrite IH. split.
      * intros [H | (t' & Hin & Ht')]; auto. right. exists t'. tauto.
      * intros [H | (t' & [Ht | Hin] & Hf & Hv')]; auto.
        -- subst t'. rewrite Hx in Hf. discriminate.
        -- right. exists t'. auto.
Qed.

Lemma tick_rows_filter (reader : list row) :
  forall (ticks markers ticks' markers' : list row),
    tick_rows ticks markers reader = Ok (ticks', markers') ->
    ticks' = (ticks ++ filter is_tick_row reader)%list.
Proof.
  induction reader as [| r rest IH]; intros ticks markers ticks' markers'; simpl.
  - intros [= <- <-]. symmetry. apply app_nil_r.
  - unfold is_tick_row, is_tick_id, Py.getitem.
    destruct (Py.get r "tick_num") as [tick_num |]; [| discriminate].
    simpl. destruct (Py.startswith tick_num "M"); simpl; [apply IH |].
    destruct (is_sentinel tick_num); simpl; [apply IH |].
    intro H. apply IH in H. rewrite H, <- app_assoc. reflexivity.
Qed.

Lemma tick_intervals_filter (float : string -> option Q) (ticks : list row) :
  forall intervals : list Q,
    tick_intervals float intervals ticks
    = (intervals
       ++ filter valid_interval (flat_map (interval_ms_of float) ticks))%list.
Proof.
  induction ticks as [| t rest IH]; intro intervals; simpl.
  - symmetry. apply app_nil_r.
  - unfold interval_ms_of at 1.
    destruct (float_of float t "interval_ms") as [interval | e]; simpl.
    + rewrite IH. destruct (valid_interval interval); simpl; [| reflexivity].
      rewrite <- app_assoc. reflexivity.
    + apply IH.
Qed.

(** C9. In the tick analyzer an interval is kept as valid exactly when it
    lies strictly between 500 and 10000 ms, so 500 and 10000 themselves are
    left out, and a valid interval is good exactly when it lies between 900
    and 1100 ms, both ends included.  The statistics of the analyzer show
    the two classes: on a log with ticks, the intervals being those that
    parse in the tick rows, [mean_interval_ms] is 0 exactly when none of
    them lies strictly between 500 and 10000, and [good_interval_pct] is 0
    exactly when none of these lies between 900 and 1100, and 100 exactly
    when there is one and all of them do. *)
Theorem tick_interval_classes :
  forall (float : string -> option Q) (ticks : list row) (i : Q),
    (In i (tick_intervals float [] ticks) <->
     exists t, In t ticks /\ float_of float t "interval_ms" = Ok i
               /\ (500 < i /\ i < 10000)%Q) /\
    (In i (filter good_interval (tick_intervals float [] ticks)) <->
     In i (tick_intervals float [] ticks) /\ (900 <= i /\ i <= 1100)%Q) /\
    (valid_interval i = true <-> (500 < i /\ i < 10000)%Q) /\
    (good_interval i = true <-> (900 <= i /\ i <= 1100)%Q) /\
    valid_interval 500 = false /\ valid_interval 10000 = false /\
    good_interval 900 = true /\ good_interval 1100 = true /\
    (forall (info : header_info) (reader : list row) (d : ticks_dict),
        analyze_ticks_rows float info reader = Ok d ->
        tick_count d <> 0%nat ->
        let valid x :=
          In x (parsed_tick_intervals float reader) /\ (500 < x /\ x < 10000)%Q in
        let good x := valid x /\ (900 <= x /\ x <= 1100)%Q in
        exists pct mean : Q,
          good_interval_pct d = Some pct /\ mean_interval_ms d = Some mean /\
          ((mean == 0)%Q <-> forall x, ~ valid x) /\
          ((pct == 0)%Q <-> forall x, ~ good x) /\
          ((pct == 100)%Q <-> (exists x, valid x) /\ forall x, valid x -> good x)).
Proof.
  intros float ticks i.
  split; [| split; [| split; [| split; [| split; [| split; [| split;
    [| split ]]]]]]]; try reflexivity.
  - rewrite tick_intervals_In. split.
    + intros [[] | (t & Hin & Hf & Hv)].
      exists t. apply valid_interval_iff in Hv. tauto.
    + intros (t & Hin & Hf & Hv). right.
      exists t. rewrite valid_interval_iff. tauto.
  - rewrite filter_In, good_interval_iff. tauto.
  - apply valid_interval_iff.
  - apply good_interval_iff.
  - intros info reader d. unfold analyze_ticks_rows.
    destruct (tick_rows [] [] reader) as [[tl markers] | e] eqn:Hr; [| discriminate].
    apply tick_rows_filter in Hr. simpl in Hr.
    cbn [bind result_monad]. destruct tl as [| t tl'].
    { intros [= <-] Hn. exfalso. apply Hn. reflexivity. }
    rewrite (tick_intervals_filter float (t :: tl') []). cbn [app].
    rewrite Hr. fold (parsed_tick_intervals float reader).
    destruct (marker_tuples float "tick_num" markers); [| discriminate].
    cbn [bind result_monad]. intros [= <-] _.
    cbn [good_interval_pct mean_interval_ms]. cbv zeta.
    remember (filter valid_interval (parsed_tick_intervals float reader))
      as intervals eqn:Hi.
    assert (Hvalid : forall x,
               In x intervals <->
               In x (parsed_tick_intervals float reader)
               /\ (500 < x /\ x < 10000)%Q).
    { intro x. rewrite Hi, filter_In, valid_interval_iff. tauto. }
    clear Hi. do 2 eexists. split; [reflexivity |]. split; [reflexivity |].
    destruct intervals as [| v l].
    + split; [| split].
      * split; [| reflexivity]. intros _ x Hx. apply Hvalid in Hx. exact Hx.
      * split; [| reflexivity]. intros _ x [Hx _]. apply Hvalid in Hx. exact Hx.
      * split; [intro H; discriminate H |].
        intros [[x Hx] _]. apply Hvalid in Hx. destruct Hx.
    + assert (Hpos : (0 < List.length (v :: l))%nat) by (simpl; lia).
      destruct (pct_ends (List.length (filter good_interval (v :: l)))
                         (List.length (v :: l)) Hpos) as [Hzero Hfull].
      unfold Py.len. split; [| split].
      * split.
        -- intro H. exfalso.
           destruct (mean_strictly_between 500 10000 v l) as [Hlo _].
           { intros y Hy. apply Hvalid in Hy. tauto. }
           rewrite H in Hlo. revert Hlo. unfold Qlt. simpl. lia.
        -- intro H. exfalso. apply (H v), Hvalid. left. reflexivity.
      * rewrite Hzero, length_zero_iff_nil, filter_none. split.
        -- intros H x [Hx Hg]. apply Hvalid in Hx.
           apply good_interval_iff in Hg. rewrite (H x Hx) in Hg. discriminate.
        -- intros H x Hx. destruct (good_interval x) eqn:Hg; [| reflexivity].
           exfalso. apply (H x). split; [apply Hvalid, Hx |].
           apply good_interval_iff, Hg.
      * rewrite Hfull, filter_length_all. split.
        -- intro H. split.
           ++ exists v. apply Hvalid. left. reflexivity.
           ++ intros x Hx. split; [exact Hx |].
              apply good_interval_iff, H, Hvalid, Hx.
        -- intros [_ H] x Hx. apply good_interval_iff.
           apply Hvalid in Hx. apply (H x Hx).
Qed.

Lemma tick_interval_classes_witness :
  let reader :=
    [Examples.tick_row "1" "500"; Examples.tick_row "2" "10000";
     Examples.tick_row "3" "900"; Examples.tick_row "4" "1100";
     Examples.tick_row "GAIN" "5000"] in
  exists (d : ticks_dict) (pct mean : Q),
    analyze_ticks_rows decimal Examples.no_info reader = Ok d /\
    tick_count d = 4%nat /\
    good_interval_pct d = Some pct /\ mean_interval_ms d = Some mean /\
    (pct == 100)%Q /\ (mean == 1000)%Q /\
    (exists x, In x (parsed_tick_intervals decimal reader)
               /\ (500 < x /\ x < 10000)%Q) /\
    (forall x, In x (parsed_tick_intervals decimal reader)
               /\ (500 < x /\ x < 10000)%Q ->
               (In x (parsed_tick_intervals decimal reader)
                /\ (500 < x /\ x < 10000)%Q) /\ (900 <= x /\ x <= 1100)%Q).
Proof.
  cbv zeta.
  destruct (analyze_ticks_rows decimal Examples.no_info
              [Examples.tick_row "1" "500"; Examples.tick_row "2" "10000";
               Examples.tick_row "3" "900"; Examples.tick_row "4" "1100";
               Examples.tick_row "GAIN" "5000"]) as [d | e] eqn:Hd;
    [| vm_compute in Hd; discriminate].
  assert (Hn : tick_count d = 4%nat).
  { vm_compute in Hd. injection Hd as <-. reflexivity. }
  destruct (tick_interval_classes decimal [] 0%Q)
    as (_ & _ & _ & _ & _ & _ & _ & _ & H).
  destruct (H Examples.no_info _ d Hd) as (pct & mean & Hpct & Hmean & _ & _ & Hfull).
  { rewrite Hn. discriminate. }
  exists d, pct, mean.
  assert (Hvalues : (pct == 100)%Q /\ (mean == 1000)%Q).
  { vm_compute in Hd. injection Hd as <-.
    cbn [good_interval_pct mean_interval_ms] in Hpct, Hmean.
    injection Hpct as <-. injection Hmean as <-. split; reflexivity. }
  destruct Hvalues as [H100 H1000].
  split; [reflexivity |]. split; [exact Hn |].
  split; [exact Hpct |]. split; [exact Hmean |].
  split; [exact H100 |]. split; [exact H1000 |].
  exact (proj1 Hfull H100).
Defined.

(** ** The tick analyzer: sentinel rows *)

(** C1. The design has a row of the tick log whose identifier is META or
    GAIN ignored.  The classification loop tests the marker prefix first:
    a GAIN row is skipped, but a META row begins with M and joins the
    minute-markers, is counted in [marker_count] and is listed in
    [markers]. *)
Theorem meta_row_counted_as_marker :
  (forall (ticks markers : list row) (r : row) (rest : list row),
      Py.getitem r "tick_num" = Ok "GAIN" ->
      tick_rows ticks markers (r :: rest) = tick_rows ticks markers rest) /\
  (forall (ticks markers : list row) (r : row) (rest : list row),
      Py.getitem r "tick_num" = Ok "META" ->
      tick_rows ticks markers (r :: rest) = tick_rows ticks (markers ++ [r]) rest) /\
  analyze_ticks decimal Examples.meta_dir "./ticks.csv" =
  Ok (Some {| ticks_info := {| version := "v1.0"; started := "unknown" |};
              tick_count := 1;
              marker_count := 1;
              good_interval_pct := Some 100%Q;
              mean_interval_ms := Some 1000%Q;
              ticks_markers := [("META", 0%Q, 0%Q)] |}).
Proof.
  split; [| split].
  - intros ticks markers r rest H. simpl. rewrite H. reflexivity.
  - intros ticks markers r rest H. simpl. rewrite H. reflexivity.
  - vm_compute. reflexivity.
Qed.

(** ** The report: exceptions *)

(** C2. The design has no input abort the run.  A sync log with no data
    row takes the early return of [analyze_sync], whose dict has no key
    [first_locked], and the report raises [KeyError] after four lines of
    the sync section, whatever else the directory holds; a sync row whose
    interval is not a number raises [ValueError] inside [analyze_sync].
    Both runs end with status 1. *)
Theorem empty_sync_log_aborts :
  (forall (float : string -> option Q) (read : string -> option (list string))
          (listdir : list string) (getmtime : string -> Q)
          (base_path filepath : string) (f : list string),
      files listdir getmtime base_path Sync = Some filepath ->
      read filepath = Some f ->
      DictReader f = [] ->
      snd (print_report float read listdir getmtime base_path)
      = Raise (KeyError "first_locked")) /\
  print_report decimal Examples.empty_sync_dir ["sync_log.csv"] Examples.mtime_1 "."
  = ([Rule; Title; Rule; SyncHeading "v1.0"; SyncStarted "unknown";
      SyncConfirmed 0; SyncStates []],
     Raise (KeyError "first_locked")) /\
  exit_status
    (print_report decimal Examples.empty_sync_dir ["sync_log.csv"] Examples.mtime_1 ".")
  = 1%Z /\
  print_report decimal Examples.bad_sync_dir ["sync_log.csv"] Examples.mtime_1 "."
  = ([Rule; Title; Rule], Raise (ValueError "n/a")) /\
  exit_status
    (print_report decimal Examples.bad_sync_dir ["sync_log.csv"] Examples.mtime_1 ".")
  = 1%Z.
Proof.
  split; [| repeat split; vm_compute; reflexivity].
  intros float read listdir getmtime base_path filepath f Hfile Hread Hrows.
  unfold print_report, report_of. rewrite Hfile.
  unfold analyze_if, analyze_sync. rewrite Hread.
  unfold analyze_sync_rows. rewrite Hrows. reflexivity.
Qed.

(** ** The report: the correlation section *)

(** C4. The design has a tick log with marker rows and no tick row still
    give the correlation section.  The early return of [analyze_ticks]
    counts the marker rows in [marker_count] and returns an empty [markers]
    list, so the test of the section fails; the report raises [KeyError] in
    the tick section before it gets there.  With one tick row in the same
    log the section is printed. *)
Theorem marker_rows_lost_without_ticks :
  (forall (float : string -> option Q) (info : header_info) (reader markers : list row),
      tick_rows [] [] reader = Ok ([], markers) ->
      analyze_ticks_rows float info reader
      = Ok {| ticks_info := info;
              tick_count := 0;
              marker_count := List.length markers;
              good_interval_pct := None;
              mean_interval_ms := None;
              ticks_markers := [] |}) /\
  (forall (t : ticks_dict) (m : option markers_dict),
      ticks_markers t = [] -> correlation_wanted (Some t) m = false) /\
  analyze_ticks decimal Examples.markers_only_dir "./ticks.csv" =
  Ok (Some {| ticks_info := Examples.no_info;
              tick_count := 0;
              marker_count := 1;
              good_interval_pct := None;
              mean_interval_ms := None;
              ticks_markers := [] |}) /\
  analyze_markers decimal Examples.markers_only_dir "./markers.csv" =
  Ok (Some {| markers_info := Examples.no_info;
              markers_count := 1;
              markers_markers := [("M1", 1050%Q, 800%Q)] |}) /\
  print_report decimal Examples.markers_only_dir ["ticks.csv"; "markers.csv"]
               Examples.mtime_1 "."
  = ([Rule; Title; Rule; TickHeading; TickCount 0; TickMarkers 1],
     Raise (KeyError "good_interval_pct")) /\
  print_report decimal Examples.markers_and_tick_dir ["ticks.csv"; "markers.csv"]
               Examples.mtime_1 "."
  = ([Rule; Title; Rule; TickHeading; TickCount 1; TickMarkers 1;
      TickGood 100%Q; TickMean 1000%Q; MarkerHeading; MarkerCount 1;
      CorrHeading; CorrPair "M1" "M1" 50%Q; CorrSummary 1 0 0%Z; EndRule],
     Ok tt).
Proof.
  split; [| split; [| repeat split; vm_compute; reflexivity]].
  - intros float info reader markers H.
    unfold analyze_ticks_rows. rewrite H. reflexivity.
  - intros t [m |] H; simpl; [| reflexivity]. rewrite H. reflexivity.
Qed.

(** ** The stable sorts *)

Section SortBy.

Context {A : Type}.
Variable before : A -> A -> bool.

Lemma insert_by_perm (x : A) (l : list A) :
  Permutation (x :: l) (Py.insert_by before x l).
Proof.
  induction l as [| y l IH]; simpl.
  - apply Permutation_refl.
  - destruct (before y x).
    + eapply perm_trans; [apply perm_swap |]. apply perm_skip, IH.
    + apply Permutation_refl.
Qed.

Lemma sort_by_perm (l : list A) : Permutation l (Py.sort_by before l).
Proof.
  induction l as [| x l IH]; simpl.
  - apply perm_nil.
  - eapply perm_trans; [apply perm_skip, IH |]. apply insert_by_perm.
Qed.

Lemma sort_by_length (l : list A) :
  List.length (Py.sort_by before l) = List.length l.
Proof.
  symmetry. apply Permutation_length, sort_by_perm.
Qed.

(** The head of the sorted list, when [before y x] is a strict weak order
    read as "[y] stays in front of [x]": nothing stays in front of it. *)
Hypothesis before_asym : forall x y, before x y = true -> before y x = false.
Hypothesis before_cotrans :
  forall x y z, before x y = true -> before x z = true \/ before z y = true.

Lemma sort_by_head (l : list A) (h : A) (tl : list A) :
  Py.sort_by before l = h :: tl ->
  In h l /\ forall y, In y l -> before y h = false.
Proof.
  revert h tl. induction l as [| x l IH]; intros h tl; simpl; [discriminate |].
  destruct (Py.sort_by before l) as [| h' tl'] eqn:Hs; simpl.
  - intros [= <- <-]. split; [auto |].
    assert (l = []) as ->.
    { apply Permutation_nil. rewrite <- Hs. apply Permutation_sym, sort_by_perm. }
    intros y [<- | []].
    destruct (before x x) eqn:Hxx; [| reflexivity].
    rewrite (before_asym _ _ Hxx) in Hxx. discriminate.
  - destruct (IH h' tl' eq_refl) as [Hin Hmax].
    destruct (before h' x) eqn:Hb.
    + intros [= <- <-]. split; [auto |].
      intros y [<- | Hy]; [apply before_asym, Hb | apply Hmax, Hy].
    + intros [= <- <-]. split; [auto |].
      intros y [<- | Hy].
      * destruct (before x x) eqn:Hxx; [| reflexivity].
        rewrite (before_asym _ _ Hxx) in Hxx. discriminate.
      * destruct (before y x) eqn:Hyx; [| reflexivity].
        destruct (before_cotrans _ _ h' Hyx) as [H | H].
        -- rewrite (Hmax y Hy) in H. discriminate.
        -- congruence.
Qed.

End SortBy.

(** ** The correlation matcher *)

Section Scan.

Variable used : set nat.
Variable t_time : Q.
Variable marker_list : list marker.

Lemma scan_scanned (l : list marker) :
  forall (n : nat) (bm : option (nat * marker)) (bd : Q),
    (forall k, nth_error l k = nth_error marker_list (n + k)) ->
    scanned used t_time marker_list n bm bd ->
    scanned used t_time marker_list (n + List.length l)
            (fst (scan used t_time bm bd (Py.enumerate n l)))
            (snd (scan used t_time bm bd (Py.enumerate n l))).
Proof.
  induction l as [| m l IH]; intros n bm bd Hl Hinv; simpl.
  - rewrite Nat.add_0_r. exact Hinv.
  - assert (Hm : nth_error marker_list n = Some m).
    { specialize (Hl 0%nat). rewrite Nat.add_0_r in Hl. symmetry. exact Hl. }
    assert (Hl' : forall k, nth_error l k = nth_error marker_list (S n + k)).
    { intro k. specialize (Hl (S k)). simpl in Hl. rewrite Hl. f_equal. lia. }
    replace (n + S (List.length l))%nat with (S n + List.length l)%nat by lia.
    destruct Hinv as (Hwin & Hmin & Hbest).
    destruct (set_mem Nat.eq_dec n used) eqn:Hmem.
    + apply set_mem_correct1 in Hmem.
      apply IH; [exact Hl' |]. split; [exact Hwin |]. split.
      * intros j m' Hj Hnth Hfree.
        destruct (Nat.eq_dec j n) as [-> | Hne]; [contradiction |].
        apply (Hmin j m'); auto. lia.
      * destruct bm as [[i mi] |]; [| exact Hbest].
        destruct Hbest as (Hi & Hrest). split; [lia | exact Hrest].
    + apply set_mem_complete1 in Hmem.
      destruct (Py.lt (delta t_time m) bd) eqn:Hlt.
      * apply lt_iff in Hlt.
        apply IH; [exact Hl' |]. split; [| split].
        -- apply Qlt_le_weak. eapply Qlt_le_trans; eassumption.
        -- intros j m' Hj Hnth Hfree.
           destruct (Nat.eq_dec j n) as [-> | Hne].
           ++ rewrite Hm in Hnth. injection Hnth as <-. apply Qle_refl.
           ++ apply Qlt_le_weak. eapply Qlt_le_trans; [exact Hlt |].
              apply (Hmin j m'); auto. lia.
        -- split; [lia |]. split; [exact Hm |]. split; [exact Hmem |].
           split; [reflexivity |]. split.
           ++ eapply Qlt_le_trans; eassumption.
           ++ intros j m' Hj Hnth Hfree.
              eapply Qlt_le_trans; [exact Hlt |]. apply (Hmin j m'); auto.
      * apply lt_false_iff in Hlt.
        apply IH; [exact Hl' |]. split; [exact Hwin |]. split.
        -- intros j m' Hj Hnth Hfree.
           destruct (Nat.eq_dec j n) as [-> | Hne].
           ++ rewrite Hm in Hnth. injection Hnth as <-. exact Hlt.
           ++ apply (Hmin j m'); auto. lia.
        -- destruct bm as [[i mi] |]; [| exact Hbest].
           destruct Hbest as (Hi & Hrest). split; [lia | exact Hrest].
Qed.

Lemma closest_scanned :
  scanned used t_time marker_list (List.length marker_list)
          (fst (closest used marker_list t_time))
          (snd (closest used marker_list t_time)).
Proof.
  unfold closest.
  apply (scan_scanned marker_list 0 None 1500%Q).
  - intro k. reflexivity.
  - split; [apply Qle_refl |]. split; [| reflexivity].
    intros j m' Hj. lia.
Qed.

End Scan.

Lemma closest_fresh (used : set nat) (marker_list : list marker) (t_time : Q)
      (i : nat) (m : marker) (d : Q) :
  closest used marker_list t_time = (Some (i, m), d) ->
  ~ In i used /\ (i < List.length marker_list)%nat.
Proof.
  intro H. pose proof (closest_scanned used t_time marker_list) as Hs.
  rewrite H in Hs. simpl in Hs.
  destruct Hs as (_ & _ & Hi & _ & Hfree & _). auto.
Qed.

Lemma set_add_length_fresh (a : nat) (l : set nat) :
  ~ In a l -> List.length (set_add Nat.eq_dec a l) = S (List.length l).
Proof.
  induction l as [| b l IH]; simpl; intro H; [reflexivity |].
  destruct (Nat.eq_dec a b) as [-> | Hne].
  - exfalso. auto.
  - simpl. rewrite IH; auto.
Qed.

(** One turn of the outer loop, by the outcome of the inner loop. *)
Lemma match_tick_some (marker_list : list marker) (st : matcher) (t : marker)
      (i : nat) (m : marker) (d : Q) :
  closest (used_markers st) marker_list (m_time t) = (Some (i, m), d) ->
  correlated (match_tick marker_list st t) = S (correlated st) /\
  tick_only (match_tick marker_list st t) = tick_only st /\
  used_markers (match_tick marker_list st t)
  = set_add Nat.eq_dec i (used_markers st).
Proof.
  intro H. unfold match_tick. rewrite H. simpl. auto.
Qed.

Lemma match_tick_none (marker_list : list marker) (st : matcher) (t : marker) (d : Q) :
  closest (used_markers st) marker_list (m_time t) = (None, d) ->
  correlated (match_tick marker_list st t) = correlated st /\
  tick_only (match_tick marker_list st t) = S (tick_only st) /\
  used_markers (match_tick marker_list st t) = used_markers st.
Proof.
  intro H. unfold match_tick. rewrite H. simpl. auto.
Qed.

Lemma match_tick_counts (marker_list : list marker) (st : matcher) (t : marker) :
  let st' := match_tick marker_list st t in
  (correlated st' + tick_only st' = S (correlated st + tick_only st))%nat /\
  (List.length (used_markers st') + correlated st
   = List.length (used_markers st) + correlated st')%nat.
Proof.
  destruct (closest (used_markers st) marker_list (m_time t))
    as [[[i m] |] d] eqn:Hc; simpl.
  - destruct (match_tick_some _ _ _ _ _ _ Hc) as (-> & -> & ->).
    rewrite set_add_length_fresh by (eapply closest_fresh; eassumption). lia.
  - destruct (match_tick_none _ _ _ _ Hc) as (-> & -> & ->). lia.
Qed.

Lemma match_ticks_counts (marker_list : list marker) (tick_list : list marker) :
  forall st : matcher,
    let st' := match_ticks marker_list tick_list st in
    (correlated st' + tick_only st'
     = correlated st + tick_only st + List.length tick_list)%nat /\
    (List.length (used_markers st') + correlated st
     = List.length (used_markers st) + correlated st')%nat.
Proof.
  induction tick_list as [| t rest IH]; intro st; simpl.
  - lia.
  - destruct (IH (match_tick marker_list st t)) as [H1 H2].
    destruct (match_tick_counts marker_list st t) as [H3 H4].
    unfold match_ticks in *. simpl in *. lia.
Qed.

(** The scenario of the design: tick-markers at 1000 and 62000 ms,
    markers at 1050 and 70000 ms. *)
Example correlate_scenario :
  let st := correlate Examples.scenario_ticks Examples.scenario_markers in
  correlated st = 1%nat /\ tick_only st = 1%nat /\
  marker_only (Py.sorted m_time Examples.scenario_markers) st = 1%Z /\
  printed st = [CorrPair "M1" "M1" 50%Q; CorrTickOnly "M2" 62000%Q] /\
  pairs (Py.sorted m_time Examples.scenario_markers) matcher_start 0
        (Py.sorted m_time Examples.scenario_ticks) = [(0%nat, 0%nat)].
Proof.
  repeat split; vm_compute; reflexivity.
Qed.

(** C8. The counts of the correlation matcher add up: correlated plus
    tick-only is the number of tick-markers, and correlated plus marker-only
    is the number of markers. *)
Theorem accounting_identities :
  forall ticks_m markers_m : list marker,
    let st := correlate ticks_m markers_m in
    (correlated st + tick_only st = List.length ticks_m)%nat /\
    (Z.of_nat (correlated st) + marker_only (Py.sorted m_time markers_m) st
     = Z.of_nat (List.length markers_m))%Z.
Proof.
  intros ticks_m markers_m. simpl. unfold correlate, marker_only.
  destruct (match_ticks_counts (Py.sorted m_time markers_m)
                               (Py.sorted m_time ticks_m) matcher_start)
    as [H1 H2].
  simpl in H1, H2. unfold Py.sorted in *.
  rewrite sort_by_length in H1. rewrite sort_by_length. split; lia.
Qed.

Lemma pairs_spec (marker_list : list marker) (tick_list : list marker) :
  forall (st : matcher) (k : nat),
    let ps := pairs marker_list st k tick_list in
    (forall k' i, In (k', i) ps ->
                  (k <= k' < k + List.length tick_list)%nat /\
                  (i < List.length marker_list)%nat /\
                  ~ In i (used_markers st)) /\
    NoDup (map fst ps) /\ NoDup (map snd ps) /\
    (forall i, In i (used_markers (match_ticks marker_list tick_list st)) <->
               In i (used_markers st) \/ In i (map snd ps)) /\
    correlated (match_ticks marker_list tick_list st)
    = (correlated st + List.length ps)%nat.
Proof.
  induction tick_list as [| t rest IH]; intros st k; simpl.
  - split; [intros k' i [] |]. split; [constructor |]. split; [constructor |].
    split; [intro i; unfold match_ticks; simpl; tauto |].
    unfold match_ticks. simpl. lia.
  - specialize (IH (match_tick marker_list st t) (S k)). simpl in IH.
    destruct IH as (Hin & Hfst & Hsnd & Hused & Hcorr).
    unfold match_ticks in *. simpl.
    destruct (closest (used_markers st) marker_list (m_time t))
      as [[[i m] |] d] eqn:Hc; simpl.
    + destruct (match_tick_some _ _ _ _ _ _ Hc) as (Hc1 & _ & Hu).
      destruct (closest_fresh _ _ _ _ _ _ Hc) as [Hfree Hlt].
      rewrite Hu in Hin, Hused.
      split; [| split; [| split; [| split]]].
      * intros k' i' [[= <- <-] | H].
        -- split; [lia | auto].
        -- destruct (Hin k' i' H) as (Hk & Hi & Hf).
           split; [lia |]. split; [exact Hi |].
           intro Hi'. apply Hf, set_add_intro1, Hi'.
      * constructor; [| exact Hfst].
        intro H. apply in_map_iff in H. destruct H as ([k' i'] & Heq & H).
        simpl in Heq. subst k'. apply Hin in H. lia.
      * constructor; [| exact Hsnd].
        intro H. apply in_map_iff in H. destruct H as ([k' i'] & Heq & H).
        simpl in Heq. subst i'. apply Hin in H.
        destruct H as (_ & _ & Hf). apply Hf, set_add_intro2. reflexivity.
      * intro x. rewrite Hused, set_add_iff. simpl.
        split; [intros [[-> | H] | H] | intros [H | [-> | H]]]; auto.
      * rewrite Hcorr, Hc1. lia.
    + destruct (match_tick_none _ _ _ _ Hc) as (Hc1 & _ & Hu).
      rewrite Hu in Hin, Hused.
      split; [| split; [| split; [| split]]]; auto.
      * intros k' i' H. destruct (Hin k' i' H) as (Hk & Hi & Hf).
        split; [lia | auto].
      * rewrite Hcorr, Hc1. reflexivity.
Qed.

(** C7. The pairing of the correlation matcher is exclusive: no tick-marker
    is paired twice, no marker is paired twice, and a marker that is in the
    used set is never chosen again. *)
Theorem pairing_exclusive :
  forall ticks_m markers_m : list marker,
    let tick_list := Py.sorted m_time ticks_m in
    let marker_list := Py.sorted m_time markers_m in
    let ps := pairs marker_list matcher_start 0 tick_list in
    NoDup (map fst ps) /\ NoDup (map snd ps) /\
    (forall k i, In (k, i) ps ->
                 (k < List.length tick_list)%nat /\ (i < List.length marker_list)%nat) /\
    (forall i, In i (used_markers (correlate ticks_m markers_m)) <-> In i (map snd ps)) /\
    correlated (correlate ticks_m markers_m) = List.length ps /\
    (forall (st : matcher) (t : marker) (i : nat) (m : marker) (d : Q),
        closest (used_markers st) marker_list (m_time t) = (Some (i, m), d) ->
        ~ In i (used_markers st)) /\
    (forall (st : matcher) (t : marker) (j : nat),
        In j (used_markers st) -> In j (used_markers (match_tick marker_list st t))).
Proof.
  intros ticks_m markers_m. cbv zeta.
  destruct (pairs_spec (Py.sorted m_time markers_m) (Py.sorted m_time ticks_m)
                       matcher_start 0)
    as (Hin & Hfst & Hsnd & Hused & Hcorr).
  split; [exact Hfst |]. split; [exact Hsnd |]. split; [| split; [| split; [| split]]].
  - intros k i H. destruct (Hin k i H) as (Hk & Hi & _). split; [lia | exact Hi].
  - intro i. unfold correlate. rewrite Hused. simpl. tauto.
  - unfold correlate. rewrite Hcorr. reflexivity.
  - intros st t i m d H. eapply closest_fresh; eassumption.
  - intros st t j Hj.
    destruct (closest (used_markers st) (Py.sorted m_time markers_m) (m_time t))
      as [[[i m] |] d] eqn:Hc.
    + destruct (match_tick_some _ _ _ _ _ _ Hc) as (_ & _ & ->).
      apply set_add_intro1, Hj.
    + destruct (match_tick_none _ _ _ _ Hc) as (_ & _ & ->). exact Hj.
Qed.

(** ** The order of the doubles *)

Ltac sf_order :=
  intros;
  repeat match goal with
         | x : SpecFloat.spec_float |- _ => destruct x
         | b : bool |- _ => destruct b
         end;
  simpl in *; try discriminate; try reflexivity; auto;
  repeat match goal with
         | H : context [Pos.compare_cont Eq ?a ?b] |- _ =>
             change (Pos.compare_cont Eq a b) with (Pos.compare a b) in H
         | |- context [Pos.compare_cont Eq ?a ?b] =>
             change (Pos.compare_cont Eq a b) with (Pos.compare a b)
         end;
  repeat match goal with
         | H : context [Z.compare ?a ?b] |- _ => destruct (Z.compare_spec a b)
         | |- context [Z.compare ?a ?b] => destruct (Z.compare_spec a b)
         | H : context [Pos.compare ?a ?b] |- _ => destruct (Pos.compare_spec a b)
         | |- context [Pos.compare ?a ?b] => destruct (Pos.compare_spec a b)
         end;
  simpl in *; try discriminate; try reflexivity; auto; try lia.

Lemma SFcompare_lt_trans (x y z : SpecFloat.spec_float) :
  SpecFloat.SFcompare x y = Some Lt -> SpecFloat.SFcompare y z = Some Lt ->
  SpecFloat.SFcompare x z = Some Lt.
Proof. sf_order. Qed.

Lemma SFcompare_eq_lt_trans (x y z : SpecFloat.spec_float) :
  SpecFloat.SFcompare x y = Some Eq -> SpecFloat.SFcompare y z = Some Lt ->
  SpecFloat.SFcompare x z = Some Lt.
Proof. sf_order. Qed.

Lemma SFcompare_lt_eq_trans (x y z : SpecFloat.spec_float) :
  SpecFloat.SFcompare x y = Some Lt -> SpecFloat.SFcompare y z = Some Eq ->
  SpecFloat.SFcompare x z = Some Lt.
Proof. sf_order. Qed.

Lemma SFcompare_eq_trans (x y z : SpecFloat.spec_float) :
  SpecFloat.SFcompare x y = Some Eq -> SpecFloat.SFcompare y z = Some Eq ->
  SpecFloat.SFcompare x z = Some Eq.
Proof. sf_order. Qed.

Lemma SFcompare_gt_lt (x y : SpecFloat.spec_float) :
  SpecFloat.SFcompare x y = Some Gt -> SpecFloat.SFcompare y x = Some Lt.
Proof. sf_order. Qed.

Lemma SFcompare_lt_gt (x y : SpecFloat.spec_float) :
  SpecFloat.SFcompare x y = Some Lt -> SpecFloat.SFcompare y x = Some Gt.
Proof. sf_order. Qed.

Lemma SFcompare_eq_sym (x y : SpecFloat.spec_float) :
  SpecFloat.SFcompare x y = Some Eq -> SpecFloat.SFcompare y x = Some Eq.
Proof. sf_order. Qed.

Lemma SFcompare_total (x y : SpecFloat.spec_float) :
  x <> SpecFloat.S754_nan -> y <> SpecFloat.S754_nan ->
  exists c, SpecFloat.SFcompare x y = Some c.
Proof.
  intros Hx Hy. destruct x, y; try contradiction; simpl; eauto.
Qed.

(** [x < y] and [x <= y] on doubles: a strict order and its preorder,
    total on the doubles that are not NaN. *)
Lemma double_ltb_trans (x y z : PrimFloat.float) :
  PrimFloat.ltb x y = true -> PrimFloat.ltb y z = true -> PrimFloat.ltb x z = true.
Proof.
  rewrite !FloatAxioms.ltb_spec. unfold SpecFloat.SFltb.
  destruct (SpecFloat.SFcompare (FloatOps.Prim2SF x) (FloatOps.Prim2SF y))
    as [[] |] eqn:Hxy; try discriminate.
  destruct (SpecFloat.SFcompare (FloatOps.Prim2SF y) (FloatOps.Prim2SF z))
    as [[] |] eqn:Hyz; try discriminate.
  intros _ _. rewrite (SFcompare_lt_trans _ _ _ Hxy Hyz). reflexivity.
Qed.

Lemma double_leb_ltb_trans (x y z : PrimFloat.float) :
  PrimFloat.leb x y = true -> PrimFloat.ltb y z = true -> PrimFloat.ltb x z = true.
Proof.
  rewrite FloatAxioms.leb_spec, !FloatAxioms.ltb_spec.
  unfold SpecFloat.SFleb, SpecFloat.SFltb.
  destruct (SpecFloat.SFcompare (FloatOps.Prim2SF x) (FloatOps.Prim2SF y))
    as [[] |] eqn:Hxy; try discriminate;
  destruct (SpecFloat.SFcompare (FloatOps.Prim2SF y) (FloatOps.Prim2SF z))
    as [[] |] eqn:Hyz; try discriminate; intros _ _.
  - rewrite (SFcompare_eq_lt_trans _ _ _ Hxy Hyz). reflexivity.
  - rewrite (SFcompare_lt_trans _ _ _ Hxy Hyz). reflexivity.
Qed.

Lemma double_leb_trans (x y z : PrimFloat.float) :
  PrimFloat.leb x y = true -> PrimFloat.leb y z = true -> PrimFloat.leb x z = true.
Proof.
  rewrite !FloatAxioms.leb_spec. unfold SpecFloat.SFleb.
  destruct (SpecFloat.SFcompare (FloatOps.Prim2SF x) (FloatOps.Prim2SF y))
    as [[] |] eqn:Hxy; try discriminate;
  destruct (SpecFloat.SFcompare (FloatOps.Prim2SF y) (FloatOps.Prim2SF z))
    as [[] |] eqn:Hyz; try discriminate; intros _ _.
  - rewrite (SFcompare_eq_trans _ _ _ Hxy Hyz). reflexivity.
  - rewrite (SFcompare_eq_lt_trans _ _ _ Hxy Hyz). reflexivity.
  - rewrite (SFcompare_lt_eq_trans _ _ _ Hxy Hyz). reflexivity.
  - rewrite (SFcompare_lt_trans _ _ _ Hxy Hyz). reflexivity.
Qed.

Lemma double_ltb_irrefl (x : PrimFloat.float) : PrimFloat.ltb x x = false.
Proof.
  rewrite FloatAxioms.ltb_spec. unfold SpecFloat.SFltb.
  destruct (SpecFloat.SFcompare (FloatOps.Prim2SF x) (FloatOps.Prim2SF x))
    as [[] |] eqn:Hxx; try reflexivity.
  pose proof (SFcompare_lt_gt _ _ Hxx) as H. rewrite Hxx in H. discriminate.
Qed.

Lemma double_ltb_leb (x y : PrimFloat.float) :
  PrimFloat.ltb x y = true -> PrimFloat.leb x y = true.
Proof.
  rewrite FloatAxioms.ltb_spec, FloatAxioms.leb_spec.
  unfold SpecFloat.SFltb, SpecFloat.SFleb.
  destruct (SpecFloat.SFcompare (FloatOps.Prim2SF x) (FloatOps.Prim2SF y))
    as [[] |]; auto.
Qed.

Lemma double_not_nan (x : PrimFloat.float) :
  PrimFloat.is_nan x = false -> FloatOps.Prim2SF x <> SpecFloat.S754_nan.
Proof.
  unfold PrimFloat.is_nan. rewrite FloatAxioms.eqb_spec. unfold SpecFloat.SFeqb.
  intros H Hn. rewrite Hn in H. simpl in H. discriminate.
Qed.

Lemma double_leb_total (x y : PrimFloat.float) :
  PrimFloat.is_nan x = false -> PrimFloat.is_nan y = false ->
  PrimFloat.ltb y x = false -> PrimFloat.leb x y = true.
Proof.
  intros Hx Hy. apply double_not_nan in Hx, Hy.
  rewrite FloatAxioms.ltb_spec, FloatAxioms.leb_spec.
  unfold SpecFloat.SFltb, SpecFloat.SFleb.
  destruct (SFcompare_total _ _ Hy Hx) as [c Hc]. rewrite Hc.
  destruct c; try discriminate; intros _.
  - rewrite (SFcompare_eq_sym _ _ Hc). reflexivity.
  - rewrite (SFcompare_gt_lt _ _ Hc). reflexivity.
Qed.

(** ** The correlation check on doubles: the sorted lists *)

Lemma double_sorted_perm (l : list Double.marker) :
  Permutation l (Double.sorted l).
Proof. apply sort_by_perm. Qed.

Lemma double_sorted_insert (x : Double.marker) (l : list Double.marker) :
  PrimFloat.is_nan (Double.m_time x) = false -> Double.no_nan l ->
  StronglySorted Double.time_le l ->
  StronglySorted Double.time_le
    (Py.insert_by
       (fun y x => PrimFloat.ltb (Double.m_time y) (Double.m_time x)) x l).
Proof.
  intros Hx Hl Hs. induction Hs as [| y l Hs IH Hy]; simpl.
  - constructor; constructor.
  - inversion Hl as [| ? ? Hny Hnl]; subst.
    destruct (PrimFloat.ltb (Double.m_time y) (Double.m_time x)) eqn:Hlt.
    + constructor; [exact (IH Hnl) |].
      eapply Permutation_Forall; [apply insert_by_perm |].
      constructor; [| exact Hy].
      apply double_ltb_leb, Hlt.
    + assert (Hxy : Double.time_le x y).
      { apply double_leb_total; assumption. }
      constructor; [constructor; assumption |].
      constructor; [exact Hxy |].
      eapply Forall_impl; [| exact Hy].
      intros a Ha. unfold Double.time_le in *.
      eapply double_leb_trans; eassumption.
Qed.

Lemma double_sorted_ascending (l : list Double.marker) :
  Double.no_nan l -> StronglySorted Double.time_le (Double.sorted l).
Proof.
  induction l as [| x l IH]; intro H; simpl.
  - constructor.
  - inversion H as [| ? ? Hx Hl]; subst.
    apply double_sorted_insert; [exact Hx | | exact (IH Hl)].
    eapply Permutation_Forall; [apply double_sorted_perm | exact Hl].
Qed.

(** ** The correlation check on doubles: the inner loop *)

Section DoubleScan.

Variable used : set nat.
Variable t_time : PrimFloat.float.
Variable marker_list : list Double.marker.

Lemma double_scan_scanned (l : list Double.marker) :
  forall (n : nat) (bm : option (nat * Double.marker)) (bd : PrimFloat.float),
    (forall k, nth_error l k = nth_error marker_list (n + k)) ->
    Double.scanned used t_time marker_list n bm bd ->
    Double.scanned used t_time marker_list (n + List.length l)
      (fst (Double.scan used t_time bm bd (Py.enumerate n l)))
      (snd (Double.scan used t_time bm bd (Py.enumerate n l))).
Proof.
  induction l as [| m l IH]; intros n bm bd Hl Hinv; simpl.
  - rewrite Nat.add_0_r. exact Hinv.
  - assert (Hm : nth_error marker_list n = Some m).
    { specialize (Hl 0%nat). rewrite Nat.add_0_r in Hl. symmetry. exact Hl. }
    assert (Hl' : forall k, nth_error l k = nth_error marker_list (S n + k)).
    { intro k. specialize (Hl (S k)). simpl in Hl. rewrite Hl. f_equal. lia. }
    replace (n + S (List.length l))%nat with (S n + List.length l)%nat by lia.
    destruct Hinv as (Hmin & Hbest).
    destruct (set_mem Nat.eq_dec n used) eqn:Hmem.
    + apply set_mem_correct1 in Hmem.
      apply IH; [exact Hl' |]. split.
      * intros j m' Hj Hnth Hfree.
        destruct (Nat.eq_dec j n) as [-> | Hne]; [contradiction |].
        apply (Hmin j m'); auto. lia.
      * destruct bm as [[i mi] |]; [| exact Hbest].
        destruct Hbest as (Hi & Hrest). split; [lia | exact Hrest].
    + apply set_mem_complete1 in Hmem.
      destruct (PrimFloat.ltb (Double.delta t_time m) bd) eqn:Hlt.
      * apply IH; [exact Hl' |]. split.
        -- intros j m' Hj Hnth Hfree.
           destruct (Nat.eq_dec j n) as [-> | Hne].
           ++ rewrite Hm in Hnth. injection Hnth as <-. apply double_ltb_irrefl.
           ++ destruct (PrimFloat.ltb (Double.delta t_time m')
                                      (Double.delta t_time m)) eqn:Hjn;
                [| reflexivity].
              rewrite <- (Hmin j m'); auto; [| lia].
              symmetry. eapply double_ltb_trans; eassumption.
        -- split; [lia |]. split; [exact Hm |]. split; [exact Hmem |].
           split; [reflexivity |]. split.
           ++ destruct bm as [[i mi] |].
              ** destruct Hbest as (_ & _ & _ & _ & Hwin & _).
                 eapply double_ltb_trans; eassumption.
              ** rewrite <- Hbest. exact Hlt.
           ++ intros j m' Hj Hnth Hfree.
              destruct (PrimFloat.leb (Double.delta t_time m')
                                      (Double.delta t_time m)) eqn:Hjn;
                [| reflexivity].
              rewrite <- (Hmin j m'); auto.
              symmetry. eapply double_leb_ltb_trans; eassumption.
      * apply IH; [exact Hl' |]. split.
        -- intros j m' Hj Hnth Hfree.
           destruct (Nat.eq_dec j n) as [-> | Hne].
           ++ rewrite Hm in Hnth. injection Hnth as <-. exact Hlt.
           ++ apply (Hmin j m'); auto. lia.
        -- destruct bm as [[i mi] |]; [| exact Hbest].
           destruct Hbest as (Hi & Hrest). split; [lia | exact Hrest].
Qed.

Lemma double_closest_scanned :
  Double.scanned used t_time marker_list (List.length marker_list)
    (fst (Double.closest used marker_list t_time))
    (snd (Double.closest used marker_list t_time)).
Proof.
  unfold Double.closest.
  apply (double_scan_scanned marker_list 0 None Double.window).
  - intro k. reflexivity.
  - split; [| reflexivity]. intros j m' Hj. lia.
Qed.

End DoubleScan.

(** C6. On lists whose timestamps are not NaN, the correlation check takes
    the tick-markers in ascending order of their timestamps.  For each it
    picks, among the markers not used so far, one whose delta as computed
    in double precision, the rounded [abs(t_time - m_time)], is below 1500
    and which no other unused marker undercuts, the first of the sorted
    marker list when several attain it; when no unused marker has a
    computed delta below 1500 the tick-marker is counted tick-only. *)
Theorem computed_delta_picks_marker :
  forall ticks_m markers_m : list Double.marker,
    Double.no_nan ticks_m -> Double.no_nan markers_m ->
    let tick_list := Double.sorted ticks_m in
    let marker_list := Double.sorted markers_m in
    let final := fold_left (Double.match_tick marker_list) tick_list
                           Double.matcher_start in
    (Permutation ticks_m tick_list /\ StronglySorted Double.time_le tick_list) /\
    (Permutation markers_m marker_list
     /\ StronglySorted Double.time_le marker_list) /\
    (forall sync : option sync_dict,
        ticks_m <> [] -> markers_m <> [] ->
        Double.correlation_check sync ticks_m markers_m
        = (Double.CorrHeading
           :: Double.printed final
           ++ (if (display_limit <=? Double.displayed final)%nat
               then [Double.CorrMore (Z.of_nat (List.length tick_list)
                                      - Z.of_nat display_limit)]
               else [])
           ++ [Double.CorrSummary
                 (Double.correlated final) (Double.tick_only final)
                 (Z.of_nat (List.length marker_list)
                  - Z.of_nat (List.length (Double.used_markers final)))]
           ++ match sync with
              | Some s => [Double.CorrSync (sync_count s)]
              | None => []
              end)%list) /\
    forall (st : Double.matcher) (t : Double.marker),
      let st' := Double.match_tick marker_list st t in
      let used := Double.used_markers st in
      match Double.closest used marker_list (Double.m_time t) with
      | (Some (i, m), best_delta) =>
          nth_error marker_list i = Some m /\ ~ In i used /\
          best_delta = Double.delta (Double.m_time t) m /\
          PrimFloat.ltb best_delta Double.window = true /\
          (forall j m',
              nth_error marker_list j = Some m' -> ~ In j used ->
              PrimFloat.ltb (Double.delta (Double.m_time t) m') best_delta = false /\
              ((j < i)%nat ->
               PrimFloat.leb (Double.delta (Double.m_time t) m') best_delta
               = false)) /\
          Double.correlated st' = S (Double.correlated st) /\
          Double.tick_only st' = Double.tick_only st /\
          Double.used_markers st' = set_add Nat.eq_dec i used
      | (None, _) =>
          (forall j m',
              nth_error marker_list j = Some m' -> ~ In j used ->
              PrimFloat.ltb (Double.delta (Double.m_time t) m') Double.window
              = false) /\
          Double.correlated st' = Double.correlated st /\
          Double.tick_only st' = S (Double.tick_only st) /\
          Double.used_markers st' = used
      end.
Proof.
  intros ticks_m markers_m Ht Hm. cbv zeta.
  split; [split; [apply double_sorted_perm
                 | exact (double_sorted_ascending ticks_m Ht)] |].
  split; [split; [apply double_sorted_perm
                 | exact (double_sorted_ascending markers_m Hm)] |].
  split.
  { intros sync Hticks Hmarkers. unfold Double.correlation_check.
    destruct ticks_m as [| t0 ticks_m']; [contradiction |].
    destruct markers_m as [| m0 markers_m']; [contradiction |]. reflexivity. }
  intros st t.
  pose proof (double_closest_scanned (Double.used_markers st) (Double.m_time t)
                                     (Double.sorted markers_m)) as Hs.
  unfold Double.match_tick.
  destruct (Double.closest (Double.used_markers st) (Double.sorted markers_m)
                           (Double.m_time t))
    as [[[i m] |] d] eqn:Hc; simpl in Hs;
    cbn [Double.correlated Double.tick_only Double.used_markers].
  - destruct Hs as (Hmin & Hi & Hnth & Hfree & Hd & Hwin & Hfirst).
    repeat (split; [assumption |]). split; [| auto].
    intros j m' Hj Hf. split.
    + apply (Hmin j m'); auto. apply nth_error_Some. congruence.
    + intro Hji. apply (Hfirst j m'); auto.
  - destruct Hs as (Hmin & ->).
    split; [| auto].
    intros j m' Hj Hf. apply (Hmin j m'); auto. apply nth_error_Some. congruence.
Qed.

Lemma computed_delta_picks_marker_witness :
  (Permutation Double.scenario_ticks (Double.sorted Double.scenario_ticks)
   /\ StronglySorted Double.time_le (Double.sorted Double.scenario_ticks)) /\
  Double.correlation_check None Double.scenario_ticks Double.scenario_markers
  = Double.scenario_lines.
Proof.
  assert (Ht : Double.no_nan Double.scenario_ticks)
    by (repeat constructor).
  assert (Hm : Double.no_nan Double.scenario_markers)
    by (repeat constructor).
  destruct (computed_delta_picks_marker Double.scenario_ticks
              Double.scenario_markers Ht Hm) as (Hsorted & _ & Heq & _).
  split; [exact Hsorted |].
  rewrite (Heq None); [vm_compute; reflexivity | discriminate | discriminate].
Defined.

(** The exact distance of 0.1 and 1500.0999999999999 is below 1500, and
    the marker is the only one; the difference rounds to 1500, so the
    tick-marker is counted tick-only. *)
Lemma rounded_delta_leaves_window :
  (Qabs (Double.exact (Double.m_time Double.tick_0_1)
         - Double.exact (Double.m_time Double.marker_1500_1)) < 1500)%Q /\
  PrimFloat.is_finite (Double.m_time Double.tick_0_1) = true /\
  PrimFloat.is_finite (Double.m_time Double.marker_1500_1) = true /\
  Double.delta (Double.m_time Double.tick_0_1) Double.marker_1500_1
  = Double.window /\
  Double.correlation_check None [Double.tick_0_1] [Double.marker_1500_1]
  = [Double.CorrHeading;
     Double.CorrTickOnly "T1" (Double.m_time Double.tick_0_1);
     Double.CorrSummary 0 1 1].
Proof.
  split; [vm_compute; reflexivity |].
  repeat split; vm_compute; reflexivity.
Qed.

(** ** The order of the candidates *)

Lemma ascii_compare_refl (c : ascii) : Ascii.compare c c = Eq.
Proof. unfold Ascii.compare. apply N.compare_refl. Qed.

Lemma ascii_compare_lt_trans (a b c : ascii) :
  Ascii.compare a b = Lt -> Ascii.compare b c = Lt -> Ascii.compare a c = Lt.
Proof.
  unfold Ascii.compare. rewrite !N.compare_lt_iff. apply N.lt_trans.
Qed.

Lemma string_compare_lt_trans (a : string) :
  forall b c : string,
    String.compare a b = Lt -> String.compare b c = Lt -> String.compare a c = Lt.
Proof.
  induction a as [| x a IH]; intros [| y b] [| z c]; simpl;
    try discriminate; try reflexivity.
  destruct (Ascii.compare x y) eqn:Hxy; try discriminate;
    destruct (Ascii.compare y z) eqn:Hyz; try discriminate; intros H1 H2.
  - apply Ascii.compare_eq_iff in Hxy, Hyz. subst.
    rewrite ascii_compare_refl. eapply IH; eassumption.
  - apply Ascii.compare_eq_iff in Hxy. subst. rewrite Hyz. reflexivity.
  - apply Ascii.compare_eq_iff in Hyz. subst. rewrite Hxy. reflexivity.
  - rewrite (ascii_compare_lt_trans _ _ _ Hxy Hyz). reflexivity.
Qed.

Lemma string_compare_gt_lt (a b : string) :
  String.compare a b = Gt -> String.compare b a = Lt.
Proof.
  intro H. rewrite String.compare_antisym, H. reflexivity.
Qed.

Lemma string_compare_cotrans (a b c : string) :
  String.compare a b = Lt -> String.compare a c = Lt \/ String.compare c b = Lt.
Proof.
  intro H. destruct (String.compare a c) eqn:Hac; [| auto |].
  - apply String.compare_eq_iff in Hac. subst. auto.
  - right. eapply string_compare_lt_trans; [| exact H].
    apply string_compare_gt_lt, Hac.
Qed.

Lemma string_ltb_lt (a b : string) : (a <? b) = true <-> String.compare a b = Lt.
Proof.
  unfold String.ltb. destruct (String.compare a b); split; congruence.
Qed.

Lemma tuple_lt_iff (a b : Q * string) :
  Py.tuple_lt a b = true <->
  (fst a < fst b)%Q \/ ((fst a == fst b)%Q /\ String.compare (snd a) (snd b) = Lt).
Proof.
  unfold Py.tuple_lt. destruct (Qeq_bool (fst a) (fst b)) eqn:He; simpl.
  - apply Qeq_bool_iff in He. rewrite string_ltb_lt. split; [auto |].
    intros [H | [_ H]]; [| exact H]. rewrite He in H.
    exfalso. exact (Qlt_irrefl _ H).
  - apply Qeq_bool_neq in He. rewrite lt_iff. split; [auto |].
    intros [H | [H _]]; [exact H | contradiction].
Qed.

Lemma tuple_lt_asym (a b : Q * string) :
  Py.tuple_lt a b = true -> Py.tuple_lt b a = false.
Proof.
  intro H. apply not_true_is_false. intro H'.
  apply tuple_lt_iff in H, H'.
  destruct H as [H | [H Hs]], H' as [H' | [H' Hs']]; try lra.
  rewrite String.compare_antisym, Hs in Hs'. discriminate.
Qed.

Lemma tuple_lt_cotrans (a b c : Q * string) :
  Py.tuple_lt a b = true -> Py.tuple_lt a c = true \/ Py.tuple_lt c b = true.
Proof.
  rewrite !tuple_lt_iff. intro H.
  destruct (Q_dec (fst a) (fst c)) as [[Hac | Hca] | Hac].
  - auto.
  - right. left. destruct H as [H | [H _]]; lra.
  - destruct H as [H | [H Hs]].
    + right. left. lra.
    + destruct (string_compare_cotrans _ _ (snd c) Hs) as [H1 | H1].
      * left. right. auto.
      * right. right. split; [lra | exact H1].
Qed.

Lemma tuple_lt_neither (a b : Q * string) :
  Py.tuple_lt a b = false -> Py.tuple_lt b a = false ->
  (fst a == fst b)%Q /\ snd a = snd b.
Proof.
  intros H1 H2.
  assert (N1 : ~ ((fst a < fst b)%Q \/
                  ((fst a == fst b)%Q /\ String.compare (snd a) (snd b) = Lt))).
  { rewrite <- tuple_lt_iff. congruence. }
  assert (N2 : ~ ((fst b < fst a)%Q \/
                  ((fst b == fst a)%Q /\ String.compare (snd b) (snd a) = Lt))).
  { rewrite <- tuple_lt_iff. congruence. }
  assert (He : (fst a == fst b)%Q).
  { destruct (Q_dec (fst a) (fst b)) as [[H | H] | H]; tauto. }
  split; [exact He |].
  destruct (String.compare (snd a) (snd b)) eqn:Hc.
  - apply String.compare_eq_iff, Hc.
  - tauto.
  - apply string_compare_gt_lt in Hc. exfalso. apply N2. right.
    split; [symmetry; exact He | exact Hc].
Qed.

(** The head of [sort(reverse=True)]: no candidate is above it. *)
Lemma sort_reverse_head (l : list (Q * string)) (h : Q * string) (tl : list (Q * string)) :
  Py.sort_reverse l = h :: tl ->
  In h l /\ forall y, In y l -> Py.tuple_lt h y = false.
Proof.
  apply (sort_by_head (fun y x => Py.tuple_lt x y)).
  - intros x y. apply tuple_lt_asym.
  - intros x y z H. destruct (tuple_lt_cotrans _ _ z H); auto.
Qed.

Lemma sort_reverse_nonempty (l : list (Q * string)) :
  l <> [] -> exists h tl, Py.sort_reverse l = h :: tl.
Proof.
  intro H. destruct (Py.sort_reverse l) as [| h tl] eqn:Hs; [| eauto].
  exfalso. apply H. apply Permutation_nil. rewrite <- Hs.
  apply Permutation_sym, sort_by_perm.
Qed.

(** ** The log locator *)

Section LocatorFacts.

Variable getmtime : string -> Q.
Variable base_path : string.

Lemma candidates_of_In (key : category) (names : list string) (m : Q) (p : string) :
  In (m, p) (candidates_of getmtime base_path key names) <->
  exists f, In f names /\ Py.endswith f ".csv" = true /\ classify f = Some key /\
            p = path_join base_path f /\ m = getmtime p.
Proof.
  induction names as [| f names IH]; simpl.
  - split; [intros [] | intros (f & [] & _)].
  - assert (Hrest :
      In (m, p) (candidates_of getmtime base_path key names) ->
      exists f0, (f = f0 \/ In f0 names) /\ Py.endswith f0 ".csv" = true /\
                 classify f0 = Some key /\ p = path_join base_path f0 /\
                 m = getmtime p).
    { intro H. apply IH in H. destruct H as (f0 & Hin & H). exists f0. auto. }
    destruct (Py.endswith f ".csv") eqn:He; simpl.
    + destruct (classify f) as [c |] eqn:Hc.
      * destruct (category_eqb c key) eqn:Hk.
        -- assert (c = key) as -> by (destruct c, key; simpl in Hk; congruence).
           split.
           ++ intros [[= <- <-] | H]; [| auto].
              exists f. auto.
           ++ intros (f0 & [<- | Hin] & He0 & Hc0 & -> & ->); [left; reflexivity |].
              right. apply IH. exists f0. auto.
        -- split; [exact Hrest |].
           intros (f0 & [<- | Hin] & He0 & Hc0 & Hp & Hm).
           ++ rewrite Hc in Hc0. injection Hc0 as ->.
              destruct key; discriminate.
           ++ apply IH. exists f0. auto.
      * split; [exact Hrest |].
        intros (f0 & [<- | Hin] & He0 & Hc0 & Hp & Hm); [congruence |].
        apply IH. exists f0. auto.
    + split; [exact Hrest |].
      intros (f0 & [<- | Hin] & He0 & Hc0 & Hp & Hm); [congruence |].
      apply IH. exists f0. auto.
Qed.

Lemma candidates_of_perm (key : category) (l1 l2 : list string) :
  Permutation l1 l2 ->
  Permutation (candidates_of getmtime base_path key l1)
              (candidates_of getmtime base_path key l2).
Proof.
  induction 1 as [| f l1 l2 Hp IH | f g l | l1 l2 l3 H12 IH12 H23 IH23]; simpl.
  - apply perm_nil.
  - destruct (negb (Py.endswith f ".csv")); [exact IH |].
    destruct (classify f) as [c |]; [| exact IH].
    destruct (category_eqb c key); [apply perm_skip, IH | exact IH].
  - destruct (negb (Py.endswith f ".csv")), (negb (Py.endswith g ".csv"));
      try apply Permutation_refl;
      destruct (classify f) as [c |], (classify g) as [c' |];
      try apply Permutation_refl;
      try destruct (category_eqb c key); try destruct (category_eqb c' key);
      try apply Permutation_refl.
    apply perm_swap.
  - eapply perm_trans; eassumption.
Qed.

Lemma files_perm (key : category) (l1 l2 : list string) :
  Permutation l1 l2 ->
  files l1 getmtime base_path key = files l2 getmtime base_path key.
Proof.
  intro Hp. unfold files, candidates.
  pose proof (candidates_of_perm key l1 l2 Hp) as Hc.
  destruct (candidates_of getmtime base_path key l1) as [| c1 r1] eqn:H1.
  - apply Permutation_nil in Hc. rewrite Hc. reflexivity.
  - destruct (candidates_of getmtime base_path key l2) as [| c2 r2] eqn:H2.
    + apply Permutation_sym, Permutation_nil in Hc. discriminate.
    + destruct (sort_reverse_nonempty (c1 :: r1)) as (h1 & t1 & Hs1); [discriminate |].
      destruct (sort_reverse_nonempty (c2 :: r2)) as (h2 & t2 & Hs2); [discriminate |].
      rewrite Hs1, Hs2.
      destruct (sort_reverse_head _ _ _ Hs1) as [Hin1 Hmax1].
      destruct (sort_reverse_head _ _ _ Hs2) as [Hin2 Hmax2].
      assert (H12 : Py.tuple_lt h1 h2 = false).
      { apply Hmax1. eapply Permutation_in; [apply Permutation_sym, Hc | exact Hin2]. }
      assert (H21 : Py.tuple_lt h2 h1 = false).
      { apply Hmax2. eapply Permutation_in; [exact Hc | exact Hin1]. }
      destruct (tuple_lt_neither _ _ H12 H21) as [_ Hs].
      destruct h1, h2. simpl in Hs. subst. reflexivity.
Qed.

End LocatorFacts.

(** C3 (amended).  Among the candidates of a category the locator picks one
    with the latest modification time, and among those with that time the
    one whose path comes last in lexicographic order; it picks none only
    when the category has no candidate. *)
Theorem latest_candidate_last_path :
  forall (listdir : list string) (getmtime : string -> Q) (base_path : string)
         (key : category),
    match files listdir getmtime base_path key with
    | None => candidates listdir getmtime base_path key = []
    | Some full_path =>
        In (getmtime full_path, full_path) (candidates listdir getmtime base_path key) /\
        forall (mtime' : Q) (path' : string),
          In (mtime', path') (candidates listdir getmtime base_path key) ->
          (mtime' <= getmtime full_path)%Q /\
          ((mtime' == getmtime full_path)%Q -> (path' <=? full_path) = true)
    end.
Proof.
  intros listdir getmtime base_path key. unfold files.
  destruct (candidates listdir getmtime base_path key) as [| c r] eqn:Hc;
    [reflexivity |].
  destruct (sort_reverse_nonempty (c :: r)) as ([m p] & tl & Hs); [discriminate |].
  rewrite Hs. destruct (sort_reverse_head _ _ _ Hs) as [Hin Hmax].
  assert (Hm : m = getmtime p).
  { rewrite <- Hc in Hin. unfold candidates in Hin.
    apply candidates_of_In in Hin. destruct Hin as (f & _ & _ & _ & _ & H). exact H. }
  subst m. split; [exact Hin |].
  intros mtime' path' Hin'. specialize (Hmax _ Hin').
  assert (N : ~ ((getmtime p < mtime')%Q \/
                 ((getmtime p == mtime')%Q /\ String.compare p path' = Lt))).
  { change (getmtime p) with (fst (getmtime p, p)).
    change mtime' with (fst (mtime', path')) at 1 2.
    change (String.compare p path') with
      (String.compare (snd (getmtime p, p)) (snd (mtime', path'))).
    rewrite <- tuple_lt_iff. congruence. }
  split.
  - destruct (Qlt_le_dec (getmtime p) mtime'); tauto.
  - intro He. unfold String.leb.
    destruct (String.compare path' p) eqn:Hcmp; try reflexivity.
    exfalso. apply N. right. split; [symmetry; exact He |].
    apply string_compare_gt_lt, Hcmp.
Qed.

(** C3, as stated, fails: two candidates of one category with the same
    modification time, and the path picked is the later of the two in
    lexicographic order, in either order of the directory listing. *)
Lemma tie_picks_last_path :
  candidates ["sync_a.csv"; "sync_b.csv"] Examples.mtime_1 "." Sync
  = [(1%Q, "./sync_a.csv"); (1%Q, "./sync_b.csv")] /\
  ("./sync_a.csv" <? "./sync_b.csv") = true /\
  files ["sync_a.csv"; "sync_b.csv"] Examples.mtime_1 "." Sync = Some "./sync_b.csv" /\
  files ["sync_b.csv"; "sync_a.csv"] Examples.mtime_1 "." Sync = Some "./sync_b.csv".
Proof.
  repeat split; vm_compute; reflexivity.
Qed.

(** ** Label aggregations keep the order of first occurrence *)

Lemma keys_set {V : Type} (k : string) (v : V) (d : Py.dict V) :
  map fst (Py.set k v d) = add_label (map fst d) k.
Proof.
  unfold add_label. induction d as [| [k' v'] d IH]; simpl; [reflexivity |].
  rewrite (String.eqb_sym k k'). destruct (k' =? k); simpl; [reflexivity |].
  rewrite IH. destruct (existsb (String.eqb k) (map fst d)); reflexivity.
Qed.

Lemma keys_incr (k : string) (d : Py.dict nat) :
  map fst (Py.incr k d) = add_label (map fst d) k.
Proof.
  unfold Py.incr. destruct (Py.get d k); apply keys_set.
Qed.

Lemma add_label_idem (keys : list string) (k : string) :
  add_label (add_label keys k) k = add_label keys k.
Proof.
  unfold add_label. destruct (existsb (String.eqb k) keys) eqn:H.
  - rewrite H. reflexivity.
  - rewrite existsb_app. simpl.
    rewrite String.eqb_refl, orb_true_r. reflexivity.
Qed.

Lemma filter_twice {A : Type} (f g : A -> bool) (l : list A) :
  filter f (filter g l) = filter (fun y => g y && f y) l.
Proof.
  induction l as [| a l IH]; simpl; [reflexivity |].
  destruct (g a); simpl; [destruct (f a) |]; rewrite IH; reflexivity.
Qed.

Lemma filter_all {A : Type} (l : list A) : filter (fun _ => true) l = l.
Proof.
  induction l as [| a l IH]; simpl; [| rewrite IH]; reflexivity.
Qed.

Lemma fold_add_label (labels : list string) :
  forall acc : list string,
    fold_left add_label labels acc
    = (acc ++ filter (fun y => negb (existsb (String.eqb y) acc))
                     (first_seen labels))%list.
Proof.
  induction labels as [| x rest IH]; intro acc; simpl.
  - rewrite app_nil_r. reflexivity.
  - rewrite IH. unfold add_label.
    destruct (existsb (String.eqb x) acc) eqn:Hx; simpl.
    + f_equal. rewrite filter_twice. apply filter_ext_in.
      intros y _. destruct (y =? x) eqn:Hy; simpl; [| reflexivity].
      apply String.eqb_eq in Hy. subst y. rewrite Hx. reflexivity.
    + rewrite <- app_assoc. simpl. do 2 f_equal.
      rewrite filter_twice. apply filter_ext.
      intro y. rewrite existsb_app. simpl. rewrite orb_false_r.
      destruct (existsb (String.eqb y) acc), (y =? x); reflexivity.
Qed.

Lemma fold_add_label_first_seen (labels : list string) :
  fold_left add_label labels [] = first_seen labels.
Proof.
  rewrite fold_add_label. simpl. apply filter_all.
Qed.

Lemma sync_rows_keys (reader : list row) :
  forall (markers : list row) (states : Py.dict nat) (ms : list row) (st : Py.dict nat),
    sync_rows markers states reader = Ok (ms, st) ->
    ms = (markers ++ reader)%list /\
    map fst st = fold_left add_label (column "state" reader) (map fst states).
Proof.
  induction reader as [| r rest IH]; intros markers states ms st; simpl.
  - intros [= <- <-]. rewrite app_nil_r. auto.
  - unfold Py.getitem. destruct (Py.get r "state") as [state |]; [| discriminate].
    simpl. intro H. apply IH in H. destruct H as [-> ->].
    rewrite <- app_assoc, keys_incr. auto.
Qed.

Lemma channel_rows_keys (float : string -> option Q) (reader : list row) :
  forall (quality_counts : Py.dict nat) (snr_values : list Q),
    map fst (fst (channel_rows float quality_counts snr_values reader))
    = fold_left add_label (column "quality" reader) (map fst quality_counts).
Proof.
  induction reader as [| r rest IH]; intros quality_counts snr_values; simpl.
  - reflexivity.
  - unfold Py.getitem. destruct (Py.get r "quality") as [quality |]; simpl.
    + destruct (float_of float r "snr_db"); rewrite IH, keys_incr; reflexivity.
    + apply IH.
Qed.

Lemma subcarrier_rows_keys (reader : list row) :
  forall (total matches : nat) (by_expected : Py.dict bucket)
         (total' matches' : nat) (by_expected' : Py.dict bucket),
    subcarrier_rows total matches by_expected reader
    = Ok (total', matches', by_expected') ->
    map fst by_expected'
    = fold_left add_label (column "expected" reader) (map fst by_expected).
Proof.
  induction reader as [| r rest IH];
    intros total matches by_expected total' matches' by_expected'; simpl.
  - intros [= _ _ <-]. reflexivity.
  - unfold Py.getitem. destruct (Py.get r "expected") as [expected |]; [| discriminate].
    simpl. destruct (Py.get r "match") as [matched |]; [| discriminate].
    simpl. destruct (matched =? "YES"); intro H; apply IH in H; rewrite H.
    + rewrite !keys_set, add_label_idem. reflexivity.
    + rewrite keys_set. reflexivity.
Qed.

(** ** The report is a function of the directory *)

(** C10. The report depends on the directory only through its set of
    names, their modification times and the contents of the files: listing
    the names in another order gives the same run, line for line and with
    the same end; and the histograms of state, quality and expected-value
    labels list their labels in the order in which the rows first show
    them. *)
Theorem report_fixed_by_snapshot :
  forall (float : string -> option Q) (read : string -> option (list string))
         (getmtime : string -> Q) (base_path : string) (listdir1 listdir2 : list string),
    Permutation listdir1 listdir2 ->
    print_report float read listdir1 getmtime base_path
    = print_report float read listdir2 getmtime base_path /\
    (forall (info : header_info) (reader : list row) (d : sync_dict),
        analyze_sync_rows float info reader = Ok d ->
        map fst (sync_states d) = first_seen (column "state" reader)) /\
    (forall (info : header_info) (reader : list row),
        map fst (channel_quality (analyze_channel_rows float info reader))
        = first_seen (column "quality" reader)) /\
    (forall (info : header_info) (reader : list row) (d : subcarrier_dict),
        analyze_subcarrier_rows info reader = Ok d ->
        map fst (sub_by_expected d) = first_seen (column "expected" reader)).
Proof.
  intros float read getmtime base_path listdir1 listdir2 Hp.
  split; [| split; [| split]].
  - unfold print_report, report_of.
    rewrite (files_perm getmtime base_path Sync _ _ Hp).
    rewrite (files_perm getmtime base_path Ticks _ _ Hp).
    rewrite (files_perm getmtime base_path Markers _ _ Hp).
    rewrite (files_perm getmtime base_path Channel _ _ Hp).
    rewrite (files_perm getmtime base_path Subcarrier _ _ Hp).
    reflexivity.
  - intros info reader d. unfold analyze_sync_rows.
    destruct (sync_rows [] [] reader) as [[ms st] | e] eqn:Hr; [| discriminate].
    apply sync_rows_keys in Hr. destruct Hr as [-> Hk]. simpl in *.
    rewrite fold_add_label_first_seen in Hk.
    destruct reader as [| r rest].
    + intros [= <-]. reflexivity.
    + destruct (sync_intervals_of float [] (r :: rest)); [| discriminate].
      destruct (first_locked 0 (r :: rest)); [| discriminate].
      destruct (sum_delta_ms float 0 (r :: rest)); [| discriminate].
      intros [= <-]. exact Hk.
  - intros info reader. unfold analyze_channel_rows.
    pose proof (channel_rows_keys float reader [] []) as Hk.
    destruct (channel_rows float [] [] reader) as [qc sv]. simpl in *.
    rewrite Hk. apply fold_add_label_first_seen.
  - intros info reader d. unfold analyze_subcarrier_rows.
    destruct (subcarrier_rows 0 0 [] reader) as [[[t m] be] | e] eqn:Hr;
      [| discriminate].
    apply subcarrier_rows_keys in Hr. simpl in *.
    intros [= <-]. simpl. rewrite Hr. apply fold_add_label_first_seen.
Qed.

Lemma report_fixed_by_snapshot_witness :
  Permutation ["ticks.csv"; "markers.csv"] ["markers.csv"; "ticks.csv"] /\
  print_report decimal Examples.markers_and_tick_dir ["ticks.csv"; "markers.csv"]
               Examples.mtime_1 "."
  = print_report decimal Examples.markers_and_tick_dir ["markers.csv"; "ticks.csv"]
                 Examples.mtime_1 ".".
Proof.
  split.
  - apply perm_swap.
  - exact (proj1 (report_fixed_by_snapshot
                    decimal Examples.markers_and_tick_dir Examples.mtime_1 "."
                    ["ticks.csv"; "markers.csv"] ["markers.csv"; "ticks.csv"]
                    (perm_swap _ _ _))).
Defined.

(** ** Rows with a field that is not a number *)

Section Unparsable.

Variable float : string -> option Q.

Lemma tick_rows_app (reader1 reader2 : list row) :
  forall ticks markers : list row,
    tick_rows ticks markers (reader1 ++ reader2)
    = match tick_rows ticks markers reader1 with
      | Ok (t, m) => tick_rows t m reader2
      | Raise e => Raise e
      end.
Proof.
  induction reader1 as [| r rest IH]; intros ticks markers; simpl; [reflexivity |].
  destruct (Py.getitem r "tick_num") as [tick_num | e]; simpl; [| reflexivity].
  destruct (Py.startswith tick_num "M"); [apply IH |].
  destruct (negb (is_sentinel tick_num)); apply IH.
Qed.

(** The ticks found in [reader] are appended to those found before. *)
Lemma tick_rows_shift (reader : list row) :
  forall (ticks markers ticks' markers' : list row),
    tick_rows ticks markers reader = Ok (ticks', markers') ->
    exists found,
      ticks' = (ticks ++ found)%list /\
      forall ticks0, tick_rows ticks0 markers reader = Ok ((ticks0 ++ found)%list, markers').
Proof.
  induction reader as [| r rest IH]; intros ticks markers ticks' markers'; simpl.
  - intros [= <- <-]. exists []. split; [symmetry; apply app_nil_r |].
    intro ticks0. rewrite app_nil_r. reflexivity.
  - destruct (Py.getitem r "tick_num") as [tick_num | e]; simpl; [| discriminate].
    destruct (Py.startswith tick_num "M"); [apply IH |].
    destruct (negb (is_sentinel tick_num)); [| apply IH].
    intro H. apply IH in H. destruct H as (found & -> & Hall).
    exists (r :: found). split; [rewrite <- app_assoc; reflexivity |].
    intro ticks0. rewrite (Hall (ticks0 ++ [r])%list), <- app_assoc. reflexivity.
Qed.

Lemma tick_intervals_app (ticks1 ticks2 : list row) :
  forall intervals : list Q,
    tick_intervals float intervals (ticks1 ++ ticks2)
    = tick_intervals float (tick_intervals float intervals ticks1) ticks2.
Proof.
  induction ticks1 as [| t rest IH]; intro intervals; simpl; [reflexivity |].
  destruct (float_of float t "interval_ms"); apply IH.
Qed.

(** A tick whose interval does not parse adds nothing to the intervals. *)
Lemma tick_intervals_skip (ticks1 ticks2 : list row) (bad : row) (e : exn) :
  float_of float bad "interval_ms" = Raise e ->
  tick_intervals float [] (ticks1 ++ bad :: ticks2)
  = tick_intervals float [] (ticks1 ++ ticks2).
Proof.
  intro H. rewrite !tick_intervals_app. simpl. rewrite H. reflexivity.
Qed.

Lemma get_set {V : Type} (x : string) (v : V) (d : Py.dict V) (k : string) :
  Py.get (Py.set x v d) k = if k =? x then Some v else Py.get d k.
Proof.
  induction d as [| [k' v'] d IH]; simpl.
  - rewrite (String.eqb_sym x k). reflexivity.
  - destruct (k' =? x) eqn:Hx; simpl.
    + apply String.eqb_eq in Hx. subst k'. rewrite (String.eqb_sym x k).
      destruct (k =? x); reflexivity.
    + destruct (k' =? k) eqn:Hk.
      * apply String.eqb_eq in Hk. subst k'. rewrite Hx. reflexivity.
      * exact IH.
Qed.

Lemma count_of_incr (x : string) (d : Py.dict nat) (k : string) :
  count_of (Py.incr x d) k = (count_of d k + if (k =? x)%string then 1 else 0)%nat.
Proof.
  unfold count_of, Py.incr.
  destruct (Py.get d x) as [n |] eqn:Hx; rewrite get_set;
    destruct (k =? x) eqn:Hk; try lia.
  - apply String.eqb_eq in Hk. subst k. rewrite Hx. lia.
  - apply String.eqb_eq in Hk. subst k. rewrite Hx. lia.
Qed.

Lemma channel_rows_app (reader1 reader2 : list row) :
  forall (quality_counts : Py.dict nat) (snr_values : list Q),
    channel_rows float quality_counts snr_values (reader1 ++ reader2)
    = channel_rows float
        (fst (channel_rows float quality_counts snr_values reader1))
        (snd (channel_rows float quality_counts snr_values reader1)) reader2.
Proof.
  induction reader1 as [| r rest IH]; intros quality_counts snr_values; simpl;
    [reflexivity |].
  destruct (Py.getitem r "quality"); [| apply IH].
  destruct (float_of float r "snr_db"); apply IH.
Qed.

(** Two runs of the channel loop whose histograms differ by [extra] at the
    start differ by [extra] at the end, and collect the same SNR values. *)
Lemma channel_rows_offset (extra : string -> nat) (reader : list row) :
  forall (counts counts' : Py.dict nat) (snr_values : list Q),
    (forall k, count_of counts k = (count_of counts' k + extra k)%nat) ->
    (forall k, count_of (fst (channel_rows float counts snr_values reader)) k
               = (count_of (fst (channel_rows float counts' snr_values reader)) k
                  + extra k)%nat) /\
    snd (channel_rows float counts snr_values reader)
    = snd (channel_rows float counts' snr_values reader).
Proof.
  induction reader as [| r rest IH]; intros counts counts' snr_values H; simpl;
    [auto |].
  destruct (Py.getitem r "quality") as [quality | e]; [| apply IH, H].
  assert (H' : forall k, count_of (Py.incr quality counts) k
                         = (count_of (Py.incr quality counts') k + extra k)%nat).
  { intro k. rewrite !count_of_incr, H. lia. }
  destruct (float_of float r "snr_db"); apply IH, H'.
Qed.

End Unparsable.

(** C5 (amended).  A tick row whose interval is not a number adds nothing
    to the interval statistics of the tick analyzer (the good-interval
    percentage and the mean interval) and leaves the marker list as it is,
    while it is still counted as a tick; a channel row whose SNR is not a
    number adds nothing to the SNR statistics (minimum, maximum, mean),
    while its label is still counted in the quality histogram.  In both
    analyzers the other rows are aggregated as if the row were not there. *)
Theorem unparsable_field_skips_numeric_statistics :
  forall float : string -> option Q,
    (forall (info : header_info) (reader1 reader2 : list row) (bad : row)
            (tick_num : string) (e : exn) (d d' : ticks_dict),
        Py.getitem bad "tick_num" = Ok tick_num ->
        Py.startswith tick_num "M" = false ->
        is_sentinel tick_num = false ->
        float_of float bad "interval_ms" = Raise e ->
        analyze_ticks_rows float info (reader1 ++ bad :: reader2) = Ok d ->
        analyze_ticks_rows float info (reader1 ++ reader2) = Ok d' ->
        tick_count d' <> 0%nat ->
        good_interval_pct d = good_interval_pct d' /\
        mean_interval_ms d = mean_interval_ms d' /\
        ticks_markers d = ticks_markers d' /\
        marker_count d = marker_count d' /\
        tick_count d = S (tick_count d')) /\
    (forall (info : header_info) (reader1 reader2 : list row) (bad : row)
            (quality : string) (e : exn),
        Py.getitem bad "quality" = Ok quality ->
        float_of float bad "snr_db" = Raise e ->
        let d := analyze_channel_rows float info (reader1 ++ bad :: reader2) in
        let d' := analyze_channel_rows float info (reader1 ++ reader2) in
        snr_min d = snr_min d' /\ snr_max d = snr_max d' /\ snr_avg d = snr_avg d' /\
        forall k, count_of (channel_quality d) k
                  = (count_of (channel_quality d') k
                     + if (k =? quality)%string then 1 else 0)%nat).
Proof.
  intro float. split.
  - intros info reader1 reader2 bad tick_num e d d' Hnum Hm Hs Hbad Hd Hd' Hcount.
    unfold analyze_ticks_rows in Hd, Hd'.
    rewrite tick_rows_app in Hd, Hd'.
    destruct (tick_rows [] [] reader1) as [[t1 m1] | e1]; [| discriminate].
    simpl in Hd. rewrite Hnum in Hd. simpl in Hd. rewrite Hm, Hs in Hd. simpl in Hd.
    destruct (tick_rows t1 m1 reader2) as [[t2 m2] | e2] eqn:H2; [| discriminate].
    destruct (tick_rows_shift _ _ _ _ _ H2) as (found & -> & Hall).
    rewrite (Hall (t1 ++ [bad])%list) in Hd. rewrite <- app_assoc in Hd.
    simpl in Hd, Hd'.
    assert (Hi : tick_intervals float [] (t1 ++ bad :: found)
                 = tick_intervals float [] (t1 ++ found)).
    { eapply tick_intervals_skip. exact Hbad. }
    assert (Hlen : List.length (t1 ++ bad :: found) = S (List.length (t1 ++ found))).
    { rewrite !length_app. simpl. lia. }
    destruct (t1 ++ found)%list as [| a l] eqn:Ha.
    + injection Hd' as <-. simpl in Hcount. contradiction.
    + destruct (t1 ++ bad :: found)%list as [| b l'] eqn:Hb; [discriminate |].
      rewrite Hi in Hd.
      destruct (marker_tuples float "tick_num" m2) as [tuples | e3]; [| discriminate].
      simpl in Hd, Hd'. injection Hd as <-. injection Hd' as <-. simpl.
      repeat split; auto.
  - intros info reader1 reader2 bad quality e Hq Hbad. cbv zeta.
    unfold analyze_channel_rows.
    rewrite (channel_rows_app float reader1 (bad :: reader2)).
    rewrite (channel_rows_app float reader1 reader2).
    destruct (channel_rows float [] [] reader1) as [qc1 sv1]. simpl.
    rewrite Hq, Hbad.
    destruct (channel_rows_offset float (fun k => if k =? quality then 1%nat else 0%nat)
                reader2 (Py.incr quality qc1) qc1 sv1) as [Hc Hv].
    { intro k. apply count_of_incr. }
    destruct (channel_rows float (Py.incr quality qc1) sv1 reader2) as [qc sv].
    destruct (channel_rows float qc1 sv1 reader2) as [qc' sv'].
    simpl in *. subst sv'. repeat split; auto.
Qed.

Lemma unparsable_field_witness :
  analyze_ticks_rows decimal Examples.no_info
    ([Examples.tick_row "1" "1000"] ++ Examples.tick_row "2" "abc" :: [])
  = Ok Examples.with_bad_tick /\
  analyze_ticks_rows decimal Examples.no_info ([Examples.tick_row "1" "1000"] ++ [])
  = Ok Examples.without_bad_tick /\
  (good_interval_pct Examples.with_bad_tick
   = good_interval_pct Examples.without_bad_tick /\
   mean_interval_ms Examples.with_bad_tick
   = mean_interval_ms Examples.without_bad_tick /\
   ticks_markers Examples.with_bad_tick = ticks_markers Examples.without_bad_tick /\
   marker_count Examples.with_bad_tick = marker_count Examples.without_bad_tick /\
   tick_count Examples.with_bad_tick = S (tick_count Examples.without_bad_tick)) /\
  snr_avg (analyze_channel_rows decimal Examples.no_info
             ([Examples.channel_row "GOOD" "12"]
                ++ Examples.channel_row "POOR" "abc" :: []))
  = snr_avg (analyze_channel_rows decimal Examples.no_info
               ([Examples.channel_row "GOOD" "12"] ++ [])).
Proof.
  split; [vm_compute; reflexivity |]. split; [vm_compute; reflexivity |]. split.
  - apply (proj1 (unparsable_field_skips_numeric_statistics decimal)
             Examples.no_info [Examples.tick_row "1" "1000"] []
             (Examples.tick_row "2" "abc") "2" (ValueError "abc")).
    + reflexivity.
    + reflexivity.
    + reflexivity.
    + reflexivity.
    + vm_compute. reflexivity.
    + vm_compute. reflexivity.
    + simpl. discriminate.
  - refine (proj1 (proj2 (proj2 (proj2 (unparsable_field_skips_numeric_statistics decimal)
                     Examples.no_info [Examples.channel_row "GOOD" "12"] []
                     (Examples.channel_row "POOR" "abc") "POOR" (ValueError "abc")
                     _ _)))).
    + reflexivity.
    + reflexivity.
Defined.

(** C5, as stated, fails: a tick row and a channel row with a field that is
    not a number are still counted, the one in [tick_count] and the other
    in the quality histogram; in the sync analyzer such a row ends the
    analysis with [ValueError]. *)
Lemma unparsable_rows_still_counted :
  decimal "abc" = None /\
  analyze_ticks_rows decimal Examples.no_info [Examples.tick_row "1" "abc"]
  = Ok {| ticks_info := Examples.no_info; tick_count := 1; marker_count := 0;
          good_interval_pct := Some 0%Q; mean_interval_ms := Some 0%Q;
          ticks_markers := [] |} /\
  channel_quality
    (analyze_channel_rows decimal Examples.no_info [Examples.channel_row "POOR" "abc"])
  = [("POOR", 1%nat)] /\
  analyze_sync_rows decimal Examples.no_info
    [[("state", "LOCKED"); ("interval_sec", "abc"); ("delta_ms", "3")]]
  = Raise (ValueError "abc").
Proof.
  repeat split; vm_compute; reflexivity.
Qed.

(** * Further properties of the analysis tool *)

(** ** The header reader *)

Lemma startswith_hash (l p : string) :
  Py.startswith l "#" = false -> Py.startswith l (String "#" p) = false.
Proof.
  unfold Py.startswith. destruct l as [| a l]; cbn [String.prefix];
    [reflexivity |].
  destruct (ascii_dec "#" a); [| reflexivity].
  destruct l; cbn [String.prefix]; discriminate.
Qed.

Lemma parse_header_lines_prefix (pre post : list string) (l : string) :
  Forall (fun x => Py.startswith x "#" = true) pre ->
  Py.startswith l "#" = false ->
  forall info : header_info,
    parse_header_lines info (pre ++ l :: post) = parse_header_lines info pre.
Proof.
  intros Hpre Hl.
  induction Hpre as [| c pre Hc _ IH]; intro info;
    cbn [app parse_header_lines].
  - rewrite !(startswith_hash l) by exact Hl. reflexivity.
  - destruct (Py.startswith c "# Phoenix SDR").
    + destruct (Py.split c " v") as [| p0 [| p1 ps]]; apply IH.
    + destruct (Py.startswith c "# Started:"); [apply IH |].
      rewrite Hc. cbn [negb]. apply IH.
Qed.

(** X1. The header is a prefix of the file: the header reader stops at the
    first line that does not begin with the comment mark, and nothing from
    that line on, not even a later version or start-time comment, changes
    what it returns. *)
Theorem header_ends_at_first_data_line :
  forall (pre post : list string) (l : string),
    Forall (fun x => Py.startswith x "#" = true) pre ->
    Py.startswith l "#" = false ->
    parse_header (pre ++ l :: post) = parse_header pre.
Proof.
  intros pre post l Hpre Hl. unfold parse_header.
  apply parse_header_lines_prefix; assumption.
Qed.

Lemma header_ends_at_first_data_line_witness :
  parse_header (["# Phoenix SDR v1.0"] ++ "state,interval_sec" :: ["# Started: later"])
  = parse_header ["# Phoenix SDR v1.0"].
Proof.
  apply (header_ends_at_first_data_line
           ["# Phoenix SDR v1.0"] ["# Started: later"] "state,interval_sec").
  - repeat constructor.
  - reflexivity.
Defined.

(** ** The sync analyzer *)

Lemma first_locked_spec (markers : list row) :
  forall (i : nat) (res : option nat),
    first_locked i markers = Ok res ->
    match res with
    | None => forall r, In r markers -> Py.get r "state" <> Some "LOCKED"
    | Some k =>
        (i < k <= i + List.length markers)%nat /\
        (exists r, nth_error markers (k - 1 - i) = Some r /\
                   Py.get r "state" = Some "LOCKED") /\
        forall j r, (j < k - 1 - i)%nat -> nth_error markers j = Some r ->
                    Py.get r "state" <> Some "LOCKED"
    end.
Proof.
  induction markers as [| m rest IH]; intros i res; simpl.
  - intros [= <-]. intros r [].
  - unfold Py.getitem. destruct (Py.get m "state") as [state |] eqn:Hm;
      [| discriminate].
    simpl. destruct (state =? "LOCKED") eqn:Hs.
    + intros [= <-]. apply String.eqb_eq in Hs. subst state.
      replace (i + 1 - 1 - i)%nat with 0%nat by lia.
      split; [lia |]. split; [exists m; auto |]. intros j r Hj. lia.
    + apply String.eqb_neq in Hs. intro H. apply IH in H.
      destruct res as [k |].
      * destruct H as (Hk & (r & Hnth & Hr) & Hbefore).
        split; [lia |].
        replace (k - 1 - i)%nat with (S (k - 1 - S i)) by lia.
        split; [exists r; auto |].
        intros [| j] r' Hj Hnth'; simpl in Hnth'.
        -- injection Hnth' as <-. congruence.
        -- apply (Hbefore j r'); [lia | exact Hnth'].
      * intros r [<- | Hin]; [congruence | apply H, Hin].
Qed.

(** X2. When the sync analyzer succeeds on a log with data rows, its
    [first_locked] is the 1-based number of the first row whose state is
    LOCKED, and is [None] exactly when no row is LOCKED; the key is absent
    only for a log without data rows. *)
Theorem first_locked_is_first_locked_row :
  forall (float : string -> option Q) (info : header_info) (reader : list row)
         (d : sync_dict),
    analyze_sync_rows float info reader = Ok d ->
    match sync_first_locked d with
    | None => reader = []
    | Some None =>
        reader <> [] /\
        forall r, In r reader -> Py.get r "state" <> Some "LOCKED"
    | Some (Some k) =>
        (1 <= k <= List.length reader)%nat /\
        (exists r, nth_error reader (k - 1) = Some r /\
                   Py.get r "state" = Some "LOCKED") /\
        forall j r, (j < k - 1)%nat -> nth_error reader j = Some r ->
                    Py.get r "state" <> Some "LOCKED"
    end.
Proof.
  intros float info reader d. unfold analyze_sync_rows.
  destruct (sync_rows [] [] reader) as [[ms st] | e] eqn:Hr; [| discriminate].
  apply sync_rows_keys in Hr. destruct Hr as [-> _]. simpl.
  destruct reader as [| r0 rest]; [intros [= <-]; reflexivity |].
  destruct (sync_intervals_of float [] (r0 :: rest)); [| discriminate].
  destruct (first_locked 0 (r0 :: rest)) as [locked |] eqn:Hl; [| discriminate].
  destruct (sum_delta_ms float 0 (r0 :: rest)); [| discriminate].
  intros [= <-]. cbn [sync_first_locked].
  apply first_locked_spec in Hl. destruct locked as [k |].
  - destruct Hl as (Hk & Hr & Hbefore).
    rewrite Nat.sub_0_r in Hr, Hbefore. split; [lia | auto].
  - split; [discriminate | exact Hl].
Qed.

Lemma first_locked_witness :
  let reader :=
    [[("state", "SEARCHING"); ("interval_sec", "0"); ("delta_ms", "5")];
     [("state", "LOCKED"); ("interval_sec", "60"); ("delta_ms", "3")]] in
  let d :=
    {| sync_info := Examples.no_info; sync_count := 2;
       sync_states := [("SEARCHING", 1%nat); ("LOCKED", 1%nat)];
       sync_intervals := [60%Q];
       sync_first_locked := Some (Some 2%nat);
       sync_avg_delta_ms := Some (8 # 2)%Q;
       sync_missed := Some 0%nat |} in
  analyze_sync_rows decimal Examples.no_info reader = Ok d /\
  ((1 <= 2 <= List.length reader)%nat /\
   (exists r, nth_error reader (2 - 1) = Some r /\ Py.get r "state" = Some "LOCKED") /\
   forall j r, (j < 2 - 1)%nat -> nth_error reader j = Some r ->
               Py.get r "state" <> Some "LOCKED").
Proof.
  cbv zeta. split; [vm_compute; reflexivity |].
  exact (first_locked_is_first_locked_row decimal Examples.no_info
           [[("state", "SEARCHING"); ("interval_sec", "0"); ("delta_ms", "5")];
            [("state", "LOCKED"); ("interval_sec", "60"); ("delta_ms", "3")]]
           _ eq_refl).
Defined.

(** ** Histograms *)

Lemma dict_sum_set {V : Type} (f : V -> nat) (k : string) (v : V) (d : Py.dict V) :
  (dict_sum f (Py.set k v d)
   + match Py.get d k with Some x => f x | None => 0 end
   = dict_sum f d + f v)%nat.
Proof.
  unfold dict_sum. induction d as [| [k' v'] d IH]; simpl; [lia |].
  destruct (k' =? k); simpl; lia.
Qed.

Lemma dict_sum_incr (k : string) (d : Py.dict nat) :
  dict_sum (fun n => n) (Py.incr k d) = S (dict_sum (fun n => n) d).
Proof.
  unfold Py.incr.
  destruct (Py.get d k) as [n |] eqn:Hk;
    pose proof (dict_sum_set (fun n => n) k (match Py.get d k with
                                             | Some n => S n
                                             | None => 1%nat
                                             end) d) as H;
    rewrite Hk in H; lia.
Qed.

Lemma get_In {V : Type} (d : Py.dict V) (k : string) (v : V) :
  Py.get d k = Some v -> exists k', In (k', v) d.
Proof.
  induction d as [| [k' v'] d IH]; simpl; [discriminate |].
  destruct (k' =? k).
  - intros [= ->]. eauto.
  - intro H. destruct (IH H) as [k0 Hin]. eauto.
Qed.

Lemma Forall_set {V : Type} (P : V -> Prop) (k : string) (v : V) (d : Py.dict V) :
  Forall (fun kv => P (snd kv)) d -> P v ->
  Forall (fun kv => P (snd kv)) (Py.set k v d).
Proof.
  intros Hd Hv. induction Hd as [| [k' v'] d Hkv Hd IH]; simpl.
  - constructor; [exact Hv | constructor].
  - destruct (k' =? k); constructor; auto.
Qed.

(** ** The sync analyzer: counts *)

Lemma sync_rows_counts (reader : list row) :
  forall (markers : list row) (states : Py.dict nat) (ms : list row) (st : Py.dict nat),
    sync_rows markers states reader = Ok (ms, st) ->
    (forall k, count_of st k
               = (count_of states k
                  + count_occ string_dec (column "state" reader) k)%nat) /\
    dict_sum (fun n => n) st
    = (dict_sum (fun n => n) states + List.length reader)%nat.
Proof.
  induction reader as [| r rest IH]; intros markers states ms st; simpl.
  - intros [= _ <-]. split; [intro k |]; lia.
  - unfold Py.getitem. destruct (Py.get r "state") as [state |]; [| discriminate].
    simpl. intro H. apply IH in H. destruct H as [Hc Hs]. split.
    + intro k. rewrite Hc, count_of_incr.
      destruct (string_dec state k) as [-> | Hne].
      * rewrite String.eqb_refl. lia.
      * destruct (k =? state) eqn:Hk; [| lia].
        apply String.eqb_eq in Hk. congruence.
    + rewrite Hs, dict_sum_incr. lia.
Qed.

Lemma sync_intervals_of_positive (float : string -> option Q) (markers : list row) :
  forall intervals res : list Q,
    sync_intervals_of float intervals markers = Ok res ->
    Forall (fun i => (0 < i)%Q) intervals ->
    Forall (fun i => (0 < i)%Q) res /\
    (List.length res <= List.length intervals + List.length markers)%nat.
Proof.
  induction markers as [| m rest IH]; intros intervals res; simpl.
  - intros [= <-]. split; [assumption | lia].
  - destruct (float_of float m "interval_sec") as [interval | e]; [| discriminate].
    simpl. intros H Hpos. destruct (Py.lt 0 interval) eqn:Hlt.
    + apply IH in H.
      * destruct H as [Hres Hlen]. split; [exact Hres |].
        rewrite length_app in Hlen. simpl in Hlen. lia.
      * apply Forall_app. split; [exact Hpos |].
        constructor; [apply lt_iff, Hlt | constructor].
    + apply IH in H; [| exact Hpos]. destruct H as [Hres Hlen]. split; [exact Hres | lia].
Qed.

(** X3. When the sync analyzer succeeds, [count] is the number of data
    rows, the count of each state label is the number of rows with that
    state, the counts of all labels add up to [count], every interval it
    keeps is positive, and [missed] counts some of the kept intervals (it
    is absent only for a log without data rows). *)
Theorem sync_counts_add_up :
  forall (float : string -> option Q) (info : header_info) (reader : list row)
         (d : sync_dict),
    analyze_sync_rows float info reader = Ok d ->
    sync_count d = List.length reader /\
    (forall k, count_of (sync_states d) k
               = count_occ string_dec (column "state" reader) k) /\
    dict_sum (fun n => n) (sync_states d) = List.length reader /\
    Forall (fun i => (0 < i)%Q) (sync_intervals d) /\
    (List.length (sync_intervals d) <= List.length reader)%nat /\
    match sync_missed d with
    | Some m => (m <= List.length (sync_intervals d))%nat
    | None => reader = []
    end.
Proof.
  intros float info reader d. unfold analyze_sync_rows.
  destruct (sync_rows [] [] reader) as [[ms st] | e] eqn:Hr; [| discriminate].
  pose proof (sync_rows_keys _ _ _ _ _ Hr) as [-> _].
  apply sync_rows_counts in Hr. destruct Hr as [Hc Hs]. simpl in *.
  destruct reader as [| r0 rest].
  - intros [= <-]. simpl. repeat split; auto.
  - destruct (sync_intervals_of float [] (r0 :: rest)) as [intervals |] eqn:Hi;
      [| discriminate].
    destruct (first_locked 0 (r0 :: rest)); [| discriminate].
    destruct (sum_delta_ms float 0 (r0 :: rest)); [| discriminate].
    intros [= <-]. cbn [sync_count sync_states sync_intervals sync_missed].
    apply sync_intervals_of_positive in Hi; [| constructor].
    destruct Hi as [Hpos Hlen].
    split; [reflexivity |]. split; [exact Hc |]. split; [exact Hs |].
    split; [exact Hpos |]. split; [exact Hlen |].
    unfold missed. apply filter_length_le.
Qed.

Lemma sync_counts_add_up_witness :
  let reader :=
    [[("state", "LOCKED"); ("interval_sec", "0"); ("delta_ms", "1")];
     [("state", "LOCKED"); ("interval_sec", "95"); ("delta_ms", "1")]] in
  let d :=
    {| sync_info := Examples.no_info; sync_count := 2;
       sync_states := [("LOCKED", 2%nat)]; sync_intervals := [95%Q];
       sync_first_locked := Some (Some 1%nat);
       sync_avg_delta_ms := Some (2 # 2)%Q;
       sync_missed := Some 1%nat |} in
  analyze_sync_rows decimal Examples.no_info reader = Ok d /\
  sync_count d = List.length reader /\
  dict_sum (fun n => n) (sync_states d) = List.length reader.
Proof.
  cbv zeta. split; [vm_compute; reflexivity |].
  pose proof (sync_counts_add_up decimal Examples.no_info
                [[("state", "LOCKED"); ("interval_sec", "0"); ("delta_ms", "1")];
                 [("state", "LOCKED"); ("interval_sec", "95"); ("delta_ms", "1")]]
                _ eq_refl) as (H1 & _ & H3 & _).
  split; [exact H1 | exact H3].
Defined.

(** ** The subcarrier analyzer *)

Lemma pct_bounds (m t : nat) :
  (m <= t)%nat -> (0 < t)%nat ->
  (0 <= 100 * inject_Z (Z.of_nat m) / inject_Z (Z.of_nat t) /\
   100 * inject_Z (Z.of_nat m) / inject_Z (Z.of_nat t) <= 100)%Q.
Proof.
  intros Hm Ht.
  assert (Hpos : (0 < inject_Z (Z.of_nat t))%Q).
  { unfold Qlt, inject_Z. simpl. lia. }
  assert (Hmq : (0 <= inject_Z (Z.of_nat m))%Q).
  { unfold Qle, inject_Z. simpl. lia. }
  assert (Hle : (inject_Z (Z.of_nat m) <= inject_Z (Z.of_nat t))%Q).
  { rewrite <- Zle_Qle. lia. }
  split.
  - apply Qle_shift_div_l; [exact Hpos |]. lra.
  - apply Qle_shift_div_r; [exact Hpos |]. lra.
Qed.

Lemma bucket_of_ok (by_expected : Py.dict bucket) (expected : string) :
  Forall (fun kv => bucket_ok (snd kv)) by_expected ->
  (b_match (bucket_of by_expected expected)
   <= b_total (bucket_of by_expected expected))%nat.
Proof.
  intro H. unfold bucket_of.
  destruct (Py.get by_expected expected) as [b |] eqn:Hg; [| simpl; lia].
  destruct (get_In _ _ _ Hg) as [k' Hin].
  rewrite Forall_forall in H. apply (H _ Hin).
Qed.

Lemma subcarrier_rows_counts (reader : list row) :
  forall (total matches : nat) (by_expected : Py.dict bucket)
         (total' matches' : nat) (by_expected' : Py.dict bucket),
    subcarrier_rows total matches by_expected reader
    = Ok (total', matches', by_expected') ->
    total' = (total + List.length reader)%nat /\
    matches' = (matches + count_occ string_dec (column "match" reader) "YES")%nat /\
    dict_sum b_total by_expected'
    = (dict_sum b_total by_expected + List.length reader)%nat /\
    dict_sum b_match by_expected'
    = (dict_sum b_match by_expected
       + count_occ string_dec (column "match" reader) "YES")%nat /\
    (Forall (fun kv => bucket_ok (snd kv)) by_expected ->
     Forall (fun kv => bucket_ok (snd kv)) by_expected').
Proof.
  induction reader as [| r rest IH];
    intros total matches by_expected total' matches' by_expected'; simpl.
  - intros [= <- <- <-].
    split; [lia |]. split; [lia |]. split; [lia |]. split; [lia | auto].
  - unfold Py.getitem. destruct (Py.get r "expected") as [expected |]; [| discriminate].
    simpl. destruct (Py.get r "match") as [matched |]; [| discriminate].
    simpl.
    pose proof (dict_sum_set b_total expected
                  {| b_total := S (b_total (bucket_of by_expected expected));
                     b_match := b_match (bucket_of by_expected expected) |}
                  by_expected) as Ht1.
    pose proof (dict_sum_set b_match expected
                  {| b_total := S (b_total (bucket_of by_expected expected));
                     b_match := b_match (bucket_of by_expected expected) |}
                  by_expected) as Hm1.
    assert (Hb : match Py.get by_expected expected with
                 | Some x => b_total x
                 | None => 0%nat
                 end = b_total (bucket_of by_expected expected)
                 /\ match Py.get by_expected expected with
                    | Some x => b_match x
                    | None => 0%nat
                    end = b_match (bucket_of by_expected expected)).
    { unfold bucket_of. destruct (Py.get by_expected expected); auto. }
    destruct Hb as [Hb1 Hb2]. rewrite Hb1 in Ht1. rewrite Hb2 in Hm1.
    simpl in Ht1, Hm1.
    destruct (string_dec matched "YES") as [-> | Hne].
    + simpl. intro H. apply IH in H.
      destruct H as (-> & -> & Ht & Hm & Hok).
      set (be1 := Py.set expected
                    {| b_total := S (b_total (bucket_of by_expected expected));
                       b_match := b_match (bucket_of by_expected expected) |}
                    by_expected) in *.
      assert (Hg : Py.get be1 expected
                   = Some {| b_total := S (b_total (bucket_of by_expected expected));
                             b_match := b_match (bucket_of by_expected expected) |}).
      { unfold be1. rewrite get_set, String.eqb_refl. reflexivity. }
      assert (Hbo : bucket_of be1 expected
                    = {| b_total := S (b_total (bucket_of by_expected expected));
                         b_match := b_match (bucket_of by_expected expected) |}).
      { unfold bucket_of. rewrite Hg. reflexivity. }
      rewrite Hbo in *. simpl in *.
      pose proof (dict_sum_set b_total expected
                    {| b_total := S (b_total (bucket_of by_expected expected));
                       b_match := S (b_match (bucket_of by_expected expected)) |}
                    be1) as Ht2.
      pose proof (dict_sum_set b_match expected
                    {| b_total := S (b_total (bucket_of by_expected expected));
                       b_match := S (b_match (bucket_of by_expected expected)) |}
                    be1) as Hm2.
      rewrite Hg in Ht2, Hm2. simpl in Ht2, Hm2.
      split; [lia |]. split; [lia |]. split; [lia |]. split; [lia |].
      intro Hall. apply Hok. apply Forall_set.
      * apply Forall_set; [exact Hall |].
        pose proof (bucket_of_ok by_expected expected Hall).
        unfold bucket_ok. simpl. lia.
      * pose proof (bucket_of_ok by_expected expected Hall).
        unfold bucket_ok. simpl. lia.
    + assert (Hno : (matched =? "YES") = false) by (apply String.eqb_neq; exact Hne).
      rewrite Hno. intro H. apply IH in H.
      destruct H as (-> & -> & Ht & Hm & Hok).
      split; [lia |]. split; [lia |]. split; [lia |]. split; [lia |].
      intro Hall. apply Hok. apply Forall_set; [exact Hall |].
      pose proof (bucket_of_ok by_expected expected Hall).
      unfold bucket_ok. simpl. lia.
Qed.

(** X4. When the subcarrier analyzer succeeds, [total] is the number of
    data rows and [matches] the number of rows whose match field is YES;
    the totals of the buckets add up to [total] and their match counts to
    [matches]; every bucket holds at least one row and no more matches
    than rows; and the overall match percentage lies between 0 and 100. *)
Theorem subcarrier_counts_add_up :
  forall (info : header_info) (reader : list row) (d : subcarrier_dict),
    analyze_subcarrier_rows info reader = Ok d ->
    sub_total d = List.length reader /\
    sub_matches d = count_occ string_dec (column "match" reader) "YES" /\
    dict_sum b_total (sub_by_expected d) = sub_total d /\
    dict_sum b_match (sub_by_expected d) = sub_matches d /\
    (forall k b, Py.get (sub_by_expected d) k = Some b ->
                 (1 <= b_total b)%nat /\ (b_match b <= b_total b)%nat) /\
    (sub_matches d <= sub_total d)%nat /\
    (0 <= sub_match_pct d /\ sub_match_pct d <= 100)%Q.
Proof.
  intros info reader d. unfold analyze_subcarrier_rows.
  destruct (subcarrier_rows 0 0 [] reader) as [[[t m] be] | e] eqn:Hr;
    [| discriminate].
  apply subcarrier_rows_counts in Hr.
  destruct Hr as (-> & -> & Ht & Hm & Hok). simpl in *.
  intros [= <-]. cbn [sub_total sub_matches sub_by_expected sub_match_pct].
  assert (Hle : (count_occ string_dec (column "match" reader) "YES"
                 <= List.length reader)%nat).
  { eapply Nat.le_trans; [apply count_occ_bound |].
    unfold column. clear. induction reader as [| r rest IH]; simpl; [lia |].
    rewrite length_app. destruct (Py.get r "match"); simpl; lia. }
  split; [reflexivity |]. split; [reflexivity |].
  split; [exact Ht |]. split; [exact Hm |]. split; [| split; [exact Hle |]].
  - intros k b Hg. destruct (get_In _ _ _ Hg) as [k' Hin].
    specialize (Hok (Forall_nil _)). rewrite Forall_forall in Hok.
    apply (Hok _ Hin).
  - destruct (List.length reader) as [| n] eqn:Hn.
    + split; apply Qle_refl || (unfold Qle; simpl; lia).
    + apply pct_bounds; lia.
Qed.

Lemma subcarrier_counts_add_up_witness :
  let reader :=
    [[("expected", "ON"); ("match", "YES")];
     [("expected", "ON"); ("match", "NO")];
     [("expected", "OFF"); ("match", "YES")]] in
  let d :=
    {| sub_info := Examples.no_info; sub_total := 3; sub_matches := 2;
       sub_match_pct := (200 # 3)%Q;
       sub_by_expected :=
         [("ON", {| b_total := 2; b_match := 1 |});
          ("OFF", {| b_total := 1; b_match := 1 |})] |} in
  analyze_subcarrier_rows Examples.no_info reader = Ok d /\
  dict_sum b_total (sub_by_expected d) = sub_total d /\
  dict_sum b_match (sub_by_expected d) = sub_matches d.
Proof.
  cbv zeta. split; [vm_compute; reflexivity |].
  pose proof (subcarrier_counts_add_up Examples.no_info
                [[("expected", "ON"); ("match", "YES")];
                 [("expected", "ON"); ("match", "NO")];
                 [("expected", "OFF"); ("match", "YES")]]
                _ eq_refl) as (_ & _ & H3 & H4 & _).
  split; [exact H3 | exact H4].
Defined.

(** ** The channel analyzer *)

Lemma double_leb_refl (x : PrimFloat.float) :
  PrimFloat.is_nan x = false -> PrimFloat.leb x x = true.
Proof.
  intro H. apply double_leb_total; [exact H | exact H | apply double_ltb_irrefl].
Qed.

Lemma double_min_spec (l : list PrimFloat.float) :
  forall first : PrimFloat.float,
    Forall (fun x => PrimFloat.is_nan x = false) (first :: l) ->
    In (Double.min first l) (first :: l) /\
    forall y, In y (first :: l) -> PrimFloat.leb (Double.min first l) y = true.
Proof.
  unfold Double.min. induction l as [| x l IH]; intros first Hn; simpl.
  - split; [auto |]. intros y [<- | []].
    apply double_leb_refl. inversion Hn; assumption.
  - inversion Hn as [| ? ? Hf Hxl]; subst.
    inversion Hxl as [| ? ? Hx Hl]; subst.
    destruct (PrimFloat.ltb x first) eqn:Hlt.
    + destruct (IH x Hxl) as [Hin Hle]. split.
      * destruct Hin as [H | H]; auto.
      * intros y [<- | Hy]; [| apply Hle, Hy].
        eapply double_leb_trans; [apply Hle; left; reflexivity |].
        apply double_ltb_leb, Hlt.
    + destruct (IH first (Forall_cons _ Hf Hl)) as [Hin Hle]. split.
      * destruct Hin as [H | H]; auto.
      * intros y [<- | [<- | Hy]].
        -- apply Hle. left. reflexivity.
        -- eapply double_leb_trans; [apply Hle; left; reflexivity |].
           apply double_leb_total; assumption.
        -- apply Hle. right. exact Hy.
Qed.

Lemma double_max_spec (l : list PrimFloat.float) :
  forall first : PrimFloat.float,
    Forall (fun x => PrimFloat.is_nan x = false) (first :: l) ->
    In (Double.max first l) (first :: l) /\
    forall y, In y (first :: l) -> PrimFloat.leb y (Double.max first l) = true.
Proof.
  unfold Double.max. induction l as [| x l IH]; intros first Hn; simpl.
  - split; [auto |]. intros y [<- | []].
    apply double_leb_refl. inversion Hn; assumption.
  - inversion Hn as [| ? ? Hf Hxl]; subst.
    inversion Hxl as [| ? ? Hx Hl]; subst.
    destruct (PrimFloat.ltb first x) eqn:Hlt.
    + destruct (IH x Hxl) as [Hin Hle]. split.
      * destruct Hin as [H | H]; auto.
      * intros y [<- | Hy]; [| apply Hle, Hy].
        eapply double_leb_trans; [apply double_ltb_leb, Hlt |].
        apply Hle. left. reflexivity.
    + destruct (IH first (Forall_cons _ Hf Hl)) as [Hin Hle]. split.
      * destruct Hin as [H | H]; auto.
      * intros y [<- | [<- | Hy]].
        -- apply Hle. left. reflexivity.
        -- eapply double_leb_trans; [| apply Hle; left; reflexivity].
           apply double_leb_total; assumption.
        -- apply Hle. right. exact Hy.
Qed.

Lemma double_channel_rows_values (float : string -> option PrimFloat.float)
      (reader : list row) :
  (forall r, In r reader -> Py.get r "quality" <> None) ->
  forall (counts : Py.dict nat) (snr_values : list PrimFloat.float)
         (x : PrimFloat.float),
    In x (snd (Double.channel_rows float counts snr_values reader)) <->
    In x snr_values \/
    exists r, In r reader /\ Double.float_of float r "snr_db" = Ok x.
Proof.
  induction reader as [| r rest IH]; intros Hq counts snr_values x; simpl.
  - split; [auto | intros [H | (r & [] & _)]; exact H].
  - assert (Hrest : forall r', In r' rest -> Py.get r' "quality" <> None).
    { intros r' Hr'. apply Hq. right. exact Hr'. }
    specialize (IH Hrest).
    pose proof (Hq r (or_introl eq_refl)) as Hr.
    unfold Py.getitem at 1.
    destruct (Py.get r "quality") as [quality |]; [| contradiction].
    destruct (Double.float_of float r "snr_db") as [snr | e] eqn:Hs; rewrite IH.
    + rewrite in_app_iff. simpl. split.
      * intros [[H | [<- | []]] | (r' & Hin & Hr')]; auto.
        -- right. exists r. auto.
        -- right. exists r'. auto.
      * intros [H | (r' & [<- | Hin] & Hs')]; auto.
        -- rewrite Hs in Hs'. injection Hs' as <-. auto.
        -- right. exists r'. auto.
    + split.
      * intros [H | (r' & Hin & Hr')]; auto. right. exists r'. auto.
      * intros [H | (r' & [<- | Hin] & Hs')]; auto.
        -- rewrite Hs in Hs'. discriminate.
        -- right. exists r'. auto.
Qed.

Lemma double_channel_rows_total (float : string -> option PrimFloat.float)
      (reader : list row) :
  (forall r, In r reader -> Py.get r "quality" <> None) ->
  forall (counts : Py.dict nat) (snr_values : list PrimFloat.float),
    dict_sum (fun n => n)
             (fst (Double.channel_rows float counts snr_values reader))
    = (dict_sum (fun n => n) counts + List.length reader)%nat.
Proof.
  induction reader as [| r rest IH]; intros Hq counts snr_values; simpl; [lia |].
  assert (Hrest : forall r', In r' rest -> Py.get r' "quality" <> None).
  { intros r' Hr'. apply Hq. right. exact Hr'. }
  pose proof (Hq r (or_introl eq_refl)) as Hr.
  unfold Py.getitem at 1.
  destruct (Py.get r "quality") as [quality |]; [| contradiction].
  destruct (Double.float_of float r "snr_db");
    rewrite (IH Hrest), dict_sum_incr; lia.
Qed.

(** X5. In the channel analyzer, on doubles: when every row has a quality
    label and no SNR parses to a NaN, the minimum and the maximum bound the
    SNR of every row where it parses, and each is the SNR of such a row;
    when no SNR parses the three statistics are 0.  The quality counts add
    up to the number of rows. *)
Theorem channel_snr_statistics :
  forall (float : string -> option PrimFloat.float)
         (sum : list PrimFloat.float -> PrimFloat.float)
         (info : header_info) (reader : list row),
    (forall r, In r reader -> Py.get r "quality" <> None) ->
    (forall r x, In r reader -> Double.float_of float r "snr_db" = Ok x ->
                 PrimFloat.is_nan x = false) ->
    let d := Double.analyze_channel_rows float sum info reader in
    (forall r x, In r reader -> Double.float_of float r "snr_db" = Ok x ->
                 PrimFloat.leb (Double.snr_min d) x = true /\
                 PrimFloat.leb x (Double.snr_max d) = true) /\
    ((exists r x, In r reader /\ Double.float_of float r "snr_db" = Ok x) ->
     (exists r, In r reader
                /\ Double.float_of float r "snr_db" = Ok (Double.snr_min d)) /\
     (exists r, In r reader
                /\ Double.float_of float r "snr_db" = Ok (Double.snr_max d))) /\
    ((forall r x, In r reader -> Double.float_of float r "snr_db" <> Ok x) ->
     Double.snr_min d = PrimFloat.zero /\ Double.snr_max d = PrimFloat.zero
     /\ Double.snr_avg d = PrimFloat.zero) /\
    dict_sum (fun n => n) (Double.channel_quality d) = List.length reader.
Proof.
  intros float sum info reader Hq Hnan. cbv zeta.
  unfold Double.analyze_channel_rows.
  pose proof (double_channel_rows_values float reader Hq [] []) as Hv.
  pose proof (double_channel_rows_total float reader Hq [] []) as Ht.
  destruct (Double.channel_rows float [] [] reader) as [qc sv]. simpl in Hv, Ht.
  cbn [Double.channel_quality Double.snr_min Double.snr_max Double.snr_avg].
  assert (Hin : forall x, In x sv <->
                          exists r, In r reader
                                    /\ Double.float_of float r "snr_db" = Ok x).
  { intro x. rewrite Hv. split; [intros [[] | H]; exact H | auto]. }
  clear Hv.
  assert (Hsv : Forall (fun x => PrimFloat.is_nan x = false) sv).
  { apply Forall_forall. intros x Hx. apply Hin in Hx.
    destruct Hx as (r & Hr & Hx). exact (Hnan r x Hr Hx). }
  split; [| split; [| split; [| exact Ht]]].
  - intros r x Hr Hx.
    assert (Hxs : In x sv) by (apply Hin; eauto).
    destruct sv as [| x0 l]; [destruct Hxs |].
    split; [apply double_min_spec | apply double_max_spec]; assumption.
  - intros (r & x & Hr & Hx).
    assert (Hxs : In x sv) by (apply Hin; eauto).
    destruct sv as [| x0 l]; [destruct Hxs |].
    destruct (double_min_spec l x0 Hsv) as [Hmin_in _].
    destruct (double_max_spec l x0 Hsv) as [Hmax_in _].
    split; apply Hin; assumption.
  - intro Hnone. destruct sv as [| x0 l]; [auto |].
    exfalso. destruct (proj1 (Hin x0) (or_introl eq_refl)) as (r & Hr & Hx).
    exact (Hnone r x0 Hr Hx).
Qed.

Lemma channel_snr_statistics_witness :
  let d :=
    Double.analyze_channel_rows Double.float_example Double.sum_left
                                Examples.no_info Double.channel_log in
  Double.snr_min d = Double.example_min /\
  Double.snr_max d = PrimFloat.infinity /\
  Double.channel_quality d = [("GOOD", 3%nat); ("POOR", 1%nat)] /\
  (exists r, In r Double.channel_log
             /\ Double.float_of Double.float_example r "snr_db"
                = Ok (Double.snr_min d)) /\
  dict_sum (fun n => n) (Double.channel_quality d) = 4%nat.
Proof.
  cbv zeta.
  assert (Hq : forall r, In r Double.channel_log -> Py.get r "quality" <> None).
  { intros r [<- | [<- | [<- | [<- | []]]]]; discriminate. }
  assert (Hn : forall r x, In r Double.channel_log ->
                           Double.float_of Double.float_example r "snr_db" = Ok x ->
                           PrimFloat.is_nan x = false).
  { intros r x [<- | [<- | [<- | [<- | []]]]]; vm_compute;
      intro H; try discriminate; injection H as <-; reflexivity. }
  destruct (channel_snr_statistics Double.float_example Double.sum_left
              Examples.no_info Double.channel_log Hq Hn)
    as (_ & Hattained & _ & Htotal).
  destruct Hattained as [Hmin _].
  { exists (Examples.channel_row "GOOD" "12.5"), Double.example_snr.
    split; [left; reflexivity | reflexivity]. }
  split; [vm_compute; reflexivity |]. split; [vm_compute; reflexivity |].
  split; [vm_compute; reflexivity |]. split; [exact Hmin | exact Htotal].
Defined.

(** ** The tick analyzer: classification and statistics *)

Lemma tick_rows_classes (reader : list row) :
  forall (ticks markers ticks' markers' : list row),
    tick_rows ticks markers reader = Ok (ticks', markers') ->
    List.length (column "tick_num" reader) = List.length reader /\
    List.length ticks'
    = (List.length ticks
       + List.length (filter is_tick_id (column "tick_num" reader)))%nat /\
    List.length markers'
    = (List.length markers
       + List.length (filter is_marker_id (column "tick_num" reader)))%nat.
Proof.
  unfold is_tick_id, is_marker_id.
  induction reader as [| r rest IH]; intros ticks markers ticks' markers'; simpl.
  - intros [= <- <-]. repeat split; lia.
  - unfold Py.getitem. destruct (Py.get r "tick_num") as [tick_num |]; [| discriminate].
    simpl.
    destruct (Py.startswith tick_num "M") eqn:Hm; simpl.
    + intro H. apply IH in H. destruct H as (H0 & H1 & H2).
      rewrite length_app in H2. simpl in H2. repeat split; lia.
    + destruct (is_sentinel tick_num); simpl.
      * intro H. apply IH in H. destruct H as (H0 & H1 & H2). repeat split; lia.
      * intro H. apply IH in H. destruct H as (H0 & H1 & H2).
        rewrite length_app in H1. simpl in H1. repeat split; lia.
Qed.

Lemma id_classes_partition (ids : list string) :
  (List.length (filter is_tick_id ids) + List.length (filter is_marker_id ids)
   + List.length (filter is_skipped_id ids) = List.length ids)%nat.
Proof.
  induction ids as [| s ids IH]; simpl; [reflexivity |].
  unfold is_tick_id, is_marker_id, is_skipped_id in *.
  destruct (Py.startswith s "M"), (is_sentinel s); simpl; lia.
Qed.

Lemma marker_tuples_names (float : string -> option Q) (id : string)
      (markers : list row) :
  forall tuples : list marker,
    marker_tuples float id markers = Ok tuples ->
    map m_name tuples = column id markers /\
    List.length tuples = List.length markers.
Proof.
  induction markers as [| m rest IH]; intro tuples; simpl.
  - intros [= <-]. auto.
  - unfold Py.getitem at 1. destruct (Py.get m id) as [name |]; [| discriminate].
    simpl. destruct (float_of float m "timestamp_ms"); [| discriminate].
    simpl. destruct (float_of float m "duration_ms"); [| discriminate].
    simpl. destruct (marker_tuples float id rest) as [tl |]; [| discriminate].
    simpl. intros [= <-]. destruct (IH tl eq_refl) as [Hn Hl].
    simpl. rewrite Hn, Hl. auto.
Qed.

(** X6. When the tick analyzer succeeds, every data row has an identifier
    and falls in exactly one class: [tick_count] is the number of rows
    whose identifier neither begins with M nor is a sentinel,
    [marker_count] the number of rows whose identifier begins with M, the
    rest are skipped, and the three add up to the number of rows.  When
    there is at least one tick the marker list has one entry for each
    marker row. *)
Theorem tick_rows_fall_in_one_class :
  forall (float : string -> option Q) (info : header_info) (reader : list row)
         (d : ticks_dict),
    analyze_ticks_rows float info reader = Ok d ->
    List.length (column "tick_num" reader) = List.length reader /\
    tick_count d = List.length (filter is_tick_id (column "tick_num" reader)) /\
    marker_count d = List.length (filter is_marker_id (column "tick_num" reader)) /\
    (tick_count d + marker_count d
     + List.length (filter is_skipped_id (column "tick_num" reader))
     = List.length reader)%nat /\
    (tick_count d <> 0%nat -> List.length (ticks_markers d) = marker_count d).
Proof.
  intros float info reader d. unfold analyze_ticks_rows.
  destruct (tick_rows [] [] reader) as [[ticks markers] | e] eqn:Hr; [| discriminate].
  apply tick_rows_classes in Hr. destruct Hr as (H0 & H1 & H2).
  pose proof (id_classes_partition (column "tick_num" reader)) as Hp.
  simpl in *. destruct ticks as [| t ticks].
  - intros [= <-]. cbn [tick_count marker_count ticks_markers].
    simpl in H1. repeat split; lia.
  - destruct (marker_tuples float "tick_num" markers) as [tuples |] eqn:Ht;
      [| discriminate].
    intros [= <-]. cbn [tick_count marker_count ticks_markers].
    apply marker_tuples_names in Ht. destruct Ht as [_ Hl].
    simpl in H1 |- *. repeat split; lia.
Qed.

Lemma tick_rows_fall_in_one_class_witness :
  let reader :=
    [Examples.tick_row "M1" "0"; Examples.tick_row "GAIN" "0";
     Examples.tick_row "1" "1000"] in
  let d :=
    {| ticks_info := Examples.no_info; tick_count := 1; marker_count := 1;
       good_interval_pct := Some 100%Q; mean_interval_ms := Some 1000%Q;
       ticks_markers := [("M1", 0%Q, 5%Q)] |} in
  analyze_ticks_rows decimal Examples.no_info reader = Ok d /\
  (tick_count d + marker_count d
   + List.length (filter is_skipped_id (column "tick_num" reader))
   = List.length reader)%nat.
Proof.
  cbv zeta. split; [vm_compute; reflexivity |].
  pose proof (tick_rows_fall_in_one_class decimal Examples.no_info
                [Examples.tick_row "M1" "0"; Examples.tick_row "GAIN" "0";
                 Examples.tick_row "1" "1000"]
                _ eq_refl) as (_ & _ & _ & H & _).
  exact H.
Defined.

(** X7. When the tick analyzer succeeds on a log with ticks, the
    good-interval percentage lies between 0 and 100, and the mean interval
    either lies strictly between 500 and 10000 ms or is 0 together with the
    percentage, which is the case when no tick has a valid interval.  The
    two keys are absent only when there is no tick. *)
Theorem tick_statistics_in_range :
  forall (float : string -> option Q) (info : header_info) (reader : list row)
         (d : ticks_dict),
    analyze_ticks_rows float info reader = Ok d ->
    match good_interval_pct d, mean_interval_ms d with
    | Some pct, Some mean =>
        tick_count d <> 0%nat /\
        (0 <= pct /\ pct <= 100)%Q /\
        ((pct = 0%Q /\ mean = 0%Q) \/ (500 < mean /\ mean < 10000)%Q)
    | None, None => tick_count d = 0%nat
    | _, _ => False
    end.
Proof.
  intros float info reader d. unfold analyze_ticks_rows.
  destruct (tick_rows [] [] reader) as [[ticks markers] | e]; [| discriminate].
  cbn [bind result_monad]. destruct ticks as [| t ticks].
  - intros [= <-]. reflexivity.
  - remember (tick_intervals float [] (t :: ticks)) as intervals eqn:Hi.
    destruct (marker_tuples float "tick_num" markers); [| discriminate].
    cbn [bind result_monad]. intros [= <-].
    cbn [good_interval_pct mean_interval_ms tick_count].
    split; [discriminate |].
    assert (Hv : forall i, In i intervals -> (500 < i /\ i < 10000)%Q).
    { intros i Hin. rewrite Hi in Hin. apply tick_intervals_In in Hin.
      destruct Hin as [[] | (t' & _ & _ & Hvalid)].
      apply valid_interval_iff, Hvalid. }
    clear Hi. destruct intervals as [| x l].
    + split; [split; [apply Qle_refl | unfold Qle; simpl; lia] | auto].
    + split.
      * unfold Py.len. apply pct_bounds; [apply filter_length_le | simpl; lia].
      * right. apply mean_strictly_between. exact Hv.
Qed.

Lemma tick_statistics_in_range_witness :
  analyze_ticks_rows decimal Examples.no_info
    ([Examples.tick_row "1" "1000"] ++ Examples.tick_row "2" "abc" :: [])
  = Ok Examples.with_bad_tick /\
  (tick_count Examples.with_bad_tick <> 0%nat /\
   (0 <= 100 /\ 100 <= 100)%Q /\
   ((100%Q = 0%Q /\ 1000%Q = 0%Q) \/ (500 < 1000 /\ 1000 < 10000)%Q)).
Proof.
  split; [vm_compute; reflexivity |].
  exact (tick_statistics_in_range decimal Examples.no_info
           ([Examples.tick_row "1" "1000"] ++ Examples.tick_row "2" "abc" :: [])
           Examples.with_bad_tick eq_refl).
Defined.

(** ** The marker analyzer *)

Lemma marker_rows_app (reader1 reader2 : list row) :
  forall markers : list row,
    marker_rows markers (reader1 ++ reader2)
    = match marker_rows markers reader1 with
      | Ok ms => marker_rows ms reader2
      | Raise e => Raise e
      end.
Proof.
  induction reader1 as [| r rest IH]; intro markers; simpl; [reflexivity |].
  destruct (Py.getitem r "marker_num") as [marker_num | e]; simpl; [| reflexivity].
  destruct (Py.startswith marker_num "M"); apply IH.
Qed.

Lemma marker_rows_ids (reader : list row) :
  forall markers ms : list row,
    marker_rows markers reader = Ok ms ->
    column "marker_num" ms
    = (column "marker_num" markers
       ++ filter is_marker_id (column "marker_num" reader))%list.
Proof.
  unfold is_marker_id.
  induction reader as [| r rest IH]; intros markers ms; simpl.
  - intros [= <-]. rewrite app_nil_r. reflexivity.
  - unfold Py.getitem. destruct (Py.get r "marker_num") as [marker_num |] eqn:Hg;
      [| discriminate].
    simpl.
    destruct (Py.startswith marker_num "M") eqn:Hm.
    + intro H. apply IH in H. rewrite H.
      unfold column at 1. rewrite flat_map_app. simpl. rewrite Hg.
      rewrite <- app_assoc. reflexivity.
    + apply IH.
Qed.

(** X8. The marker analyzer reads the numeric fields of marker rows only: a
    row whose identifier does not begin with M, whatever its other fields
    hold, leaves the result, or the exception, as it would be without the
    row. *)
Theorem other_rows_of_marker_log_ignored :
  forall (float : string -> option Q) (info : header_info)
         (reader1 reader2 : list row) (r : row) (marker_num : string),
    Py.get r "marker_num" = Some marker_num ->
    Py.startswith marker_num "M" = false ->
    analyze_markers_rows float info (reader1 ++ r :: reader2)
    = analyze_markers_rows float info (reader1 ++ reader2).
Proof.
  intros float info reader1 reader2 r marker_num Hg Hm.
  unfold analyze_markers_rows. rewrite !marker_rows_app.
  destruct (marker_rows [] reader1) as [ms | e]; [| reflexivity].
  simpl. unfold Py.getitem. rewrite Hg. simpl. rewrite Hm. reflexivity.
Qed.

Lemma other_rows_of_marker_log_ignored_witness :
  analyze_markers_rows decimal Examples.no_info
    ([[("marker_num", "M1"); ("timestamp_ms", "1050"); ("duration_ms", "800")]]
       ++ [("marker_num", "T7"); ("timestamp_ms", "n/a"); ("duration_ms", "")] :: [])
  = analyze_markers_rows decimal Examples.no_info
      ([[("marker_num", "M1"); ("timestamp_ms", "1050"); ("duration_ms", "800")]]
         ++ []).
Proof.
  apply (other_rows_of_marker_log_ignored decimal Examples.no_info
           [[("marker_num", "M1"); ("timestamp_ms", "1050"); ("duration_ms", "800")]]
           [] [("marker_num", "T7"); ("timestamp_ms", "n/a"); ("duration_ms", "")]
           "T7").
  - reflexivity.
  - reflexivity.
Defined.

(** X9. When the marker analyzer succeeds, its marker list names, in the
    order of the rows, exactly the identifiers that begin with M, and
    [count] is the length of that list. *)
Theorem marker_list_is_the_marker_rows :
  forall (float : string -> option Q) (info : header_info) (reader : list row)
         (d : markers_dict),
    analyze_markers_rows float info reader = Ok d ->
    map m_name (markers_markers d)
    = filter is_marker_id (column "marker_num" reader) /\
    markers_count d = List.length (markers_markers d).
Proof.
  intros float info reader d. unfold analyze_markers_rows.
  destruct (marker_rows [] reader) as [ms | e] eqn:Hr; [| discriminate].
  simpl. destruct (marker_tuples float "marker_num" ms) as [tuples |] eqn:Ht;
    [| discriminate].
  intros [= <-]. cbn [markers_markers markers_count].
  apply marker_tuples_names in Ht. destruct Ht as [Hn Hl].
  apply marker_rows_ids in Hr. simpl in Hr.
  rewrite Hn, Hr, Hl. auto.
Qed.

Lemma marker_list_is_the_marker_rows_witness :
  let reader :=
    [[("marker_num", "M1"); ("timestamp_ms", "1050"); ("duration_ms", "800")];
     [("marker_num", "T7"); ("timestamp_ms", "n/a"); ("duration_ms", "")];
     [("marker_num", "M2"); ("timestamp_ms", "61050"); ("duration_ms", "800")]] in
  let d :=
    {| markers_info := Examples.no_info; markers_count := 2;
       markers_markers := [("M1", 1050%Q, 800%Q); ("M2", 61050%Q, 800%Q)] |} in
  analyze_markers_rows decimal Examples.no_info reader = Ok d /\
  map m_name (markers_markers d) = filter is_marker_id (column "marker_num" reader) /\
  markers_count d = List.length (markers_markers d).
Proof.
  cbv zeta. split; [vm_compute; reflexivity |].
  exact (marker_list_is_the_marker_rows decimal Examples.no_info
           [[("marker_num", "M1"); ("timestamp_ms", "1050"); ("duration_ms", "800")];
            [("marker_num", "T7"); ("timestamp_ms", "n/a"); ("duration_ms", "")];
            [("marker_num", "M2"); ("timestamp_ms", "61050"); ("duration_ms", "800")]]
           _ eq_refl).
Defined.

(** ** The log locator: what it can pick *)

(** X10. The file picked for a category is a name of the directory listing
    that ends in [.csv] and that the classification chain puts in that
    category, joined to the base path; no file is picked exactly when the
    listing has no such name. *)
Theorem locator_picks_csv_of_category :
  forall (listdir : list string) (getmtime : string -> Q) (base_path : string)
         (key : category),
    match files listdir getmtime base_path key with
    | Some full_path =>
        exists f, In f listdir /\ Py.endswith f ".csv" = true /\
                  classify f = Some key /\ full_path = path_join base_path f
    | None =>
        forall f, In f listdir -> Py.endswith f ".csv" = true ->
                  classify f <> Some key
    end.
Proof.
  intros listdir getmtime base_path key. unfold files.
  destruct (candidates listdir getmtime base_path key) as [| c r] eqn:Hc.
  - intros f Hin He Hk.
    assert (H : In (getmtime (path_join base_path f), path_join base_path f)
                   (candidates listdir getmtime base_path key)).
    { unfold candidates. apply candidates_of_In. exists f. auto. }
    rewrite Hc in H. destruct H.
  - destruct (sort_reverse_nonempty (c :: r)) as ([m p] & tl & Hs); [discriminate |].
    rewrite Hs. destruct (sort_reverse_head _ _ _ Hs) as [Hin _].
    rewrite <- Hc in Hin. unfold candidates in Hin.
    apply candidates_of_In in Hin.
    destruct Hin as (f & Hf & He & Hk & Hp & _). exists f. auto.
Qed.

(** ** The report without logs *)

Lemma candidates_of_no_csv (getmtime : string -> Q) (base_path : string)
      (key : category) (names : list string) :
  (forall f, In f names -> Py.endswith f ".csv" = false) ->
  candidates_of getmtime base_path key names = [].
Proof.
  induction names as [| f rest IH]; intro H; simpl; [reflexivity |].
  rewrite (H f (or_introl eq_refl)). simpl. apply IH.
  intros g Hg. apply H. right. exact Hg.
Qed.

(** X11. When the directory holds no name that ends in [.csv], no file is
    looked at: the report is the title between its rules and the closing
    rule, and the run ends normally. *)
Theorem report_without_logs :
  forall (float : string -> option Q) (read : string -> option (list string))
         (listdir : list string) (getmtime : string -> Q) (base_path : string),
    (forall f, In f listdir -> Py.endswith f ".csv" = false) ->
    (forall key, files listdir getmtime base_path key = None) /\
    print_report float read listdir getmtime base_path
    = ([Rule; Title; Rule; EndRule], Ok tt) /\
    exit_status (print_report float read listdir getmtime base_path) = 0%Z.
Proof.
  intros float read listdir getmtime base_path H.
  assert (Hf : forall key, files listdir getmtime base_path key = None).
  { intro key. unfold files, candidates.
    rewrite (candidates_of_no_csv getmtime base_path key listdir H). reflexivity. }
  assert (Hr : print_report float read listdir getmtime base_path
               = ([Rule; Title; Rule; EndRule], Ok tt)).
  { unfold print_report, report_of. rewrite !Hf. reflexivity. }
  split; [exact Hf |]. split; [exact Hr |]. rewrite Hr. reflexivity.
Qed.

Lemma report_without_logs_witness :
  print_report decimal Examples.meta_dir ["notes.txt"; "sync_log.csv.bak"]
               Examples.mtime_1 "."
  = ([Rule; Title; Rule; EndRule], Ok tt).
Proof.
  apply (report_without_logs decimal Examples.meta_dir
                             ["notes.txt"; "sync_log.csv.bak"]
                             Examples.mtime_1 ".").
  intros f [<- | [<- | []]]; reflexivity.
Defined.

(** ** The correlation matcher: display and bounds *)

Lemma match_tick_display (marker_list : list marker) (st : matcher) (t : marker) :
  let st' := match_tick marker_list st t in
  ((displayed st < display_limit)%nat ->
   displayed st' = S (displayed st) /\
   List.length (printed st') = S (List.length (printed st))) /\
  ((display_limit <= displayed st)%nat ->
   displayed st' = displayed st /\ printed st' = printed st).
Proof.
  cbv zeta. unfold match_tick.
  destruct (closest (used_markers st) marker_list (m_time t)) as [[[i m] |] d];
    cbn [displayed printed]; split; intro H.
  - apply Nat.ltb_lt in H. rewrite H, length_app. simpl. lia.
  - apply Nat.ltb_ge in H. rewrite H. auto.
  - apply Nat.ltb_lt in H. rewrite H, length_app. simpl. lia.
  - apply Nat.ltb_ge in H. rewrite H. auto.
Qed.

Lemma match_ticks_display (marker_list : list marker) (tick_list : list marker) :
  forall st : matcher,
    let st' := match_ticks marker_list tick_list st in
    ((displayed st <= display_limit)%nat ->
     displayed st' = Nat.min (displayed st + List.length tick_list) display_limit /\
     (List.length (printed st') + displayed st
      = List.length (printed st) + displayed st')%nat) /\
    ((display_limit <= displayed st)%nat -> printed st' = printed st).
Proof.
  unfold match_ticks.
  induction tick_list as [| t rest IH]; intro st; simpl.
  - split; [intro H; split; lia | auto].
  - destruct (match_tick_display marker_list st t) as [Hlt Hge].
    destruct (IH (match_tick marker_list st t)) as [IH1 IH2]. simpl in *.
    split.
    + intro Hle. destruct (Nat.eq_dec (displayed st) display_limit) as [He | Hne].
      * destruct Hge as [Hd Hp]; [lia |].
        destruct IH1 as [Hd' Hl']; [lia |].
        rewrite Hd', Hd. rewrite Hp in Hl'. split; lia.
      * destruct Hlt as [Hd Hp]; [lia |].
        destruct IH1 as [Hd' Hl']; [lia |].
        rewrite Hd'. split; lia.
    + intro Hle. destruct Hge as [Hd Hp]; [exact Hle |].
      rewrite IH2 by lia. exact Hp.
Qed.

(** X12. The loop of the correlation check prints one line for each of the
    first 20 tick-markers, in their order, and none after: [displayed] is
    the smaller of 20 and the number of tick-markers, and the lines are
    those of a run on the first 20 tick-markers alone. *)
Theorem display_stops_at_limit :
  forall ticks_m markers_m : list marker,
    let tick_list := Py.sorted m_time ticks_m in
    let marker_list := Py.sorted m_time markers_m in
    let st := correlate ticks_m markers_m in
    displayed st = Nat.min (List.length ticks_m) display_limit /\
    List.length (printed st) = displayed st /\
    printed st
    = printed (match_ticks marker_list (firstn display_limit tick_list) matcher_start).
Proof.
  intros ticks_m markers_m. cbv zeta. unfold correlate.
  set (ml := Py.sorted m_time markers_m).
  set (tl := Py.sorted m_time ticks_m).
  assert (Hlen : List.length tl = List.length ticks_m) by apply sort_by_length.
  destruct (match_ticks_display ml tl matcher_start) as [[Hd Hp] _];
    [simpl; unfold display_limit; lia |].
  simpl in Hd, Hp. rewrite Hlen in Hd.
  split; [exact Hd |]. split; [lia |].
  rewrite <- (firstn_skipn display_limit tl) at 1.
  unfold match_ticks. rewrite fold_left_app.
  fold (match_ticks ml (firstn display_limit tl) matcher_start).
  fold (match_ticks ml (skipn display_limit tl)
                    (match_ticks ml (firstn display_limit tl) matcher_start)).
  destruct (match_ticks_display ml (firstn display_limit tl) matcher_start)
    as [[Hd1 _] _]; [simpl; unfold display_limit; lia |].
  cbn [displayed matcher_start Nat.add] in Hd1. rewrite length_firstn in Hd1.
  destruct (Nat.le_gt_cases display_limit (List.length tl)) as [Hge | Hlt].
  - apply match_ticks_display. lia.
  - rewrite skipn_all2 by lia. reflexivity.
Qed.

Lemma match_ticks_used_nodup (marker_list : list marker) (tick_list : list marker) :
  forall st : matcher,
    NoDup (used_markers st) ->
    NoDup (used_markers (match_ticks marker_list tick_list st)).
Proof.
  unfold match_ticks.
  induction tick_list as [| t rest IH]; intros st H; simpl; [exact H |].
  apply IH.
  destruct (closest (used_markers st) marker_list (m_time t))
    as [[[i m] |] d] eqn:Hc.
  - destruct (match_tick_some _ _ _ _ _ _ Hc) as (_ & _ & ->).
    apply set_add_nodup, H.
  - destruct (match_tick_none _ _ _ _ Hc) as (_ & _ & ->). exact H.
Qed.

(** X13. The correlation matcher never pairs more than either list holds:
    the used set has no index twice and only indices of the marker list,
    so [correlated] is at most the number of tick-markers and at most the
    number of markers, and [marker_only] is never negative. *)
Theorem correlated_within_both_lists :
  forall ticks_m markers_m : list marker,
    let st := correlate ticks_m markers_m in
    NoDup (used_markers st) /\
    (forall i, In i (used_markers st) -> (i < List.length markers_m)%nat) /\
    (correlated st <= List.length ticks_m)%nat /\
    (correlated st <= List.length markers_m)%nat /\
    (0 <= marker_only (Py.sorted m_time markers_m) st)%Z.
Proof.
  intros ticks_m markers_m. cbv zeta. unfold correlate, marker_only.
  set (ml := Py.sorted m_time markers_m).
  set (tl := Py.sorted m_time ticks_m).
  assert (Hml : List.length ml = List.length markers_m) by apply sort_by_length.
  assert (Htl : List.length tl = List.length ticks_m) by apply sort_by_length.
  assert (Hnd : NoDup (used_markers (match_ticks ml tl matcher_start))).
  { apply match_ticks_used_nodup. constructor. }
  destruct (pairs_spec ml tl matcher_start 0) as (Hin & _ & _ & Hused & _).
  destruct (match_ticks_counts ml tl matcher_start) as [Hc1 Hc2].
  simpl in Hc1, Hc2, Hused.
  assert (Hb : forall i, In i (used_markers (match_ticks ml tl matcher_start)) ->
                         (i < List.length ml)%nat).
  { intros i Hi. apply Hused in Hi. destruct Hi as [[] | Hi].
    apply in_map_iff in Hi. destruct Hi as ([k i'] & Heq & Hp). simpl in Heq. subst i'.
    apply Hin in Hp. tauto. }
  assert (Hle : (List.length (used_markers (match_ticks ml tl matcher_start))
                 <= List.length ml)%nat).
  { rewrite <- (length_seq (List.length ml) 0).
    apply NoDup_incl_length; [exact Hnd |].
    intros i Hi. apply in_seq. specialize (Hb i Hi). lia. }
  split; [exact Hnd |]. split; [intros i Hi; rewrite <- Hml; apply Hb, Hi |].
  split; [lia |]. split; lia.
Qed.

(** * Properties of the I/Q streaming test client *)

(** ** Little-endian integers *)

Lemma le_uint_bounds (b : IqClient.bytes) :
  (0 <= IqClient.le_uint b < 256 ^ Z.of_nat (List.length b))%Z.
Proof.
  induction b as [| x b IH]; [simpl; lia |].
  cbn [IqClient.le_uint List.length]. rewrite Nat2Z.inj_succ, Z.pow_succ_r by lia.
  pose proof (Byte.to_N_bounded x) as Hx.
  assert (0 <= Z.of_N (Byte.to_N x) <= 255)%Z by lia.
  lia.
Qed.

Lemma le_uint_app (a b : IqClient.bytes) :
  IqClient.le_uint (a ++ b)%list
  = (IqClient.le_uint a + 256 ^ Z.of_nat (List.length a) * IqClient.le_uint b)%Z.
Proof.
  induction a as [| x a IH].
  { cbn [IqClient.le_uint List.length app]. change (Z.of_nat 0) with 0%Z.
    rewrite Z.pow_0_r. lia. }
  cbn [IqClient.le_uint List.length app]. rewrite IH.
  rewrite Nat2Z.inj_succ, Z.pow_succ_r by lia. ring.
Qed.

Lemma lor_shiftl_32 (lo hi : Z) :
  (0 <= lo < 2 ^ 32)%Z ->
  Z.lor lo (Z.shiftl hi 32) = (lo + 2 ^ 32 * hi)%Z.
Proof.
  intro Hlo.
  assert (Hland : Z.land lo (Z.shiftl hi 32) = 0%Z).
  { apply Z.bits_inj'. intros n Hn. rewrite Z.land_spec, Z.bits_0.
    destruct (Z.lt_ge_cases n 32) as [Hlt | Hge].
    - rewrite Z.shiftl_spec_low by exact Hlt. apply andb_false_r.
    - assert (Z.testbit lo n = false) as ->; [| reflexivity].
      destruct (Z.eq_dec lo 0) as [-> | Hne]; [apply Z.bits_0 |].
      apply Z.bits_above_log2; [lia |].
      assert (Z.log2 lo < 32)%Z by (apply Z.log2_lt_pow2; lia). lia. }
  pose proof (Z.add_lor_land lo (Z.shiftl hi 32)) as H.
  rewrite Hland in H. rewrite Z.shiftl_mul_pow2 in H |- * by lia. lia.
Qed.

(** X14. The two 32-bit halves that the client unpacks from bytes 16 to 23
    of the stream header are unsigned 32-bit values, and joining them with
    a shift and a bitwise or gives the 64-bit little-endian value of those
    eight bytes, below 2^64. *)
Theorem center_freq_is_le_uint64 :
  forall (b : IqClient.bytes) (freq_lo freq_hi : Z),
    IqClient.unpack_II b = Some (freq_lo, freq_hi) ->
    List.length b = 8%nat /\
    (0 <= freq_lo < 2 ^ 32)%Z /\ (0 <= freq_hi < 2 ^ 32)%Z /\
    IqClient.center_freq_of freq_lo freq_hi = IqClient.le_uint b /\
    (0 <= IqClient.center_freq_of freq_lo freq_hi < 2 ^ 64)%Z.
Proof.
  intros b freq_lo freq_hi. unfold IqClient.unpack_II.
  destruct (List.length b =? 8)%nat eqn:Hlen; [| discriminate].
  apply Nat.eqb_eq in Hlen. intros [= <- <-].
  assert (H4 : List.length (firstn 4 b) = 4%nat) by (rewrite length_firstn; lia).
  assert (H4' : List.length (firstn 4 (skipn 4 b)) = 4%nat).
  { rewrite length_firstn, length_skipn. lia. }
  assert (Hs : firstn 4 (skipn 4 b) = skipn 4 b).
  { apply firstn_all2. rewrite length_skipn. lia. }
  pose proof (le_uint_bounds (firstn 4 b)) as Hlo.
  pose proof (le_uint_bounds (firstn 4 (skipn 4 b))) as Hhi.
  rewrite H4 in Hlo. rewrite H4' in Hhi.
  change (256 ^ Z.of_nat 4)%Z with (2 ^ 32)%Z in Hlo, Hhi.
  assert (Heq : IqClient.center_freq_of (IqClient.le_uint (firstn 4 b))
                                        (IqClient.le_uint (firstn 4 (skipn 4 b)))
                = IqClient.le_uint b).
  { unfold IqClient.center_freq_of. rewrite lor_shiftl_32 by exact Hlo.
    rewrite <- (firstn_skipn 4 b) at 3. rewrite le_uint_app, H4, Hs.
    reflexivity. }
  split; [exact Hlen |]. split; [exact Hlo |]. split; [exact Hhi |].
  split; [exact Heq |].
  pose proof (le_uint_bounds b) as Hb. rewrite Hlen in Hb.
  change (256 ^ Z.of_nat 8)%Z with (2 ^ 64)%Z in Hb.
  rewrite <- Heq in Hb. exact Hb.
Qed.

Lemma center_freq_witness :
  IqClient.unpack_II [Byte.x00; Byte.xe1; Byte.xf5; Byte.x05; Byte.x01; Byte.x00; Byte.x00; Byte.x00]
  = Some (100000000%Z, 1%Z) /\
  IqClient.center_freq_of 100000000 1 = 4394967296%Z.
Proof.
  split; [vm_compute; reflexivity |].
  destruct (center_freq_is_le_uint64
              [Byte.x00; Byte.xe1; Byte.xf5; Byte.x05; Byte.x01; Byte.x00; Byte.x00; Byte.x00]
              100000000%Z 1%Z eq_refl) as (_ & _ & _ & H & _).
  rewrite H. vm_compute. reflexivity.
Defined.

(** ** Receiving *)

Lemma recv_spec (bufsize : nat) (s : IqClient.socket) :
  (List.length (fst (IqClient.recv bufsize s)) <= bufsize)%nat /\
  List.concat s
  = (fst (IqClient.recv bufsize s) ++ List.concat (snd (IqClient.recv bufsize s)))%list /\
  ((0 < bufsize)%nat -> fst (IqClient.recv bufsize s) = [] ->
   List.concat (snd (IqClient.recv bufsize s)) = []).
Proof.
  induction s as [| chunk rest IH]; [simpl; repeat split; auto; lia |].
  destruct chunk as [| x chunk]; [exact IH |].
  cbn [IqClient.recv].
  destruct (List.length (x :: chunk) <=? bufsize)%nat eqn:Hle; cbn [fst snd].
  - apply Nat.leb_le in Hle. split; [exact Hle |]. split; [reflexivity |].
    discriminate.
  - apply Nat.leb_gt in Hle. split; [rewrite length_firstn; lia |]. split.
    + cbn [List.concat]. rewrite app_assoc, firstn_skipn. reflexivity.
    + intro Hpos. destruct bufsize; [lia | discriminate].
Qed.

Lemma read_data_spec (fuel : nat) :
  forall (data_size : nat) (data : IqClient.bytes) (iq : IqClient.socket),
    (List.length data <= data_size)%nat ->
    (data_size - List.length data <= fuel)%nat ->
    (List.length (fst (IqClient.read_data fuel data_size data iq)) <= data_size)%nat /\
    (data ++ List.concat iq)%list
    = (fst (IqClient.read_data fuel data_size data iq)
       ++ List.concat (snd (IqClient.read_data fuel data_size data iq)))%list /\
    ((List.length (fst (IqClient.read_data fuel data_size data iq)) < data_size)%nat ->
     List.concat (snd (IqClient.read_data fuel data_size data iq)) = []) /\
    forall extra : nat,
      IqClient.read_data (fuel + extra) data_size data iq
      = IqClient.read_data fuel data_size data iq.
Proof.
  induction fuel as [| fuel IH]; intros data_size data iq Hlen Hfuel.
  - cbn [IqClient.read_data fst snd Nat.add].
    split; [exact Hlen |]. split; [reflexivity |]. split; [lia |].
    intros [| extra]; [reflexivity |]. cbn [IqClient.read_data].
    assert ((List.length data <? data_size)%nat = false) as ->
      by (apply Nat.ltb_ge; lia).
    reflexivity.
  - cbn [IqClient.read_data Nat.add].
    destruct (List.length data <? data_size)%nat eqn:Hlt.
    + apply Nat.ltb_lt in Hlt.
      destruct (recv_spec (data_size - List.length data) iq) as (Hc & Heq & Heof).
      destruct (IqClient.recv (data_size - List.length data) iq) as [chunk iq1].
      cbn [fst snd] in Hc, Heq, Heof.
      destruct chunk as [| x chunk].
      * cbn [fst snd]. split; [exact Hlen |]. split; [rewrite Heq; reflexivity |].
        split; [intros _; apply Heof; [lia | reflexivity] |]. reflexivity.
      * assert (Hlen' : (List.length (data ++ x :: chunk) <= data_size)%nat).
        { rewrite length_app. lia. }
        assert (Hfuel' : (data_size - List.length (data ++ x :: chunk) <= fuel)%nat).
        { rewrite length_app. simpl. lia. }
        destruct (IH data_size (data ++ x :: chunk)%list iq1 Hlen' Hfuel')
          as (H1 & H2 & H3 & H4).
        split; [exact H1 |]. split; [| split; [exact H3 | exact H4]].
        rewrite <- H2, Heq, app_assoc. reflexivity.
    + cbn [fst snd]. split; [exact Hlen |]. split; [reflexivity |].
      apply Nat.ltb_ge in Hlt. split; [lia | reflexivity].
Qed.

(** X15. The loop that reads the samples of a frame ends within as many
    turns as the frame has bytes, so that more turns would change nothing;
    it returns at most [data_size] bytes, which are the next bytes of the
    stream in order with nothing lost, and it returns fewer only when the
    peer has closed the stream. *)
Theorem frame_data_is_next_bytes :
  forall (data_size : nat) (iq : IqClient.socket),
    let data := fst (IqClient.read_data data_size data_size [] iq) in
    let iq' := snd (IqClient.read_data data_size data_size [] iq) in
    (List.length data <= data_size)%nat /\
    List.concat iq = (data ++ List.concat iq')%list /\
    ((List.length data < data_size)%nat -> List.concat iq' = []) /\
    forall extra : nat,
      IqClient.read_data (data_size + extra) data_size [] iq
      = IqClient.read_data data_size data_size [] iq.
Proof.
  intros data_size iq. cbv zeta.
  apply (read_data_spec data_size data_size [] iq); simpl; lia.
Qed.

(** ** The frames and the run *)

Lemma frame_data_bounds (data_size : nat) (iq : IqClient.socket) :
  (List.length (fst (IqClient.read_data data_size data_size [] iq)) <= data_size)%nat /\
  List.concat iq
  = (fst (IqClient.read_data data_size data_size [] iq)
     ++ List.concat (snd (IqClient.read_data data_size data_size [] iq)))%list.
Proof.
  destruct (read_data_spec data_size data_size [] iq) as (H1 & H2 & _);
    [simpl; lia | lia |].
  split; [exact H1 | exact H2].
Qed.

Lemma recv_exact (n : nat) (s : IqClient.socket) :
  (List.length (fst (IqClient.recv n s)) <? n)%nat = false ->
  List.length (fst (IqClient.recv n s)) = n.
Proof.
  intro H. apply Nat.ltb_ge in H.
  destruct (recv_spec n s) as [Hle _]. lia.
Qed.

Lemma read_frames_succeeds (range : list nat) :
  forall (iq : IqClient.socket) (out : list IqClient.line),
  exists iq' added,
    IqClient.read_frames range iq out = Some (iq', (out ++ added)%list) /\
    (List.length added <= List.length range)%nat /\
    (exists consumed, List.concat iq = (consumed ++ List.concat iq')%list) /\
    Forall (fun l => match l with
                     | IqClient.Frame _ _ num_samples _ data_len =>
                         (0 <= num_samples < 2 ^ 32)%Z /\
                         (Z.of_nat data_len <= 4 * num_samples)%Z
                     | IqClient.FrameShort _ n => (n < 16)%nat
                     | IqClient.FrameBadMagic _ magic => magic <> IqClient.MAGIC_DATA
                     | _ => False
                     end) added.
Proof.
  induction range as [| i rest IH]; intros iq out.
  - exists iq, []. cbn [IqClient.read_frames]. rewrite app_nil_r.
    split; [reflexivity |]. split; [simpl; lia |].
    split; [exists []; reflexivity | constructor].
  - cbn [IqClient.read_frames].
    destruct (recv_spec 16 iq) as (_ & Heq & _).
    pose proof (recv_exact 16 iq) as Hex.
    destruct (IqClient.recv 16 iq) as [frame_hdr iq1]. cbn [fst snd] in Heq, Hex.
    destruct (List.length frame_hdr <? 16)%nat eqn:Hshort.
    + exists iq1, [IqClient.FrameShort i (List.length frame_hdr)].
      split; [reflexivity |]. split; [simpl; lia |].
      split; [exists frame_hdr; exact Heq |].
      constructor; [apply Nat.ltb_lt, Hshort | constructor].
    + specialize (Hex eq_refl). unfold IqClient.unpack_IIII. rewrite Hex.
      cbn [Nat.eqb].
      set (magic := IqClient.le_uint (firstn 4 frame_hdr)).
      set (seq := IqClient.le_uint (firstn 4 (skipn 4 frame_hdr))).
      set (num_samples := IqClient.le_uint (firstn 4 (skipn 8 frame_hdr))).
      set (flags := IqClient.le_uint (firstn 4 (skipn 12 frame_hdr))).
      destruct (magic =? IqClient.MAGIC_DATA)%Z eqn:Hmagic; cbn [negb].
      * assert (Hn : (0 <= num_samples < 2 ^ 32)%Z).
        { pose proof (le_uint_bounds (firstn 4 (skipn 8 frame_hdr))) as Hb.
          rewrite length_firstn, length_skipn, Hex in Hb. exact Hb. }
        destruct (frame_data_bounds (Z.to_nat (num_samples * 4)) iq1)
          as (Hlen & Hcat).
        destruct (IqClient.read_data (Z.to_nat (num_samples * 4))
                                     (Z.to_nat (num_samples * 4)) [] iq1)
          as [data iq2].
        cbn [fst snd] in Hlen, Hcat.
        destruct (IH iq2 (out ++ [IqClient.Frame i seq num_samples flags
                                                  (List.length data)])%list)
          as (iq' & added & Hrun & Hcount & (consumed & Hcons) & Hall).
        exists iq', (IqClient.Frame i seq num_samples flags (List.length data) :: added).
        split; [rewrite Hrun, <- app_assoc; reflexivity |].
        split; [simpl; lia |]. split.
        -- exists (frame_hdr ++ data ++ consumed)%list.
           rewrite Heq, Hcat, Hcons, <- !app_assoc. reflexivity.
        -- constructor; [| exact Hall]. split; [exact Hn | lia].
      * exists iq1, [IqClient.FrameBadMagic i magic].
        split; [reflexivity |]. split; [simpl; lia |].
        split; [exists frame_hdr; exact Heq |].
        constructor; [apply Z.eqb_neq, Hmagic | constructor].
Qed.

(** X16. The loop over the frames never raises [struct.error], since a
    frame header that is not short has exactly 16 bytes.  It prints at most
    one line for each frame index and consumes the stream in order; a frame
    line reports a sample count below 2^32 and no more data than four bytes
    for each sample, a short-header line fewer than 16 bytes, and a
    bad-magic line a magic that is not IQDQ. *)
Theorem frames_loop_never_fails :
  forall (range : list nat) (iq : IqClient.socket) (out : list IqClient.line),
  exists iq' added,
    IqClient.read_frames range iq out = Some (iq', (out ++ added)%list) /\
    (List.length added <= List.length range)%nat /\
    (exists consumed, List.concat iq = (consumed ++ List.concat iq')%list) /\
    Forall (fun l => match l with
                     | IqClient.Frame _ _ num_samples _ data_len =>
                         (0 <= num_samples < 2 ^ 32)%Z /\
                         (Z.of_nat data_len <= 4 * num_samples)%Z
                     | IqClient.FrameShort _ n => (n < 16)%nat
                     | IqClient.FrameBadMagic _ magic => magic <> IqClient.MAGIC_DATA
                     | _ => False
                     end) added.
Proof.
  intros range iq out. apply read_frames_succeeds.
Qed.


